(** * The event/worker scheduler of udevd (src/udev/udevd.c)

    A shallow embedding of the parent ("manager") process of udevd: the event
    queue, the worker pool, the dispatcher, the per-event timers, the reaping
    of workers and the control channel, followed by the properties of the
    scheduler that the specification states.

    Conventions of the embedding.
    - C integers are [Z]; where the C code computes on a fixed width the
      wrap-around is written out ([wrap32], [wrap64]).
    - A C string is a [string] holding the bytes before the terminating NUL;
      reading index [strlen s] yields the NUL ([c_char]).
    - A [struct event *] is the address [ev_addr] the event was allocated at;
      a [struct worker *] is the worker's pid, the key of the hashmap.
    - What the manager does to the outside world (signals, netlink messages,
      the device database, the queue marker file, fork) is recorded in
      [trace], most recent effect first.  What the outside world answers is
      read from an [env].
    - Logging, sd_notify, and the failure of memory allocation are not
      modelled; [assert]s are not executed. *)

From Stdlib Require Import ZArith Lia Ascii String List Bool Sorted.
From stdpp Require Import base numbers list strings gmap.

Open Scope Z_scope.

(** ** Machine integers and libc macros *)

Definition wrap32 (x : Z) : Z := x mod 2 ^ 32.
Definition wrap64 (x : Z) : Z := x mod 2 ^ 64.

Definition USEC_PER_SEC : Z := 1000000.
Definition SIGKILL : Z := 9.
Definition SIGTERM : Z := 15.
Definition EINVAL : Z := 22.
Definition ETIMEDOUT : Z := 110.

(** [major()] of <sys/sysmacros.h> (glibc's gnu_dev_major). *)
Definition major (dev : Z) : Z :=
  Z.lor (Z.land (Z.shiftr dev 32) 0xfffff000) (Z.land (Z.shiftr dev 8) 0xfff).

(** [makedev()] of <sys/sysmacros.h>, used to write device numbers down. *)
Definition makedev (ma mi : Z) : Z :=
  Z.lor (Z.lor (Z.shiftl (Z.land ma 0xfff) 8) (Z.shiftl (Z.land ma 0xfffff000) 32))
        (Z.lor (Z.land mi 0xff) (Z.shiftl (Z.land mi 0xffffff00) 12)).

(** The wait-status macros of <sys/wait.h> (glibc's bits/waitstatus.h). *)
Definition WTERMSIG (status : Z) : Z := Z.land status 0x7f.
Definition WEXITSTATUS (status : Z) : Z := Z.shiftr (Z.land status 0xff00) 8.
Definition WIFEXITED (status : Z) : bool := WTERMSIG status =? 0.
Definition WIFSIGNALED (status : Z) : bool :=
  (0 <? WTERMSIG status) && (WTERMSIG status <? 0x7f).
Definition WIFSTOPPED (status : Z) : bool := Z.land status 0xff =? 0x7f.
Definition WIFCONTINUED (status : Z) : bool := status =? 0xffff.

(** [DIV_ROUND_UP] is a macro of macro.h, which is not among the sources of
    the scheduler; it is the division that rounds up, as its name says: the
    quotient, plus one when there is a remainder. *)
Definition DIV_ROUND_UP (x y : Z) : Z :=
  if 0 <? x mod y then x / y + 1 else x / y.

(** udev.h *)
Definition udev_warn_timeout (timeout_usec : Z) : Z := DIV_ROUND_UP timeout_usec 3.

(** ** C strings *)

(** [s[i]], for [i <= strlen s]: the byte at [i], the terminator at the end. *)
Definition c_char (s : string) (i : nat) : ascii :=
  match String.get i s with
  | Some c => c
  | None => Ascii.zero
  end.

Definition strlen (s : string) : nat := String.length s.

Definition streq (a b : string) : bool := String.eqb a b.

(** [memcmp(a, b, n) == 0]; it is only ever called with [n] at most the
    length of both strings. *)
Fixpoint memcmp_eq (a b : string) (n : nat) {struct n} : bool :=
  match n with
  | O => true
  | S n' =>
    match a, b with
    | String x a', String y b' => Ascii.eqb x y && memcmp_eq a' b' n'
    | _, _ => false
    end
  end.

(** [strchr(str, '=')], as the pair of the bytes before the first '=' (what
    [strndup(str, eq - str)] copies) and the string that starts after it
    ([eq + 1]). *)
Fixpoint strchr_eq (str : string) : option (string * string) :=
  match str with
  | EmptyString => None
  | String c rest =>
    if Ascii.eqb c "="%char then Some (EmptyString, rest)
    else match strchr_eq rest with
         | Some (key, val) => Some (String c key, val)
         | None => None
         end
  end.

(** [isempty(p)] of string-util.h, for a non-NULL [p]. *)
Definition isempty (p : string) : bool :=
  match p with
  | EmptyString => true
  | String _ _ => false
  end.

(** ** Data model *)

(** The fields of [struct udev_device] that the manager reads. *)
Record udev_device := {
  dev_seqnum : Z;
  dev_devpath : string;
  dev_devpath_old : option string;
  dev_devnum : Z;
  dev_ifindex : Z;
  dev_subsystem : string;
}.

(** The manager never changes a device, so the clone taken at insertion
    carries the same fields. *)
Definition udev_device_shallow_clone (dev : udev_device) : udev_device := dev.

Inductive event_state := EVENT_UNDEF | EVENT_QUEUED | EVENT_RUNNING.

Inductive worker_state := WORKER_UNDEF | WORKER_RUNNING | WORKER_IDLE | WORKER_KILLED.

Definition event_state_eqb (a b : event_state) : bool :=
  match a, b with
  | EVENT_UNDEF, EVENT_UNDEF | EVENT_QUEUED, EVENT_QUEUED
  | EVENT_RUNNING, EVENT_RUNNING => true
  | _, _ => false
  end.

Definition worker_state_eqb (a b : worker_state) : bool :=
  match a, b with
  | WORKER_UNDEF, WORKER_UNDEF | WORKER_RUNNING, WORKER_RUNNING
  | WORKER_IDLE, WORKER_IDLE | WORKER_KILLED, WORKER_KILLED => true
  | _, _ => false
  end.

Record event := {
  ev_addr : nat;
  ev_dev : udev_device;
  ev_dev_kernel : udev_device;
  ev_worker : option Z;
  ev_state : event_state;
  ev_delaying_seqnum : Z;
  ev_seqnum : Z;
  ev_devpath : string;
  ev_devpath_len : nat;
  ev_devpath_old : option string;
  ev_devnum : Z;
  ev_ifindex : Z;
  ev_is_block : bool;
  ev_timeout_warning : option Z;
  ev_timeout : option Z;
}.

Record worker := {
  wk_pid : Z;
  wk_state : worker_state;
  wk_event : option nat;
}.

Definition set_delaying_seqnum (e : event) (s : Z) : event :=
  {| ev_addr := ev_addr e; ev_dev := ev_dev e; ev_dev_kernel := ev_dev_kernel e;
     ev_worker := ev_worker e; ev_state := ev_state e;
     ev_delaying_seqnum := s; ev_seqnum := ev_seqnum e;
     ev_devpath := ev_devpath e; ev_devpath_len := ev_devpath_len e;
     ev_devpath_old := ev_devpath_old e; ev_devnum := ev_devnum e;
     ev_ifindex := ev_ifindex e; ev_is_block := ev_is_block e;
     ev_timeout_warning := ev_timeout_warning e; ev_timeout := ev_timeout e |}.

Definition set_event_state (e : event) (s : event_state) : event :=
  {| ev_addr := ev_addr e; ev_dev := ev_dev e; ev_dev_kernel := ev_dev_kernel e;
     ev_worker := ev_worker e; ev_state := s;
     ev_delaying_seqnum := ev_delaying_seqnum e; ev_seqnum := ev_seqnum e;
     ev_devpath := ev_devpath e; ev_devpath_len := ev_devpath_len e;
     ev_devpath_old := ev_devpath_old e; ev_devnum := ev_devnum e;
     ev_ifindex := ev_ifindex e; ev_is_block := ev_is_block e;
     ev_timeout_warning := ev_timeout_warning e; ev_timeout := ev_timeout e |}.

(** What [worker_attach_event] stores in the event. *)
Definition attach_to_worker (e : event) (pid warn kill : Z) : event :=
  {| ev_addr := ev_addr e; ev_dev := ev_dev e; ev_dev_kernel := ev_dev_kernel e;
     ev_worker := Some pid; ev_state := EVENT_RUNNING;
     ev_delaying_seqnum := ev_delaying_seqnum e; ev_seqnum := ev_seqnum e;
     ev_devpath := ev_devpath e; ev_devpath_len := ev_devpath_len e;
     ev_devpath_old := ev_devpath_old e; ev_devnum := ev_devnum e;
     ev_ifindex := ev_ifindex e; ev_is_block := ev_is_block e;
     ev_timeout_warning := Some warn; ev_timeout := Some kill |}.

(** ** The busy predicate *)

(** The body of [LIST_FOREACH] in [is_devpath_busy], over the rest of the
    queue; the result is the returned flag and the event as the call leaves
    it. *)
Fixpoint is_devpath_busy_loop (l : list event) (ev : event) : bool * event :=
  match l with
  | [] => (false, ev)
  | loop_event :: rest =>
    if ev_seqnum loop_event <? ev_delaying_seqnum ev then
      is_devpath_busy_loop rest ev
    else if ev_seqnum loop_event =? ev_delaying_seqnum ev then
      (true, ev)
    else if ev_seqnum loop_event >=? ev_seqnum ev then
      (false, ev)
    else if negb (major (ev_devnum ev) =? 0)
            && (ev_devnum ev =? ev_devnum loop_event)
            && Bool.eqb (ev_is_block ev) (ev_is_block loop_event) then
      (true, ev)
    else if (ev_ifindex ev >? 0) && (ev_ifindex ev =? ev_ifindex loop_event) then
      (true, ev)
    else if match ev_devpath_old ev with
            | Some old => streq (ev_devpath loop_event) old
            | None => false
            end then
      (true, set_delaying_seqnum ev (ev_seqnum loop_event))
    else
      let common := Nat.min (ev_devpath_len loop_event) (ev_devpath_len ev) in
      if negb (memcmp_eq (ev_devpath loop_event) (ev_devpath ev) common) then
        is_devpath_busy_loop rest ev
      else if Nat.eqb (ev_devpath_len loop_event) (ev_devpath_len ev) then
        if negb (major (ev_devnum ev) =? 0) || (ev_ifindex ev >? 0) then
          is_devpath_busy_loop rest ev
        else
          (true, set_delaying_seqnum ev (ev_seqnum loop_event))
      else if Ascii.eqb (c_char (ev_devpath ev) common) "/"%char then
        (true, set_delaying_seqnum ev (ev_seqnum loop_event))
      else if Ascii.eqb (c_char (ev_devpath loop_event) common) "/"%char then
        (true, set_delaying_seqnum ev (ev_seqnum loop_event))
      else
        is_devpath_busy_loop rest ev
  end.

(** ** The manager *)

Inductive effect :=
  | Kill (pid sig : Z)                 (* kill(pid, sig) *)
  | KillAndSigcont (pid sig : Z)       (* kill_and_sigcont(pid, sig) *)
  | MonitorSend (dest : option Z) (dev : udev_device)
      (* udev_monitor_send_device(manager->monitor, dest, dev) of a manager
         that has its monitor; the destination is the monitor of a worker, or
         NULL for a multicast *)
  | SendWithoutMonitor (dev : udev_device)
      (* udev_monitor_send_device(NULL, NULL, dev): the call of on_sigchld
         when manager->monitor is NULL, as manager_exit leaves it *)
  | DeleteDb (dev : udev_device)       (* udev_device_delete_db(dev) *)
  | TagIndex (dev : udev_device)       (* udev_device_tag_index(dev, NULL, false) *)
  | Fork (child : Z)                   (* a successful fork(), in the parent *)
  | TouchQueue                         (* touch("/run/udev/queue") *)
  | UnlinkQueue                        (* unlink("/run/udev/queue") *)
  | CgKill.                            (* cg_kill() of the manager's cgroup *)

Record Manager := {
  workers : list worker;        (* Hashmap pid -> worker, in iteration order *)
  events : list event;          (* LIST_HEAD(struct event, events) *)
  has_cgroup : bool;            (* cgroup != NULL *)
  rules : bool;                 (* rules != NULL *)
  properties : gmap string (option string);
  kill_workers_event : option Z;   (* when the idle-kill timer fires, if enabled *)
  last_usec : Z;
  stop_exec_queue : bool;
  exit : bool;
  monitor : bool;               (* monitor != NULL *)
  (* the static variables the scheduler reads *)
  arg_children_max : Z;
  arg_event_timeout_usec : Z;
  (* the event loop and the outside world *)
  exit_timeout : option Z;      (* the source added by manager_exit *)
  exit_code : option Z;         (* sd_event_exit(manager->event, code) *)
  next_addr : nat;              (* the next address the allocator hands out *)
  trace : list effect;
}.

Definition set_workers (m : Manager) (ws : list worker) : Manager :=
  {| workers := ws; events := events m; has_cgroup := has_cgroup m; rules := rules m;
     properties := properties m; kill_workers_event := kill_workers_event m;
     last_usec := last_usec m; stop_exec_queue := stop_exec_queue m; exit := exit m;
     monitor := monitor m;
     arg_children_max := arg_children_max m;
     arg_event_timeout_usec := arg_event_timeout_usec m;
     exit_timeout := exit_timeout m; exit_code := exit_code m;
     next_addr := next_addr m; trace := trace m |}.

Definition set_events (m : Manager) (es : list event) : Manager :=
  {| workers := workers m; events := es; has_cgroup := has_cgroup m; rules := rules m;
     properties := properties m; kill_workers_event := kill_workers_event m;
     last_usec := last_usec m; stop_exec_queue := stop_exec_queue m; exit := exit m;
     monitor := monitor m;
     arg_children_max := arg_children_max m;
     arg_event_timeout_usec := arg_event_timeout_usec m;
     exit_timeout := exit_timeout m; exit_code := exit_code m;
     next_addr := next_addr m; trace := trace m |}.

Definition set_rules (m : Manager) (b : bool) : Manager :=
  {| workers := workers m; events := events m; has_cgroup := has_cgroup m; rules := b;
     properties := properties m; kill_workers_event := kill_workers_event m;
     last_usec := last_usec m; stop_exec_queue := stop_exec_queue m; exit := exit m;
     monitor := monitor m;
     arg_children_max := arg_children_max m;
     arg_event_timeout_usec := arg_event_timeout_usec m;
     exit_timeout := exit_timeout m; exit_code := exit_code m;
     next_addr := next_addr m; trace := trace m |}.

Definition set_properties (m : Manager) (ps : gmap string (option string)) : Manager :=
  {| workers := workers m; events := events m; has_cgroup := has_cgroup m;
     rules := rules m; properties := ps; kill_workers_event := kill_workers_event m;
     last_usec := last_usec m; stop_exec_queue := stop_exec_queue m; exit := exit m;
     monitor := monitor m;
     arg_children_max := arg_children_max m;
     arg_event_timeout_usec := arg_event_timeout_usec m;
     exit_timeout := exit_timeout m; exit_code := exit_code m;
     next_addr := next_addr m; trace := trace m |}.

Definition set_kill_workers_event (m : Manager) (t : option Z) : Manager :=
  {| workers := workers m; events := events m; has_cgroup := has_cgroup m;
     rules := rules m; properties := properties m; kill_workers_event := t;
     last_usec := last_usec m; stop_exec_queue := stop_exec_queue m; exit := exit m;
     monitor := monitor m;
     arg_children_max := arg_children_max m;
     arg_event_timeout_usec := arg_event_timeout_usec m;
     exit_timeout := exit_timeout m; exit_code := exit_code m;
     next_addr := next_addr m; trace := trace m |}.

Definition set_last_usec (m : Manager) (usec : Z) : Manager :=
  {| workers := workers m; events := events m; has_cgroup := has_cgroup m;
     rules := rules m; properties := properties m;
     kill_workers_event := kill_workers_event m; last_usec := usec;
     stop_exec_queue := stop_exec_queue m; exit := exit m; monitor := monitor m;
     arg_children_max := arg_children_max m;
     arg_event_timeout_usec := arg_event_timeout_usec m;
     exit_timeout := exit_timeout m; exit_code := exit_code m;
     next_addr := next_addr m; trace := trace m |}.

Definition set_stop_exec_queue (m : Manager) (b : bool) : Manager :=
  {| workers := workers m; events := events m; has_cgroup := has_cgroup m;
     rules := rules m; properties := properties m;
     kill_workers_event := kill_workers_event m; last_usec := last_usec m;
     stop_exec_queue := b; exit := exit m; monitor := monitor m;
     arg_children_max := arg_children_max m;
     arg_event_timeout_usec := arg_event_timeout_usec m;
     exit_timeout := exit_timeout m; exit_code := exit_code m;
     next_addr := next_addr m; trace := trace m |}.

Definition set_exit (m : Manager) (b : bool) : Manager :=
  {| workers := workers m; events := events m; has_cgroup := has_cgroup m;
     rules := rules m; properties := properties m;
     kill_workers_event := kill_workers_event m; last_usec := last_usec m;
     stop_exec_queue := stop_exec_queue m; exit := b; monitor := monitor m;
     arg_children_max := arg_children_max m;
     arg_event_timeout_usec := arg_event_timeout_usec m;
     exit_timeout := exit_timeout m; exit_code := exit_code m;
     next_addr := next_addr m; trace := trace m |}.

Definition set_monitor (m : Manager) (b : bool) : Manager :=
  {| workers := workers m; events := events m; has_cgroup := has_cgroup m;
     rules := rules m; properties := properties m;
     kill_workers_event := kill_workers_event m; last_usec := last_usec m;
     stop_exec_queue := stop_exec_queue m; exit := exit m; monitor := b;
     arg_children_max := arg_children_max m;
     arg_event_timeout_usec := arg_event_timeout_usec m;
     exit_timeout := exit_timeout m; exit_code := exit_code m;
     next_addr := next_addr m; trace := trace m |}.

Definition set_arg_children_max (m : Manager) (n : Z) : Manager :=
  {| workers := workers m; events := events m; has_cgroup := has_cgroup m;
     rules := rules m; properties := properties m;
     kill_workers_event := kill_workers_event m; last_usec := last_usec m;
     stop_exec_queue := stop_exec_queue m; exit := exit m; monitor := monitor m;
     arg_children_max := n;
     arg_event_timeout_usec := arg_event_timeout_usec m;
     exit_timeout := exit_timeout m; exit_code := exit_code m;
     next_addr := next_addr m; trace := trace m |}.

Definition set_exit_timeout (m : Manager) (t : option Z) : Manager :=
  {| workers := workers m; events := events m; has_cgroup := has_cgroup m;
     rules := rules m; properties := properties m;
     kill_workers_event := kill_workers_event m; last_usec := last_usec m;
     stop_exec_queue := stop_exec_queue m; exit := exit m; monitor := monitor m;
     arg_children_max := arg_children_max m;
     arg_event_timeout_usec := arg_event_timeout_usec m; exit_timeout := t;
     exit_code := exit_code m; next_addr := next_addr m; trace := trace m |}.

Definition set_exit_code (m : Manager) (c : option Z) : Manager :=
  {| workers := workers m; events := events m; has_cgroup := has_cgroup m;
     rules := rules m; properties := properties m;
     kill_workers_event := kill_workers_event m; last_usec := last_usec m;
     stop_exec_queue := stop_exec_queue m; exit := exit m; monitor := monitor m;
     arg_children_max := arg_children_max m;
     arg_event_timeout_usec := arg_event_timeout_usec m;
     exit_timeout := exit_timeout m; exit_code := c; next_addr := next_addr m;
     trace := trace m |}.

Definition set_next_addr (m : Manager) (a : nat) : Manager :=
  {| workers := workers m; events := events m; has_cgroup := has_cgroup m;
     rules := rules m; properties := properties m;
     kill_workers_event := kill_workers_event m; last_usec := last_usec m;
     stop_exec_queue := stop_exec_queue m; exit := exit m; monitor := monitor m;
     arg_children_max := arg_children_max m;
     arg_event_timeout_usec := arg_event_timeout_usec m;
     exit_timeout := exit_timeout m; exit_code := exit_code m; next_addr := a;
     trace := trace m |}.

Definition emit (m : Manager) (x : effect) : Manager :=
  {| workers := workers m; events := events m; has_cgroup := has_cgroup m;
     rules := rules m; properties := properties m;
     kill_workers_event := kill_workers_event m; last_usec := last_usec m;
     stop_exec_queue := stop_exec_queue m; exit := exit m; monitor := monitor m;
     arg_children_max := arg_children_max m;
     arg_event_timeout_usec := arg_event_timeout_usec m;
     exit_timeout := exit_timeout m; exit_code := exit_code m;
     next_addr := next_addr m; trace := x :: trace m |}.

(** ** Lists and hashmaps *)

Definition LIST_IS_EMPTY {A : Type} (l : list A) : bool :=
  match l with
  | [] => true
  | _ :: _ => false
  end.

Definition find_event (a : nat) (es : list event) : option event :=
  List.find (fun e => Nat.eqb (ev_addr e) a) es.

(** A store through a [struct event *]. *)
Definition update_event (a : nat) (f : event -> event) (es : list event) : list event :=
  List.map (fun e => if Nat.eqb (ev_addr e) a then f e else e) es.

(** [LIST_REMOVE] *)
Definition remove_event (a : nat) (es : list event) : list event :=
  List.filter (fun e => negb (Nat.eqb (ev_addr e) a)) es.

Definition hashmap_get (ws : list worker) (pid : Z) : option worker :=
  List.find (fun w => wk_pid w =? pid) ws.

Definition hashmap_remove (ws : list worker) (pid : Z) : list worker :=
  List.filter (fun w => negb (wk_pid w =? pid)) ws.

Definition hashmap_size (ws : list worker) : Z := Z.of_nat (length ws).

(** A store through a [struct worker *]. *)
Definition update_worker (pid : Z) (f : worker -> worker) (ws : list worker) : list worker :=
  List.map (fun w => if wk_pid w =? pid then f w else w) ws.

Definition set_wk_state (s : worker_state) (w : worker) : worker :=
  {| wk_pid := wk_pid w; wk_state := s; wk_event := wk_event w |}.

Definition set_wk_event (p : option nat) (w : worker) : worker :=
  {| wk_pid := wk_pid w; wk_state := wk_state w; wk_event := p |}.

(** ** Events and workers *)

(** The model is the process that created the queue, so the marker file is
    removed whenever the queue becomes empty. *)
Definition event_free (m : Manager) (p : option nat) : Manager :=
  match p with
  | None => m
  | Some a =>
    match find_event a (events m) with
    | None => m
    | Some ev =>
      let m := set_events m (remove_event a (events m)) in
      let m := match ev_worker ev with
               | Some pid =>
                 set_workers m (update_worker pid (set_wk_event None) (workers m))
               | None => m
               end in
      if LIST_IS_EMPTY (events m) then emit m UnlinkQueue else m
    end
  end.

Definition worker_free (m : Manager) (w : worker) : Manager :=
  let m := set_workers m (hashmap_remove (workers m) (wk_pid w)) in
  event_free m (wk_event w).

Definition on_event_timeout (m : Manager) (a : nat) : Manager :=
  match find_event a (events m) with
  | None => m
  | Some ev =>
    match ev_worker ev with
    | None => m
    | Some pid =>
      let m := emit m (KillAndSigcont pid SIGKILL) in
      set_workers m (update_worker pid (set_wk_state WORKER_KILLED) (workers m))
    end
  end.

Definition on_event_timeout_warning (m : Manager) (a : nat) : Manager := m.

Definition worker_attach_event (usec : Z) (m : Manager) (pid : Z) (a : nat) : Manager :=
  let m := set_workers m
             (update_worker pid
                (fun w => set_wk_event (Some a) (set_wk_state WORKER_RUNNING w))
                (workers m)) in
  set_events m
    (update_event a
       (fun e => attach_to_worker e pid
                   (wrap64 (usec + udev_warn_timeout (arg_event_timeout_usec m)))
                   (wrap64 (usec + arg_event_timeout_usec m)))
       (events m)).

(** What the outside world answers during one callback of the event loop. *)
Inductive spawn_result :=
  | SpawnNoMonitor            (* udev_monitor_new_from_netlink() returned NULL *)
  | SpawnForkFailed           (* fork() returned -1 *)
  | SpawnChild (pid : Z).     (* fork() returned the child's pid *)

Record env := {
  env_now : Z;                (* sd_event_now(), now(CLOCK_MONOTONIC) *)
  env_config_changed : bool;  (* udev_rules_check_timestamp() || udev_builtin_validate() *)
  env_rules_new : bool;       (* udev_rules_new() returned rules *)
  env_send : Z -> nat -> bool;
    (* udev_monitor_send_device() to the worker [pid], of the device of the
       event at the address, returned a count >= 0 *)
  env_spawn : nat -> spawn_result;
}.

Definition worker_spawn (v : env) (m : Manager) (a : nat) : Manager :=
  match env_spawn v a with
  | SpawnNoMonitor => m
  | SpawnForkFailed =>
    set_events m (update_event a (fun e => set_event_state e EVENT_QUEUED) (events m))
  | SpawnChild pid =>
    let m := emit m (Fork pid) in
    (* worker_new: hashmap_put refuses a key that is present *)
    match hashmap_get (workers m) pid with
    | Some _ => m
    | None =>
      let m := set_workers m
                 (workers m ++
                  [{| wk_pid := pid; wk_state := WORKER_UNDEF; wk_event := None |}]) in
      worker_attach_event (env_now v) m pid a
    end
  end.

(** [HASHMAP_FOREACH] of [event_run]; the flag tells that the event was
    attached.  An iteration only changes the worker it visits, so the state of
    a worker is read from the list the loop runs over.  [event_run] is called
    by [event_queue_start] alone, which returns at once when the exit flag is
    set: the manager has its monitor when it sends a device to a worker. *)
Fixpoint event_run_workers (v : env) (ev : event) (ws : list worker) (m : Manager)
  : Manager * bool :=
  match ws with
  | [] => (m, false)
  | w :: rest =>
    if negb (worker_state_eqb (wk_state w) WORKER_IDLE) then
      event_run_workers v ev rest m
    else if negb (env_send v (wk_pid w) (ev_addr ev)) then
      let m := emit m (Kill (wk_pid w) SIGKILL) in
      let m := set_workers m
                 (update_worker (wk_pid w) (set_wk_state WORKER_KILLED) (workers m)) in
      event_run_workers v ev rest m
    else
      let m := emit m (MonitorSend (Some (wk_pid w)) (ev_dev ev)) in
      (worker_attach_event (env_now v) m (wk_pid w) (ev_addr ev), true)
  end.

Definition event_run (v : env) (m : Manager) (ev : event) : Manager :=
  let (m, attached) := event_run_workers v ev (workers m) m in
  if attached then m
  else if hashmap_size (workers m) >=? arg_children_max m then m
  else worker_spawn v m (ev_addr ev).

Definition event_queue_insert (m : Manager) (dev : udev_device) : Manager :=
  let ev := {| ev_addr := next_addr m;
               ev_dev := dev;
               ev_dev_kernel := udev_device_shallow_clone dev;
               ev_worker := None;
               ev_state := EVENT_QUEUED;
               ev_delaying_seqnum := 0;
               ev_seqnum := dev_seqnum dev;
               ev_devpath := dev_devpath dev;
               ev_devpath_len := strlen (dev_devpath dev);
               ev_devpath_old := dev_devpath_old dev;
               ev_devnum := dev_devnum dev;
               ev_ifindex := dev_ifindex dev;
               ev_is_block := streq "block" (dev_subsystem dev);
               ev_timeout_warning := None;
               ev_timeout := None |} in
  let m := set_next_addr m (S (next_addr m)) in
  let m := if LIST_IS_EMPTY (events m) then emit m TouchQueue else m in
  set_events m (events m ++ [ev]).

Definition manager_kill_workers (m : Manager) : Manager :=
  fold_left
    (fun m w =>
       if worker_state_eqb (wk_state w) WORKER_KILLED then m
       else
         let m := set_workers m
                    (update_worker (wk_pid w) (set_wk_state WORKER_KILLED) (workers m)) in
         emit m (Kill (wk_pid w) SIGTERM))
    (workers m) m.

(** [is_devpath_busy] on the queue of the manager: the flag, and the manager
    with what the call stored in the event. *)
Definition is_devpath_busy (m : Manager) (ev : event) : bool * Manager :=
  (fst (is_devpath_busy_loop (events m) ev),
   set_events m
     (update_event (ev_addr ev)
        (fun e => snd (is_devpath_busy_loop (events m) e)) (events m))).

Definition event_queue_cleanup (m : Manager) (match_type : event_state) : Manager :=
  fold_left
    (fun m ev =>
       if negb (event_state_eqb match_type EVENT_UNDEF)
          && negb (event_state_eqb match_type (ev_state ev)) then m
       else event_free m (Some (ev_addr ev)))
    (events m) m.

Definition manager_exit (v : env) (m : Manager) : Manager :=
  let m := set_exit m true in
  (* manager->monitor = udev_monitor_unref(manager->monitor) *)
  let m := set_monitor m false in
  let m := event_queue_cleanup m EVENT_QUEUED in
  let m := manager_kill_workers m in
  set_exit_timeout m (Some (wrap64 (env_now v + 30 * USEC_PER_SEC))).

Definition manager_reload (m : Manager) : Manager :=
  let m := manager_kill_workers m in
  set_rules m false.

(** [LIST_FOREACH] of [event_queue_start], over the addresses of the queue. *)
Fixpoint event_queue_start_loop (v : env) (todo : list nat) (m : Manager) : Manager :=
  match todo with
  | [] => m
  | a :: rest =>
    match find_event a (events m) with
    | None => event_queue_start_loop v rest m
    | Some ev =>
      if negb (event_state_eqb (ev_state ev) EVENT_QUEUED) then
        event_queue_start_loop v rest m
      else
        let (busy, m) := is_devpath_busy m ev in
        if busy then event_queue_start_loop v rest m
        else event_queue_start_loop v rest (event_run v m ev)
    end
  end.

Definition event_queue_start (v : env) (m : Manager) : Manager :=
  if LIST_IS_EMPTY (events m) || exit m || stop_exec_queue m then m
  else
    let usec := env_now v in
    let m := if (last_usec m =? 0) || (wrap64 (usec - last_usec m) >? 3 * USEC_PER_SEC)
             then set_last_usec
                    (if env_config_changed v then manager_reload m else m) usec
             else m in
    let m := set_kill_workers_event m None in
    if rules m then event_queue_start_loop v (List.map ev_addr (events m)) m
    else if env_rules_new v then
      let m := set_rules m true in
      event_queue_start_loop v (List.map ev_addr (events m)) m
    else m.

(** ** The callbacks of the event loop *)

(** One iteration of the loop of [on_worker] that got a message with the
    credentials of [pid]. *)
Definition on_worker_message (m : Manager) (pid : Z) : Manager :=
  match hashmap_get (workers m) pid with
  | None => m
  | Some w =>
    let m := if negb (worker_state_eqb (wk_state w) WORKER_KILLED) then
               set_workers m
                 (update_worker pid (set_wk_state WORKER_IDLE) (workers m))
             else m in
    event_free m (wk_event w)
  end.

(** [pids] are the senders of the well-formed messages read before
    [recvmsg] ran dry ([failed = false]) or failed ([failed = true]). *)
Definition on_worker (v : env) (m : Manager) (pids : list Z) (failed : bool) : Manager :=
  let m := fold_left on_worker_message pids m in
  if failed then m else event_queue_start v m.

Definition on_uevent (v : env) (m : Manager) (dev : udev_device) : Manager :=
  event_queue_start v (event_queue_insert m dev).

(** What the accessors of udev-ctrl.h return for a received message. *)
Record udev_ctrl_msg := {
  ctrl_set_log_level : Z;
  ctrl_stop_exec_queue : Z;
  ctrl_start_exec_queue : Z;
  ctrl_reload : Z;
  ctrl_set_env : option string;
  ctrl_set_children_max : Z;
  ctrl_ping : Z;
  ctrl_exit : Z;
}.

(** [on_ctrl_msg] after the set-env block. *)
Definition on_ctrl_msg_rest (v : env) (m : Manager) (msg : udev_ctrl_msg) : Manager :=
  let m := if ctrl_set_children_max msg >=? 0 then
             set_arg_children_max m (ctrl_set_children_max msg)
           else m in
  if ctrl_exit msg >? 0 then manager_exit v m else m.

Definition on_ctrl_msg (v : env) (m : Manager) (msg : udev_ctrl_msg) : Manager :=
  let m := if ctrl_set_log_level msg >=? 0 then manager_kill_workers m else m in
  let m := if ctrl_stop_exec_queue msg >? 0 then set_stop_exec_queue m true else m in
  let m := if ctrl_start_exec_queue msg >? 0 then
             event_queue_start v (set_stop_exec_queue m false)
           else m in
  let m := if ctrl_reload msg >? 0 then manager_reload m else m in
  match ctrl_set_env msg with
  | None => on_ctrl_msg_rest v m msg
  | Some str =>
    match strchr_eq str with
    | None => m
    | Some (key, eq) =>
      (* hashmap_remove2 *)
      let m := set_properties m (delete key (properties m)) in
      let m := if negb (isempty eq) then
                 set_properties m (<[key := None]> (properties m))
               else
                 set_properties m (<[key := Some eq]> (properties m)) in
      on_ctrl_msg_rest v (manager_kill_workers m) msg
    end
  end.

(** One iteration of the loop of [on_sigchld] in which [waitpid] returned
    [pid] with [status]. *)
Definition on_sigchld_child (m : Manager) (child : Z * Z) : Manager :=
  let (pid, status) := child in
  match hashmap_get (workers m) pid with
  | None => m
  | Some w =>
    if negb (WIFEXITED status) && negb (WIFSIGNALED status)
       && (WIFSTOPPED status || WIFCONTINUED status) then m
    else
      let m :=
        if negb (WIFEXITED status) || negb (WEXITSTATUS status =? 0) then
          match wk_event w with
          | None => m
          | Some a =>
            match find_event a (events m) with
            | None => m
            | Some ev =>
              let m := emit m (DeleteDb (ev_dev ev)) in
              let m := emit m (TagIndex (ev_dev ev)) in
              (* udev_monitor_send_device(manager->monitor, NULL, dev_kernel) *)
              emit m (if monitor m then MonitorSend None (ev_dev_kernel ev)
                      else SendWithoutMonitor (ev_dev_kernel ev))
            end
          end
        else m in
      worker_free m w
  end.

Definition on_sigchld (v : env) (m : Manager) (children : list (Z * Z)) : Manager :=
  let m := fold_left on_sigchld_child children m in
  let m := event_queue_start v m in
  if LIST_IS_EMPTY (workers m) then set_kill_workers_event m None else m.

Definition on_sigterm (v : env) (m : Manager) : Manager := manager_exit v m.

Definition on_sighup (m : Manager) : Manager := manager_reload m.

Definition on_kill_workers_event (m : Manager) : Manager := manager_kill_workers m.

Definition on_exit_timeout (m : Manager) : Manager :=
  set_exit_code m (Some (- ETIMEDOUT)).

(** The part of [on_inotify] that touches the manager; what
    [synthesize_change] writes to sysfs comes back as uevents. *)
Definition on_inotify (m : Manager) : Manager := set_kill_workers_event m None.

Definition on_post (v : env) (m : Manager) : Manager :=
  if negb (LIST_IS_EMPTY (events m)) then m
  else if negb (LIST_IS_EMPTY (workers m)) then
    set_kill_workers_event m (Some (wrap64 (env_now v + 3 * USEC_PER_SEC)))
  else if exit m then set_exit_code m (Some 0)
  else if has_cgroup m then emit m CgKill
  else m.

(** The initial value of [arg_event_timeout_usec]. *)
Definition default_event_timeout_usec : Z := 180 * USEC_PER_SEC.

(** The manager as [manager_new] leaves it, with the two settings [main]
    has computed by then. *)
Definition manager_new (cgroup : bool) (children_max event_timeout_usec : Z) : Manager :=
  {| workers := []; events := []; has_cgroup := cgroup; rules := true;
     properties := ∅; kill_workers_event := None; last_usec := 0;
     stop_exec_queue := false; exit := false; monitor := true;
     arg_children_max := children_max;
     arg_event_timeout_usec := event_timeout_usec;
     exit_timeout := None; exit_code := None; next_addr := O; trace := [] |}.

(** What the event loop can dispatch. *)
Inductive input :=
  | InUevent (dev : udev_device)
  | InWorker (pids : list Z) (failed : bool)
  | InCtrl (msg : udev_ctrl_msg)
  | InSigchld (children : list (Z * Z))
  | InSigterm
  | InSighup
  | InInotify
  | InEventTimeout (a : nat)
  | InEventTimeoutWarning (a : nat)
  | InKillWorkers
  | InExitTimeout
  | InPost.

Definition dispatch (v : env) (m : Manager) (i : input) : Manager :=
  match i with
  | InUevent dev => on_uevent v m dev
  | InWorker pids failed => on_worker v m pids failed
  | InCtrl msg => on_ctrl_msg v m msg
  | InSigchld children => on_sigchld v m children
  | InSigterm => on_sigterm v m
  | InSighup => on_sighup m
  | InInotify => on_inotify m
  | InEventTimeout a => on_event_timeout m a
  | InEventTimeoutWarning a => on_event_timeout_warning m a
  | InKillWorkers => on_kill_workers_event m
  | InExitTimeout => on_exit_timeout m
  | InPost => on_post v m
  end.

(** When the loop can dispatch an input: the kernel numbers its uevents in
    increasing order and the uevent, inotify and control sources are closed by
    [manager_exit]; a timer of an event fires only while the event holds
    it.  The other sources are taken to be ready at any time. *)
Definition input_ok (m : Manager) (i : input) : Prop :=
  match i with
  | InUevent dev =>
    exit m = false /\ 0 <= dev_seqnum dev < 2 ^ 64 /\
    Forall (fun e => ev_seqnum e < dev_seqnum dev) (events m)
  | InCtrl _ | InInotify => exit m = false
  | InEventTimeout a =>
    exists ev, find_event a (events m) = Some ev /\ ev_timeout ev <> None
  | InEventTimeoutWarning a =>
    exists ev, find_event a (events m) = Some ev /\ ev_timeout_warning ev <> None
  | _ => True
  end.

Inductive reachable (m0 : Manager) : Manager -> Prop :=
  | reachable_init : reachable m0 m0
  | reachable_step m v i :
      reachable m0 m -> input_ok m i -> reachable m0 (dispatch v m i).

(** ** Start-up: [main] and [listen_fds] *)

(** The default of [arg_children_max] that [main] computes when neither the
    configuration, the command line nor the kernel command line has set it.
    [affinity] is the [CPU_COUNT] of the mask when [sched_getaffinity]
    succeeded; [arg_children_max] is an [unsigned], [mem_limit] an
    [unsigned long]. *)
Definition default_children_max (affinity : option Z) (physical_memory : Z) : Z :=
  let children_max := 8 in
  let children_max :=
    match affinity with
    | Some cpu_count => wrap32 (children_max + wrap32 (cpu_count * 8))
    | None => children_max
    end in
  let mem_limit := physical_memory / (128 * 1024 * 1024) in
  wrap32 (Z.max 10 (Z.min children_max mem_limit)).

Definition main_children_max (arg : Z) (affinity : option Z) (physical_memory : Z) : Z :=
  if arg =? 0 then default_children_max affinity physical_memory else arg.

Definition SD_LISTEN_FDS_START : Z := 3.
Definition AF_LOCAL : Z := 1.
Definition AF_NETLINK : Z := 16.
Definition SOCK_RAW : Z := 3.
Definition SOCK_SEQPACKET : Z := 5.

(** What [sd_is_socket] finds out about a descriptor. *)
Record fd_info := {
  fd_is_socket : bool;
  fd_family : Z;
  fd_type : Z;
}.

(** [sd_is_socket(fd, family, type, -1)] on a descriptor that is open. *)
Definition sd_is_socket (d : fd_info) (family type : Z) : Z :=
  if fd_is_socket d && (fd_family d =? family) && (fd_type d =? type) then 1 else 0.

(** The [for] loop of [listen_fds] with [count] descriptors left, as the
    value returned and the two locals. *)
Fixpoint listen_fds_loop (table : Z -> fd_info) (count : nat) (fd ctrl_fd netlink_fd : Z)
  : Z * Z * Z :=
  match count with
  | O => (0, ctrl_fd, netlink_fd)
  | S count' =>
    if sd_is_socket (table fd) AF_LOCAL SOCK_SEQPACKET >? 0 then
      if ctrl_fd >=? 0 then (- EINVAL, ctrl_fd, netlink_fd)
      else listen_fds_loop table count' (fd + 1) fd netlink_fd
    else if sd_is_socket (table fd) AF_NETLINK SOCK_RAW >? 0 then
      if netlink_fd >=? 0 then (- EINVAL, ctrl_fd, netlink_fd)
      else listen_fds_loop table count' (fd + 1) ctrl_fd fd
    else (- EINVAL, ctrl_fd, netlink_fd)
  end.

(** [n] is what [sd_listen_fds] returned and [table] describes the
    descriptors from [SD_LISTEN_FDS_START] on.  The result is the value
    returned and, when they are written, [*ret_ctrl] and [*ret_netlink]. *)
Definition listen_fds (n : Z) (table : Z -> fd_info) : Z * option (Z * Z) :=
  if n <? 0 then (n, None)
  else
    match listen_fds_loop table (Z.to_nat n) SD_LISTEN_FDS_START (-1) (-1) with
    | (r, ctrl_fd, netlink_fd) =>
      if r <? 0 then (r, None) else (0, Some (ctrl_fd, netlink_fd))
    end.

(** ** The worker process: the child side of [worker_spawn]

    The child that [fork] leaves in [worker_spawn] handles the device of the
    event it was forked for and then the devices the manager sends to its
    monitor, one after the other, until it is told to terminate.  What the
    worker does to the outside world is recorded in the order in which it
    happens; what the outside world answers is read from [answers], per
    device, and from the wake-ups of [epoll_wait]. *)

Definition EINTR : Z := 4.
Definition ENOMEM : Z := 12.
Definition EXIT_SUCCESS : Z := 0.
Definition EXIT_FAILURE : Z := 1.

(** [streq_ptr] of string-util.h: equal strings, or both NULL. *)
Definition streq_ptr (a b : option string) : bool :=
  match a, b with
  | Some x, Some y => streq x y
  | None, None => true
  | _, _ => false
  end.

(** [startswith(s, prefix) != NULL] *)
Definition startswith (s prefix : string) : bool := String.prefix prefix s.

(** The fields of the device that the worker reads.  [wd_parent] is [None]
    when [udev_device_get_parent] returns NULL and else the device node of
    the parent, which may be NULL in its turn. *)
Record wdev := {
  wd_action : option string;
  wd_subsystem : option string;
  wd_sysname : string;
  wd_devtype : option string;
  wd_devnode : option string;
  wd_parent : option (option string);
}.

Definition shall_lock_device (dev : wdev) : bool :=
  if negb (streq_ptr (Some "block"%string) (wd_subsystem dev)) then false
  else
    negb (startswith (wd_sysname dev) "dm-")
    && negb (startswith (wd_sysname dev) "md")
    && negb (startswith (wd_sysname dev) "drbd").

Inductive weffect :=
  | WOpen (node : option string)   (* open(devnode, O_RDONLY|O_CLOEXEC|O_NOFOLLOW|O_NONBLOCK) *)
  | WFlock                         (* flock(fd_lock, LOCK_SH|LOCK_NB) *)
  | WCloseLock                     (* safe_close(fd_lock) of an open descriptor *)
  | WExecRules (dev : wdev)        (* udev_event_execute_rules() *)
  | WExecRun (dev : wdev)          (* udev_event_execute_run() *)
  | WWatchBegin (dev : wdev)       (* udev_watch_begin() *)
  | WUpdateDb (dev : wdev)         (* udev_device_update_db() *)
  | WPublish (dev : wdev)          (* udev_monitor_send_device(worker_monitor, NULL, dev) *)
  | WMessage.                      (* worker_send_message(manager->worker_watch[WRITE_END]) *)

(** What the outside world answers while one device is handled. *)
Record answers := {
  a_event_new : bool;      (* udev_event_new() returned an event *)
  a_open : Z;              (* open() of a device node that is not NULL *)
  a_flock : Z;             (* flock() *)
  a_inotify_watch : bool;  (* udev_event->inotify_watch after the rules have run *)
  a_send : Z;              (* worker_send_message() *)
}.

(** The body of the [for (;;)] loop from the lock to the message, for a
    device for which [udev_event_new] has returned an event: the effects in
    their order and the new value of [r]. *)
Definition worker_handle_device (dev : wdev) (a : answers) : list weffect * Z :=
  let process (fd_lock : Z) :=
    [WExecRules dev; WExecRun dev]
    ++ (if a_inotify_watch a then [WWatchBegin dev; WUpdateDb dev] else [])
    ++ (if fd_lock >=? 0 then [WCloseLock] else [])
    ++ [WPublish dev] in
  let body :=
    if negb (streq_ptr (wd_action dev) (Some "remove"%string)) && shall_lock_device dev then
      let d := if streq_ptr (Some "partition"%string) (wd_devtype dev)
               then wd_parent dev else Some (wd_devnode dev) in
      match d with
      | Some node =>
        (* open(NULL) fails *)
        let fd_lock := match node with Some _ => a_open a | None => -1 end in
        if fd_lock >=? 0 then
          if a_flock a <? 0 then [WOpen node; WFlock; WCloseLock]   (* goto skip *)
          else [WOpen node; WFlock] ++ process fd_lock
        else [WOpen node] ++ process fd_lock
      | None => process (-1)
      end
    else process (-1) in
  (body ++ [WMessage], a_send a).

(** One [struct epoll_event] that [epoll_wait] has filled in, with what the
    calls made for it return. *)
Inductive wfd := FdMonitor | FdSignal.

Record epoll_ev := {
  ee_fd : wfd;               (* data.fd is fd_monitor or fd_signal *)
  ee_in : bool;              (* events & EPOLLIN *)
  ee_dev : option wdev;      (* udev_monitor_receive_device(worker_monitor) *)
  ee_size_ok : bool;         (* read() returned sizeof(struct signalfd_siginfo) *)
  ee_signo : Z;              (* fdsi.ssi_signo *)
}.

Inductive wakeup :=
  | EpollFailed (errno : Z)             (* epoll_wait() returned a negative count *)
  | EpollReady (evs : list epoll_ev).   (* the events of ev[0 .. fdcount-1] *)

Inductive scan_result :=
  | ScanDevice (dev : option wdev)   (* break, with what was received *)
  | ScanTerm                         (* goto out *)
  | ScanEnd.                         (* i reached fdcount *)

(** The [for (i = 0; i < fdcount; i++)] loop. *)
Fixpoint scan_events (evs : list epoll_ev) : scan_result :=
  match evs with
  | [] => ScanEnd
  | e :: rest =>
    match ee_fd e, ee_in e with
    | FdMonitor, true => ScanDevice (ee_dev e)
    | FdSignal, true =>
      if negb (ee_size_ok e) then scan_events rest
      else if ee_signo e =? SIGTERM then ScanTerm
      else scan_events rest
    | _, _ => scan_events rest
    end
  end.

Inductive wexit :=
  | WExit (status : Z)   (* _exit(status) *)
  | WBlocked.            (* waiting in epoll_wait, the wake-ups used up *)

(** The run of a worker: its effects in their order, the devices it has
    taken up in their order (kept for the statements only), and its end. *)
Record wrun := {
  w_trace : list weffect;
  w_taken : list wdev;
  w_exit : wexit;
}.

(** [log_error_errno(errno, ...)] returns the negated error; log.h is not
    among the sources. *)
Definition log_error_errno (errno : Z) : Z := - Z.abs errno.

Definition worker_exit (tr : list weffect) (taken : list wdev) (r : Z) : wrun :=
  {| w_trace := tr; w_taken := taken;
     w_exit := WExit (if r <? 0 then EXIT_FAILURE else EXIT_SUCCESS) |}.

(** The [while (dev == NULL)] loop, followed by the next turns of the
    [for (;;)] loop.  [n] devices have been taken up so far and the world
    answers the next one with [world n]. *)
Fixpoint worker_wait (world : nat -> answers) (n : nat) (r : Z)
    (tr : list weffect) (taken : list wdev) (script : list wakeup) : wrun :=
  match script with
  | [] => {| w_trace := tr; w_taken := taken; w_exit := WBlocked |}
  | EpollFailed errno :: rest =>
    if errno =? EINTR then worker_wait world n r tr taken rest
    else worker_exit tr taken (log_error_errno errno)
  | EpollReady evs :: rest =>
    match scan_events evs with
    | ScanDevice (Some dev) =>
      if a_event_new (world n) then
        let (effs, r) := worker_handle_device dev (world n) in
        worker_wait world (S n) r (tr ++ effs) (taken ++ [dev]) rest
      else worker_exit tr (taken ++ [dev]) (- ENOMEM)
    | ScanDevice None | ScanEnd => worker_wait world n r tr taken rest
    | ScanTerm => worker_exit tr taken r
    end
  end.

(** What the calls before the loop return. *)
Record wsetup := {
  s_signalfd : Z;          (* signalfd() *)
  s_epoll_create : Z;      (* epoll_create1() *)
  s_epoll_ctl_signal : Z;  (* epoll_ctl(fd_ep, EPOLL_CTL_ADD, fd_signal, ...) *)
  s_epoll_ctl_monitor : Z; (* epoll_ctl(fd_ep, EPOLL_CTL_ADD, fd_monitor, ...) *)
  s_errno : Z;             (* errno after the call that failed *)
}.

(** The child from the creation of its descriptors on; [dev] is the device
    of the event it was forked for, which it has taken from the event
    ([TAKE_PTR]) before it creates them. *)
Definition worker_main (world : nat -> answers) (s : wsetup) (dev : wdev)
    (script : list wakeup) : wrun :=
  if s_signalfd s <? 0 then worker_exit [] [dev] (log_error_errno (s_errno s))
  else if s_epoll_create s <? 0 then worker_exit [] [dev] (log_error_errno (s_errno s))
  else if (s_epoll_ctl_signal s <? 0) || (s_epoll_ctl_monitor s <? 0) then
    worker_exit [] [dev] (log_error_errno (s_errno s))
  else if a_event_new (world O) then
    let (effs, r) := worker_handle_device dev (world O) in
    worker_wait world 1 r effs [dev] script
  else worker_exit [] [dev] (- ENOMEM).

(** ** [synthesize_change]: a change event for a device node that was closed *)

(** What a getter of sd-device returns: a negative value, or 0 with the
    string. *)
Inductive got (A : Type) :=
  | Failed (r : Z)
  | Got (x : A).
Arguments Failed {A} r.
Arguments Got {A} x.

Record sd_device := {
  sd_subsystem : got string;   (* sd_device_get_subsystem() *)
  sd_sysname : got string;     (* sd_device_get_sysname() *)
  sd_devname : got string;     (* sd_device_get_devname() *)
  sd_syspath : got string;     (* sd_device_get_syspath() *)
  sd_devtype : got string;     (* sd_device_get_devtype() *)
}.

Inductive seffect :=
  | SOpen (devname : string)   (* open(devname, O_RDONLY|O_CLOEXEC|O_NOFOLLOW|O_NONBLOCK) *)
  | SFlock                     (* flock(fd, LOCK_EX|LOCK_NB) *)
  | SIoctl                     (* ioctl(fd, BLKRRPART, 0) *)
  | SClose                     (* close(fd) *)
  | SWrite (filename content : string).
      (* write_string_file(filename, content, WRITE_STRING_FILE_DISABLE_BUFFER) *)

(** What the outside world answers in the branch for whole disks;
    [da_children] are the devices that [FOREACH_DEVICE] yields, both times. *)
Record disk_answers := {
  da_open : Z;
  da_flock : Z;
  da_ioctl : Z;
  da_enumerator_new : Z;
  da_allow_uninitialized : Z;
  da_add_match_parent : Z;
  da_add_match_subsystem : Z;
  da_children : list sd_device;
}.

Definition PATH_MAX : nat := 4096.

(** [strscpyl(dest, size, src, ..., NULL)] of strxcpyx.h, which is not among
    the sources: the sources one after the other, cut to [size - 1] bytes. *)
Definition strscpyl (size : nat) (srcs : list string) : string :=
  String.substring 0 (size - 1) (String.concat "" srcs).

Definition uevent_file (syspath : string) : string :=
  strscpyl PATH_MAX [syspath; "/uevent"%string].

(** [sd_device_get_devtype(d, &t) < 0 || !streq("partition", t)], negated. *)
Definition is_partition (d : sd_device) : bool :=
  match sd_devtype d with
  | Failed _ => false
  | Got t => streq "partition" t
  end.

(** The first [FOREACH_DEVICE]: the value of [has_partitions] after it. *)
Fixpoint has_partitions_loop (ds : list sd_device) : bool :=
  match ds with
  | [] => false
  | d :: rest => if negb (is_partition d) then has_partitions_loop rest else true
  end.

(** The second [FOREACH_DEVICE]. *)
Fixpoint partition_writes (ds : list sd_device) : list seffect :=
  match ds with
  | [] => []
  | d :: rest =>
    if negb (is_partition d) then partition_writes rest
    else
      match sd_devname d, sd_syspath d with
      | Got n, Got s => SWrite (uevent_file s) "change" :: partition_writes rest
      | _, _ => partition_writes rest
      end
  end.

(** The value returned and the effects in their order. *)
Definition synthesize_change (dev : sd_device) (o : disk_answers) : Z * list seffect :=
  match sd_subsystem dev with
  | Failed r => (r, [])
  | Got subsystem =>
  match sd_sysname dev with
  | Failed r => (r, [])
  | Got sysname =>
  match sd_devname dev with
  | Failed r => (r, [])
  | Got devname =>
  match sd_syspath dev with
  | Failed r => (r, [])
  | Got syspath =>
  match sd_devtype dev with
  | Failed r => (r, [])
  | Got devtype =>
    if streq "block" subsystem && streq "disk" devtype && negb (startswith sysname "dm-") then
      let '(part_table_read, effs) :=
        if da_open o >=? 0 then
          let '(r, locked) :=
            if da_flock o >=? 0 then (da_ioctl o, [SFlock; SIoctl])
            else (da_flock o, [SFlock]) in
          (r >=? 0, [SOpen devname] ++ locked ++ [SClose])
        else (false, [SOpen devname]) in
      if da_enumerator_new o <? 0 then (da_enumerator_new o, effs)
      else if da_allow_uninitialized o <? 0 then (da_allow_uninitialized o, effs)
      else if da_add_match_parent o <? 0 then (da_add_match_parent o, effs)
      else if da_add_match_subsystem o <? 0 then (da_add_match_subsystem o, effs)
      else
        let has_partitions := has_partitions_loop (da_children o) in
        if part_table_read && has_partitions then (0, effs)
        else
          (0, effs ++ [SWrite (uevent_file syspath) "change"]
                   ++ partition_writes (da_children o))
    else (0, [SWrite (uevent_file syspath) "change"])
  end end end end end.

(** ** [manager_free] *)

(** [HASHMAP_FOREACH] over the workers, each looked at when its turn comes,
    then [hashmap_free]. *)
Definition manager_workers_free (m : Manager) : Manager :=
  let m := fold_left
             (fun m pid =>
                match hashmap_get (workers m) pid with
                | Some w => worker_free m w
                | None => m
                end)
             (List.map wk_pid (workers m)) m in
  set_workers m [].

(** What [manager_free] does to the pool and the queue. *)
Definition manager_free (m : Manager) : Manager :=
  event_queue_cleanup (manager_workers_free m) EVENT_UNDEF.


(** * Specification-level definitions *)

(** ** The busy predicate as the specification words it *)

Inductive verdict :=
  | VContinue      (* go on with the next event of the queue *)
  | VBusy          (* return busy *)
  | VBusyCache     (* cache [other.seqnum] in [e.delaying_seqnum], return busy *)
  | VBreak.        (* leave the loop: not busy *)

Definition bytes (s : string) : list ascii := list_ascii_of_string s.

(** "[e] is a device-identity event (has devnum or ifindex)" *)
Definition has_device_identity (e : event) : Prop :=
  major (ev_devnum e) <> 0 \/ 0 < ev_ifindex e.

(** Steps 4 to 7: what [other], an earlier event, means for [e]. *)
Definition spec_conflict (e other : event) : verdict :=
  if decide (major (ev_devnum e) <> 0 /\ ev_devnum e = ev_devnum other
             /\ ev_is_block e = ev_is_block other) then VBusy
  else if decide (0 < ev_ifindex e /\ ev_ifindex e = ev_ifindex other) then VBusy
  else if decide (ev_devpath_old e = Some (ev_devpath other)) then VBusyCache
  else
    let common := Nat.min (String.length (ev_devpath e))
                          (String.length (ev_devpath other)) in
    if decide (take common (bytes (ev_devpath e))
               <> take common (bytes (ev_devpath other))) then VContinue
    else if decide (String.length (ev_devpath e) = String.length (ev_devpath other)) then
      if decide (has_device_identity e) then VContinue else VBusyCache
    else if decide (bytes (ev_devpath e) !! common = Some "/"%char) then VBusyCache
    else if decide (bytes (ev_devpath other) !! common = Some "/"%char) then VBusyCache
    else VContinue.

(** Steps 1 to 3, then 4 to 7. *)
Definition spec_examine (e other : event) : verdict :=
  if decide (ev_seqnum other < ev_delaying_seqnum e) then VContinue
  else if decide (ev_seqnum other = ev_delaying_seqnum e) then VBusy
  else if decide (ev_seqnum e <= ev_seqnum other) then VBreak
  else spec_conflict e other.

(** The reference algorithm over the queue in insertion order: the answer
    and the value of [e.delaying_seqnum] afterwards. *)
Fixpoint spec_is_busy (queue : list event) (e : event) : bool * Z :=
  match queue with
  | [] => (false, ev_delaying_seqnum e)
  | other :: rest =>
    match spec_examine e other with
    | VContinue => spec_is_busy rest e
    | VBusy => (true, ev_delaying_seqnum e)
    | VBusyCache => (true, ev_seqnum other)
    | VBreak => (false, ev_delaying_seqnum e)
    end
  end.

(** [event_queue_insert] keeps the length next to the path. *)
Definition devpath_len_ok (e : event) : Prop :=
  ev_devpath_len e = strlen (ev_devpath e).

(** ** Invariants of the queue *)

(** [e] has to wait for the earlier event [other]. *)
Definition depends_on (e other : event) : Prop := spec_conflict e other <> VContinue.

(** The queue with the allocator's next address. *)
Definition qstate : Type := nat * list event.

Definition qview (m : Manager) : qstate := (next_addr m, events m).

Definition queue_sorted (q : list event) : Prop :=
  StronglySorted (fun a b => ev_seqnum a < ev_seqnum b) q.

(** What holds of an event [e] of the queue [q]: the cached blocker lies
    below the event's own number, nothing below the cached blocker has to be
    looked at again, and the event has not been started while an earlier
    event it depends on is in the queue. *)
Definition event_ok (q : list event) (e : event) : Prop :=
  devpath_len_ok e /\
  0 <= ev_delaying_seqnum e <= ev_seqnum e /\
  (forall x, In x q -> ev_seqnum x < ev_delaying_seqnum e -> ~ depends_on e x) /\
  (forall x, In x q -> ev_seqnum x < ev_seqnum e -> depends_on e x ->
             ev_state e = EVENT_QUEUED).

Definition queue_inv (s : qstate) : Prop :=
  queue_sorted (snd s) /\
  List.NoDup (List.map ev_addr (snd s)) /\
  Forall (fun e => (ev_addr e < fst s)%nat) (snd s) /\
  Forall (event_ok (snd s)) (snd s).

(** The fields of an event that never change. *)
Definition same_key (e e' : event) : Prop :=
  ev_addr e' = ev_addr e /\ ev_seqnum e' = ev_seqnum e /\
  ev_devpath e' = ev_devpath e /\ ev_devpath_len e' = ev_devpath_len e /\
  ev_devpath_old e' = ev_devpath_old e /\ ev_devnum e' = ev_devnum e /\
  ev_ifindex e' = ev_ifindex e /\ ev_is_block e' = ev_is_block e.

(** What the manager does to its queue. *)
Inductive queue_step : qstate -> qstate -> Prop :=
  | qs_refl s : queue_step s s
  | qs_trans s1 s2 s3 : queue_step s1 s2 -> queue_step s2 s3 -> queue_step s1 s3
  | qs_insert n q e :
      ev_addr e = n -> ev_state e = EVENT_QUEUED -> ev_delaying_seqnum e = 0 ->
      0 <= ev_seqnum e -> devpath_len_ok e ->
      Forall (fun x => ev_seqnum x < ev_seqnum e) q ->
      queue_step (n, q) (S n, q ++ [e])
  | qs_remove n q a : queue_step (n, q) (n, remove_event a q)
  | qs_busy n q a :
      queue_step (n, q)
        (n, update_event a (fun e => snd (is_devpath_busy_loop q e)) q)
  | qs_attach n q e pid warn kill :
      In e q -> fst (is_devpath_busy_loop q e) = false ->
      queue_step (n, q)
        (n, update_event (ev_addr e) (fun e => attach_to_worker e pid warn kill) q)
  | qs_requeue n q a :
      queue_step (n, q)
        (n, update_event a (fun e => set_event_state e EVENT_QUEUED) q).

(** An event that is in the queue before and after is the same event, with
    a cached blocker that has not decreased. *)
Definition evolves (s s' : qstate) : Prop :=
  (fst s <= fst s')%nat /\
  forall e', In e' (snd s') -> (ev_addr e' < fst s)%nat ->
    exists e, In e (snd s) /\ same_key e e' /\
              ev_delaying_seqnum e <= ev_delaying_seqnum e'.

(** ** Invariants of the pool *)

(** The references between workers and events: pids are the keys of the
    hashmap, the event a worker points to is in the queue and points back,
    and an event that points to a worker is running. *)
Definition pool_links (ws : list worker) (q : list event) : Prop :=
  List.NoDup (List.map wk_pid ws) /\
  (forall w a, In w ws -> wk_event w = Some a ->
     exists e, In e q /\ ev_addr e = a /\ ev_worker e = Some (wk_pid w)) /\
  (forall e pid, In e q -> ev_worker e = Some pid -> ev_state e = EVENT_RUNNING).

(** State and attachment of a worker. *)
Definition worker_ok (w : worker) : Prop :=
  (wk_state w = WORKER_IDLE -> wk_event w = None) /\
  (wk_state w = WORKER_RUNNING -> wk_event w <> None) /\
  wk_state w <> WORKER_UNDEF.

Definition pool_inv (m : Manager) : Prop :=
  pool_links (workers m) (events m) /\ Forall worker_ok (workers m).

Definition manager_inv (m : Manager) : Prop := queue_inv (qview m) /\ pool_inv m.

(** The manager went from [m] to [m'] by steps of the queue and [m'] is
    consistent. *)
Definition advances (m m' : Manager) : Prop :=
  queue_step (qview m) (qview m') /\ manager_inv m'.

(** ** The ordering the specification asks for *)







(** ** Scenarios *)

(** An outside world in which every send and every fork succeeds; the child
    forked for the event at address [a] gets the pid [100 + a]. *)
Definition calm : env :=
  {| env_now := 1000; env_config_changed := false; env_rules_new := true;
     env_send := fun _ _ => true;
     env_spawn := fun a => SpawnChild (100 + Z.of_nat a) |}.

Definition manager0 : Manager := manager_new false 10 default_event_timeout_usec.

Definition eth0_path : string := "/devices/pci0000:00/0000:00:03.0/net/eth0".

(** The interface eth0 goes away and a new interface gets the name. *)
Definition eth0_removed : udev_device :=
  {| dev_seqnum := 10; dev_devpath := eth0_path; dev_devpath_old := None;
     dev_devnum := 0; dev_ifindex := 2; dev_subsystem := "net" |}.

Definition eth0_added : udev_device :=
  {| dev_seqnum := 11; dev_devpath := eth0_path; dev_devpath_old := None;
     dev_devnum := 0; dev_ifindex := 3; dev_subsystem := "net" |}.

Definition eth0_swapped : Manager :=
  dispatch calm (dispatch calm manager0 (InUevent eth0_removed)) (InUevent eth0_added).

(** An interface and one of its receive queues. *)
Definition eth0_rx0 : udev_device :=
  {| dev_seqnum := 11; dev_devpath := (eth0_path ++ "/queues/rx-0")%string;
     dev_devpath_old := None;
     dev_devnum := 0; dev_ifindex := 0; dev_subsystem := "net" |}.

Definition eth0_with_queue : Manager :=
  dispatch calm (dispatch calm manager0 (InUevent eth0_removed)) (InUevent eth0_rx0).


(** The event of a single uevent runs into its kill timer. *)
Definition eth0_timed_out : Manager :=
  dispatch calm (dispatch calm manager0 (InUevent eth0_removed)) (InEventTimeout 0).

Definition nth_event (m : Manager) (n : nat) : option event := List.nth_error (events m) n.

(** A control message that carries nothing but [set-env str]. *)
Definition set_env_msg (str : string) : udev_ctrl_msg :=
  {| ctrl_set_log_level := -1; ctrl_stop_exec_queue := 0; ctrl_start_exec_queue := 0;
     ctrl_reload := 0; ctrl_set_env := Some str; ctrl_set_children_max := -1;
     ctrl_ping := 0; ctrl_exit := 0 |}.

Definition killed (w : worker) : Prop := wk_state w = WORKER_KILLED.

(** ** Start-up *)

(** The default of children_max as the specification writes it. *)
Definition claimed_children_max (cpu_count physical_memory : Z) : Z :=
  Z.min (Z.max 10 (8 + 8 * cpu_count)) (physical_memory / (128 * 2 ^ 20)).

(** The kinds of descriptors [listen_fds] tells apart. *)
Definition is_ctrl_fd (d : fd_info) : bool := sd_is_socket d AF_LOCAL SOCK_SEQPACKET >? 0.

Definition is_netlink_fd (d : fd_info) : bool := sd_is_socket d AF_NETLINK SOCK_RAW >? 0.

Definition is_other_fd (d : fd_info) : bool := negb (is_ctrl_fd d) && negb (is_netlink_fd d).

(** How many of the [count] descriptors from [fd] on are of a kind. *)
Fixpoint count_fds (kind : fd_info -> bool) (table : Z -> fd_info) (count : nat) (fd : Z)
  : nat :=
  match count with
  | O => O
  | S count' => (if kind (table fd) then 1 else 0) + count_fds kind table count' (fd + 1)
  end.

(** How many of the [n] descriptors handed in are of a kind. *)
Definition passed (kind : fd_info -> bool) (n : Z) (table : Z -> fd_info) : nat :=
  count_fds kind table (Z.to_nat n) SD_LISTEN_FDS_START.

Definition netlink_socket : fd_info :=
  {| fd_is_socket := true; fd_family := AF_NETLINK; fd_type := SOCK_RAW |}.

(** A manager with room for one worker, whose only worker was killed by the
    timer of its event and has not been reaped, and a new event for another
    device in the queue. *)
Definition sda_added : udev_device :=
  {| dev_seqnum := 12; dev_devpath := "/devices/pci0000:00/0000:00:1f.2/block/sda";
     dev_devpath_old := None; dev_devnum := makedev 8 0; dev_ifindex := 0;
     dev_subsystem := "block" |}.

Definition one_killed_worker : Manager :=
  event_queue_insert
    (dispatch calm
       (dispatch calm (manager_new false 1 default_event_timeout_usec)
          (InUevent eth0_removed))
       (InEventTimeout 0))
    sda_added.

(** ** Further invariants of the queue and the pool *)

(** The state, the worker and the timers of an event go together. *)
Definition event_shape (e : event) : Prop :=
  (ev_state e = EVENT_QUEUED \/ ev_state e = EVENT_RUNNING) /\
  (ev_state e = EVENT_RUNNING -> ev_worker e <> None) /\
  (ev_worker e <> None <-> ev_timeout e <> None) /\
  (ev_timeout e <> None <-> ev_timeout_warning e <> None).

(** The keys of an event are those of the device it was built from. *)
Definition cached_from_device (e : event) : Prop :=
  ev_dev_kernel e = udev_device_shallow_clone (ev_dev e) /\
  ev_seqnum e = dev_seqnum (ev_dev e) /\
  ev_devpath e = dev_devpath (ev_dev e) /\
  ev_devpath_len e = strlen (dev_devpath (ev_dev e)) /\
  ev_devpath_old e = dev_devpath_old (ev_dev e) /\
  ev_devnum e = dev_devnum (ev_dev e) /\
  ev_ifindex e = dev_ifindex (ev_dev e) /\
  ev_is_block e = streq "block" (dev_subsystem (ev_dev e)).

Definition event_wf (e : event) : Prop := event_shape e /\ cached_from_device e.

(** The cached blocker of [e] lies strictly below the number of [e] once it
    is set, and the event of the queue that carries it is one [e] has to wait
    for. *)
Definition blocker_ok (q : list event) (e : event) : Prop :=
  (ev_delaying_seqnum e = 0 \/ ev_delaying_seqnum e < ev_seqnum e) /\
  forall x, In x q -> ev_seqnum x = ev_delaying_seqnum e ->
            0 < ev_delaying_seqnum e -> depends_on e x.

(** An event that points to a worker is the event that worker of the pool
    points to. *)
Definition worker_of_event_attached (m : Manager) : Prop :=
  forall e pid, In e (events m) -> ev_worker e = Some pid ->
    exists w, In w (workers m) /\ wk_pid w = pid /\ wk_event w = Some (ev_addr e).

Definition is_marker (x : effect) : bool :=
  match x with
  | TouchQueue | UnlinkQueue => true
  | _ => false
  end.

(** Whether /run/udev/queue exists after the effects of a trace (most
    recent first), the file being absent at the start. *)
Fixpoint marker_exists (tr : list effect) : bool :=
  match tr with
  | [] => false
  | TouchQueue :: _ => true
  | UnlinkQueue :: _ => false
  | _ :: rest => marker_exists rest
  end.

(** The marker file is there exactly while the queue holds an event. *)
Definition marker_ok (m : Manager) : Prop :=
  marker_exists (trace m) = negb (LIST_IS_EMPTY (events m)).

(** What the callbacks are made of.  The flag tells whether workers may be
    reaped on the way. *)
Inductive mgr_step : bool -> Manager -> Manager -> Prop :=
  | ms_refl b m : mgr_step b m m
  | ms_trans b m1 m2 m3 : mgr_step b m1 m2 -> mgr_step b m2 m3 -> mgr_step b m1 m3
  | ms_frame b m m' :
      workers m' = workers m -> events m' = events m ->
      next_addr m' = next_addr m -> trace m' = trace m -> mgr_step b m m'
  | ms_emit b m x : is_marker x = false -> mgr_step b m (emit m x)
  | ms_insert b m dev : manager_inv m -> mgr_step b m (event_queue_insert m dev)
  | ms_event_free b m a :
      manager_inv m ->
      (forall ev, find_event a (events m) = Some ev -> ev_worker ev = None) ->
      mgr_step b m (event_free m (Some a))
  | ms_worker_message b m pid :
      manager_inv m -> mgr_step b m (on_worker_message m pid)
  | ms_worker_free m w :
      manager_inv m -> In w (workers m) -> mgr_step true m (worker_free m w)
  | ms_kill b m pid :
      manager_inv m ->
      mgr_step b m
        (set_workers m (update_worker pid (set_wk_state WORKER_KILLED) (workers m)))
  | ms_busy b m ev : manager_inv m -> mgr_step b m (snd (is_devpath_busy m ev))
  | ms_attach b usec m w e :
      manager_inv m -> In w (workers m) -> wk_state w = WORKER_IDLE ->
      In e (events m) -> ev_state e = EVENT_QUEUED ->
      mgr_step b m (worker_attach_event usec m (wk_pid w) (ev_addr e))
  | ms_spawn b v m e :
      manager_inv m -> In e (events m) -> ev_state e = EVENT_QUEUED ->
      mgr_step b m (worker_spawn v m (ev_addr e)).

(** The steps during which no worker answers and none is reaped: all that
    a callback does besides [on_worker_message] and [worker_free]. *)
Inductive quiet_step : Manager -> Manager -> Prop :=
  | quiet_refl m : quiet_step m m
  | quiet_trans m1 m2 m3 : quiet_step m1 m2 -> quiet_step m2 m3 -> quiet_step m1 m3
  | quiet_frame m m' :
      workers m' = workers m -> events m' = events m ->
      next_addr m' = next_addr m -> trace m' = trace m -> quiet_step m m'
  | quiet_emit m x : is_marker x = false -> quiet_step m (emit m x)
  | quiet_insert m dev : manager_inv m -> quiet_step m (event_queue_insert m dev)
  | quiet_event_free m a :
      manager_inv m ->
      (forall ev, find_event a (events m) = Some ev -> ev_worker ev = None) ->
      quiet_step m (event_free m (Some a))
  | quiet_kill m pid :
      manager_inv m ->
      quiet_step m
        (set_workers m (update_worker pid (set_wk_state WORKER_KILLED) (workers m)))
  | quiet_busy m ev : manager_inv m -> quiet_step m (snd (is_devpath_busy m ev))
  | quiet_attach usec m w e :
      manager_inv m -> In w (workers m) -> wk_state w = WORKER_IDLE ->
      In e (events m) -> ev_state e = EVENT_QUEUED ->
      quiet_step m (worker_attach_event usec m (wk_pid w) (ev_addr e))
  | quiet_spawn v m e :
      manager_inv m -> In e (events m) -> ev_state e = EVENT_QUEUED ->
      quiet_step m (worker_spawn v m (ev_addr e)).

(** The worker [pid] has the event at [a] attached, and is killed if
    [dead]. *)
Definition holds_event (pid : Z) (a : nat) (dead : bool) (m : Manager) : Prop :=
  exists w, In w (workers m) /\ wk_pid w = pid /\ wk_event w = Some a /\
            (dead = true -> wk_state w = WORKER_KILLED).

(** The callback brings no message of the worker [pid] and no result of
    [waitpid] for it. *)
Definition spares (pid : Z) (i : input) : Prop :=
  match i with
  | InWorker pids _ => ~ In pid pids
  | InSigchld children => ~ In pid (List.map fst children)
  | _ => True
  end.

(** The worker [w] is still in the pool of [m'], and still killed if it was. *)
Definition worker_kept (w : worker) (m' : Manager) : Prop :=
  exists w', In w' (workers m') /\ wk_pid w' = wk_pid w /\
             (wk_state w = WORKER_KILLED -> wk_state w' = WORKER_KILLED).

Definition pool_kept (m m' : Manager) : Prop :=
  forall w, In w (workers m) -> worker_kept w m'.

(** The workers that [manager_kill_workers] signals: those not yet killed. *)
Definition not_killed (w : worker) : bool := negb (worker_state_eqb (wk_state w) WORKER_KILLED).

(** The events that [event_queue_cleanup] leaves in the queue. *)
Definition survives_cleanup (match_type : event_state) (e : event) : bool :=
  negb (event_state_eqb match_type EVENT_UNDEF)
  && negb (event_state_eqb match_type (ev_state e)).

(** The settings that scheduling leaves alone. *)
Definition same_settings (m m' : Manager) : Prop :=
  has_cgroup m' = has_cgroup m /\ properties m' = properties m /\ exit m' = exit m /\
  arg_children_max m' = arg_children_max m /\
  arg_event_timeout_usec m' = arg_event_timeout_usec m /\
  stop_exec_queue m' = stop_exec_queue m /\
  exit_timeout m' = exit_timeout m /\ exit_code m' = exit_code m.


(** [on_ctrl_msg] returns early, before it looks at the rest of the
    message, when the message sets a variable without a '='. *)
Definition ctrl_complete (msg : udev_ctrl_msg) : bool :=
  match ctrl_set_env msg with
  | Some str => match strchr_eq str with Some _ => true | None => false end
  | None => true
  end.

(** The callbacks that call [manager_exit]. *)
Definition exits (i : input) : bool :=
  match i with
  | InSigterm => true
  | InCtrl msg => ctrl_complete msg && (ctrl_exit msg >? 0)
  | _ => false
  end.

(** The value of children_max after a callback. *)
Definition children_max_after (m : Manager) (i : input) : Z :=
  match i with
  | InCtrl msg =>
    if ctrl_complete msg && (ctrl_set_children_max msg >=? 0)
    then ctrl_set_children_max msg else arg_children_max m
  | _ => arg_children_max m
  end.

(** The callbacks that may change the properties handed to the workers. *)
Definition sets_env (i : input) : bool :=
  match i with
  | InCtrl msg => match ctrl_set_env msg with Some _ => true | None => false end
  | _ => false
  end.

(** The pool of [m'] is no larger than the larger of the pool of [m] and [c]. *)
Definition capped (c : Z) (m m' : Manager) : Prop :=
  hashmap_size (workers m') <= Z.max (hashmap_size (workers m)) c.

(** Every worker has been killed and every event of the queue is running. *)
Definition shut_down (m : Manager) : Prop :=
  Forall killed (workers m) /\ Forall (fun e => ev_state e = EVENT_RUNNING) (events m).

(** The worker [w] is idle and takes the device of [ev] when it is sent. *)
Definition accepts (v : env) (ev : event) (w : worker) : bool :=
  worker_state_eqb (wk_state w) WORKER_IDLE && env_send v (wk_pid w) (ev_addr ev).

(** An outside world in which no worker takes a device and no fork succeeds. *)
Definition stubborn : env :=
  {| env_now := 1000; env_config_changed := false; env_rules_new := true;
     env_send := fun _ _ => false; env_spawn := fun _ => SpawnForkFailed |}.

(** Nothing is queued, no worker is left, and the shutdown has begun. *)
Definition drained (m : Manager) : Prop :=
  exit m = true /\ events m = [] /\ workers m = [].

(** ** The worker process *)

Definition is_message (x : weffect) : bool :=
  match x with WMessage => true | _ => false end.

Definition is_publish (x : weffect) : bool :=
  match x with WPublish _ => true | _ => false end.

Definition is_exec_rules (x : weffect) : bool :=
  match x with WExecRules _ => true | _ => false end.

(** How many effects of a kind a trace holds. *)
Definition count_effects (kind : weffect -> bool) (tr : list weffect) : nat :=
  length (List.filter kind tr).

(** The descriptor of the lock is open from [flock] to [safe_close]; it is
    not open when the device is published or the message is sent, nor at the
    end of the trace.  [held] tells whether it is open at the start. *)
Fixpoint lock_released (held : bool) (tr : list weffect) : bool :=
  match tr with
  | [] => negb held
  | WFlock :: rest => negb held && lock_released true rest
  | WCloseLock :: rest => held && lock_released false rest
  | WPublish _ :: rest | WMessage :: rest => negb held && lock_released held rest
  | _ :: rest => lock_released held rest
  end.

(** The descriptors of the worker could be set up. *)
Definition setup_ok (s : wsetup) : bool :=
  negb (s_signalfd s <? 0) && negb (s_epoll_create s <? 0)
  && negb (s_epoll_ctl_signal s <? 0) && negb (s_epoll_ctl_monitor s <? 0).

(** A wake-up that neither fails nor brings SIGTERM. *)
Definition calm_wakeup (w : wakeup) : bool :=
  match w with
  | EpollFailed errno => errno =? EINTR
  | EpollReady evs =>
    match scan_events evs with
    | ScanTerm => false
    | _ => true
    end
  end.

(** ** Synthesized change events *)

(** The files written, in their order. *)
Definition files_written (effs : list seffect) : list string :=
  flat_map (fun x => match x with SWrite f _ => [f] | _ => [] end) effs.

(** The syspaths of the children that are partitions and have a device
    name and a syspath. *)
Definition named_partitions (ds : list sd_device) : list string :=
  flat_map (fun d => if is_partition d
                     then match sd_devname d, sd_syspath d with
                          | Got _, Got s => [s]
                          | _, _ => []
                          end
                     else []) ds.

(** The first negative value among the results of the four calls that set
    up the enumerator, if there is one. *)
Definition enumerator_error (o : disk_answers) : option Z :=
  if da_enumerator_new o <? 0 then Some (da_enumerator_new o)
  else if da_allow_uninitialized o <? 0 then Some (da_allow_uninitialized o)
  else if da_add_match_parent o <? 0 then Some (da_add_match_parent o)
  else if da_add_match_subsystem o <? 0 then Some (da_add_match_subsystem o)
  else None.

Definition writes_change (x : seffect) : Prop :=
  match x with
  | SWrite _ content => content = "change"%string
  | _ => True
  end.

(** Whether a callback reaps workers. *)
Definition reaps (i : input) : bool :=
  match i with
  | InSigchld _ => true
  | _ => false
  end.

(** * Properties *)

(** ** C strings *)


Lemma c_char_slash s i :
  Ascii.eqb (c_char s i) "/"%char = bool_decide (bytes s !! i = Some "/"%char).
Proof.
  unfold c_char. revert i. induction s as [|c s IH]; intros i.
  - by destruct i.
  - destruct i as [|i]; simpl.
    + destruct (Ascii.eqb_spec c "/"%char) as [->|Hne].
      * by rewrite bool_decide_eq_true_2.
      * rewrite bool_decide_eq_false_2; [done | congruence].
    + apply IH.
Qed.

Lemma memcmp_eq_take a b n :
  (n <= String.length a)%nat -> (n <= String.length b)%nat ->
  memcmp_eq a b n = bool_decide (take n (bytes a) = take n (bytes b)).
Proof.
  revert a b. induction n as [|n IH]; intros a b Ha Hb.
  - reflexivity.
  - destruct a as [|x a]; [simpl in Ha; lia |].
    destruct b as [|y b]; [simpl in Hb; lia |].
    simpl in Ha, Hb. cbn [memcmp_eq bytes list_ascii_of_string take].
    fold (bytes a) (bytes b). rewrite IH by lia.
    destruct (Ascii.eqb_spec x y) as [->|Hne]; simpl.
    + apply bool_decide_ext. split; [congruence | by intros [= ->]].
    + rewrite bool_decide_eq_false_2; [done | congruence].
Qed.

Lemma streq_decide a b : streq a b = bool_decide (a = b).
Proof.
  unfold streq. destruct (String.eqb_spec a b).
  - by rewrite bool_decide_eq_true_2.
  - by rewrite bool_decide_eq_false_2.
Qed.

(** ** The busy predicate computes the reference algorithm *)

Lemma set_delaying_seqnum_same e : set_delaying_seqnum e (ev_delaying_seqnum e) = e.
Proof. by destruct e. Qed.

Lemma ltb_decide a b : (a <? b) = bool_decide (a < b).
Proof. destruct (Z.ltb_spec a b); [by rewrite bool_decide_eq_true_2 | rewrite bool_decide_eq_false_2; [done|lia]]. Qed.
Lemma gtb_decide a b : (a >? b) = bool_decide (b < a).
Proof. rewrite Z.gtb_ltb. apply ltb_decide. Qed.
Lemma geb_decide a b : (a >=? b) = bool_decide (b <= a).
Proof. rewrite Z.geb_leb. destruct (Z.leb_spec b a); [by rewrite bool_decide_eq_true_2 | rewrite bool_decide_eq_false_2; [done|lia]]. Qed.
Lemma eqb_decide a b : (a =? b) = bool_decide (a = b).
Proof. destruct (Z.eqb_spec a b); [by rewrite bool_decide_eq_true_2 | by rewrite bool_decide_eq_false_2]. Qed.
Lemma nat_eqb_decide (a b : nat) : Nat.eqb a b = bool_decide (a = b).
Proof. destruct (Nat.eqb_spec a b); [by rewrite bool_decide_eq_true_2 | by rewrite bool_decide_eq_false_2]. Qed.
Lemma bool_eqb_decide (a b : bool) : Bool.eqb a b = bool_decide (a = b).
Proof. by destruct a, b. Qed.

(** Case analysis on the test the code performs next. *)
Ltac head_decide :=
  match goal with
  | |- (if ?c then _ else _) = _ =>
    match c with
    | context [decide_rel ?R ?a ?b] => destruct (decide_rel R a b);
      cbn [negb andb orb and_dec or_dec not_dec decide decide_rel]
    end
  end.

Lemma is_devpath_busy_loop_cons x rest e :
  devpath_len_ok e -> devpath_len_ok x ->
  is_devpath_busy_loop (x :: rest) e =
  match spec_examine e x with
  | VContinue => is_devpath_busy_loop rest e
  | VBusy => (true, e)
  | VBusyCache => (true, set_delaying_seqnum e (ev_seqnum x))
  | VBreak => (false, e)
  end.
Proof.
  unfold devpath_len_ok, strlen. intros He Hx.
  cbn [is_devpath_busy_loop]. unfold spec_examine, spec_conflict, has_device_identity.
  rewrite He, Hx.
  rewrite (Nat.min_comm (String.length (ev_devpath x))).
  rewrite memcmp_eq_take by lia.
  rewrite !c_char_slash, !ltb_decide, !gtb_decide, !geb_decide, !eqb_decide,
    nat_eqb_decide, bool_eqb_decide.
  set (common := Nat.min _ _).
  replace (match ev_devpath_old e with Some old => streq (ev_devpath x) old | None => false end)
    with (bool_decide (ev_devpath_old e = Some (ev_devpath x))).
  2:{ destruct (ev_devpath_old e) as [old|]; [|done]. rewrite streq_decide.
      apply bool_decide_ext. split; [by intros [= ->] | by intros ->]. }
  rewrite (bool_decide_ext (take common (bytes (ev_devpath x)) = _)
             (take common (bytes (ev_devpath e)) = take common (bytes (ev_devpath x))))
    by (split; congruence).
  rewrite (bool_decide_ext (String.length (ev_devpath x) = _)
             (String.length (ev_devpath e) = String.length (ev_devpath x)))
    by (split; congruence).
  unfold bool_decide.
  repeat (head_decide; try reflexivity).
Qed.

Lemma is_devpath_busy_loop_spec queue e :
  devpath_len_ok e -> Forall devpath_len_ok queue ->
  is_devpath_busy_loop queue e =
  (fst (spec_is_busy queue e), set_delaying_seqnum e (snd (spec_is_busy queue e))).
Proof.
  intros He Hq. induction Hq as [|x rest Hx Hrest IH].
  - simpl. by rewrite set_delaying_seqnum_same.
  - rewrite is_devpath_busy_loop_cons by done.
    cbn [spec_is_busy]. destruct (spec_examine e x); simpl; try done.
    all: by rewrite set_delaying_seqnum_same.
Qed.

(** ** The queue invariant *)

Lemma spec_conflict_same_key e e' x x' :
  same_key e e' -> same_key x x' -> spec_conflict e' x' = spec_conflict e x.
Proof.
  intros (_ & _ & Hp & _ & Ho & Hn & Hi & Hb) (_ & _ & Hp' & _ & _ & Hn' & Hi' & Hb').
  unfold spec_conflict, has_device_identity.
  by rewrite Hp, Ho, Hn, Hi, Hb, Hp', Hn', Hi', Hb'.
Qed.

Lemma depends_on_same_key e e' x x' :
  same_key e e' -> same_key x x' -> depends_on e' x' <-> depends_on e x.
Proof. intros He Hx. unfold depends_on. by rewrite (spec_conflict_same_key e e' x x'). Qed.

Lemma same_key_refl e : same_key e e.
Proof. by repeat split. Qed.

Lemma spec_conflict_not_break e x : spec_conflict e x <> VBreak.
Proof. unfold spec_conflict. repeat case_decide; done. Qed.

Lemma spec_is_busy_sound q e :
  queue_sorted q ->
  (forall x, In x q -> ev_seqnum x < ev_delaying_seqnum e -> ~ depends_on e x) ->
  ev_delaying_seqnum e <= snd (spec_is_busy q e) /\
  (snd (spec_is_busy q e) = ev_delaying_seqnum e \/ snd (spec_is_busy q e) < ev_seqnum e) /\
  (forall x, In x q -> ev_seqnum x < snd (spec_is_busy q e) -> ~ depends_on e x) /\
  (fst (spec_is_busy q e) = false ->
   forall x, In x q -> ev_seqnum x < ev_seqnum e -> ~ depends_on e x).
Proof.
  intros Hs. induction Hs as [|x rest Hs IH Hx]; intros Hc.
  - simpl. split; [lia|]. split; [by left|]. split; intros; contradiction.
  - rewrite List.Forall_forall in Hx.
    assert (Hc' : forall y, In y rest -> ev_seqnum y < ev_delaying_seqnum e -> ~ depends_on e y)
      by (intros y Hy; apply Hc; by right).
    specialize (IH Hc'). destruct IH as (I1 & I2 & I3 & I4).
    assert (Hstop : forall d, d <= ev_seqnum x ->
              forall y, In y (x :: rest) -> ev_seqnum y < d -> ~ depends_on e y).
    { intros d Hd y [<-|Hy] Hy'; [lia | specialize (Hx y Hy); lia]. }
    cbn [spec_is_busy]. unfold spec_examine.
    destruct (decide (ev_seqnum x < ev_delaying_seqnum e)) as [Hlt|Hlt].
    { split; [done|]. split; [done|]. split.
      - intros y [<-|Hy] Hy'; [apply Hc; [by left | done] | by apply I3].
      - intros Hf y [<-|Hy] Hy'; [apply Hc; [by left | done] | by apply I4]. }
    destruct (decide (ev_seqnum x = ev_delaying_seqnum e)) as [Heq|Hne].
    { cbn [fst snd]. split; [lia|]. split; [by left|]. split; [|done].
      intros y Hy Hy'. by apply Hc. }
    destruct (decide (ev_seqnum e <= ev_seqnum x)) as [Hge|Hge].
    { cbn [fst snd]. split; [lia|]. split; [by left|]. split.
      - intros y Hy Hy'. by apply Hc.
      - intros _. apply Hstop. lia. }
    destruct (spec_conflict e x) eqn:Hcf.
    + split; [done|]. split; [done|]. split.
      * intros y [<-|Hy] Hy'; [unfold depends_on; rewrite Hcf; by intros [] | by apply I3].
      * intros Hf y [<-|Hy] Hy'; [unfold depends_on; rewrite Hcf; by intros [] | by apply I4].
    + cbn [fst snd]. split; [lia|]. split; [by left|]. split; [|done].
      intros y Hy Hy'. by apply Hc.
    + cbn [fst snd]. split; [lia|]. split; [right; lia|]. split; [|done].
      apply Hstop. lia.
    + by destruct (spec_conflict_not_break e x).
Qed.

Lemma is_devpath_busy_loop_sound q e :
  queue_sorted q -> Forall devpath_len_ok q -> devpath_len_ok e ->
  (forall x, In x q -> ev_seqnum x < ev_delaying_seqnum e -> ~ depends_on e x) ->
  let r := is_devpath_busy_loop q e in
  same_key e (snd r) /\ ev_state (snd r) = ev_state e /\
  ev_worker (snd r) = ev_worker e /\
  ev_delaying_seqnum e <= ev_delaying_seqnum (snd r) /\
  (ev_delaying_seqnum (snd r) = ev_delaying_seqnum e
   \/ ev_delaying_seqnum (snd r) < ev_seqnum e) /\
  (forall x, In x q -> ev_seqnum x < ev_delaying_seqnum (snd r) -> ~ depends_on e x) /\
  (fst r = false -> forall x, In x q -> ev_seqnum x < ev_seqnum e -> ~ depends_on e x).
Proof.
  intros Hs Hq He Hc. cbv zeta. rewrite is_devpath_busy_loop_spec by done.
  cbn [fst snd]. destruct (spec_is_busy_sound q e Hs Hc) as (H1 & H2 & H3 & H4).
  split; [by repeat split|]. by repeat split.
Qed.

Lemma StronglySorted_map_key (g : event -> event) q :
  (forall x, In x q -> ev_seqnum (g x) = ev_seqnum x) ->
  queue_sorted q -> queue_sorted (List.map g q).
Proof.
  unfold queue_sorted. intros Hg Hs. induction Hs as [|x rest Hs IH Hx]; simpl.
  - constructor.
  - constructor.
    + apply IH. intros y Hy. apply Hg. by right.
    + rewrite List.Forall_forall in *. intros y' Hy'.
      apply List.in_map_iff in Hy' as (y & <- & Hy).
      rewrite (Hg x) by (by left). rewrite (Hg y) by (by right). by apply Hx.
Qed.

Lemma queue_inv_map n q (g : event -> event) :
  queue_inv (n, q) ->
  (forall x, In x q ->
     same_key x (g x) /\
     ev_delaying_seqnum x <= ev_delaying_seqnum (g x) <= ev_seqnum x /\
     (forall y, In y q -> ev_seqnum y < ev_delaying_seqnum (g x) -> ~ depends_on x y) /\
     (ev_state (g x) = EVENT_QUEUED \/ ev_state (g x) = ev_state x \/
      forall y, In y q -> ev_seqnum y < ev_seqnum x -> ~ depends_on x y)) ->
  queue_inv (n, List.map g q) /\ evolves (n, q) (n, List.map g q).
Proof.
  intros (Hs & Hnd & Hlt & Hok) Hg. cbn [fst snd] in *.
  assert (Hkey : forall x, In x q -> same_key x (g x)) by (intros x Hx; by apply Hg).
  rewrite List.Forall_forall in Hlt, Hok.
  split; [split; [|split; [|split]] | split]; cbn [fst snd].
  - apply StronglySorted_map_key; [|done]. intros x Hx. by apply (Hkey x Hx).
  - rewrite List.map_map. erewrite List.map_ext_in; [exact Hnd|].
    intros x Hx. by apply (Hkey x Hx).
  - apply List.Forall_forall. intros y' Hy'.
    apply List.in_map_iff in Hy' as (y & <- & Hy).
    destruct (Hkey y Hy) as (-> & _). by apply Hlt.
  - apply List.Forall_forall. intros y' Hy'.
    apply List.in_map_iff in Hy' as (y & <- & Hy).
    destruct (Hg y Hy) as (Hk & Hd & Hcache & Hst).
    destruct (Hok y Hy) as (Hlen & Hb & _ & Hheld).
    pose proof Hk as (_ & Hseq & Hp & Hl & _).
    split; [|split; [|split]].
    + unfold devpath_len_ok in *. by rewrite Hl, Hp.
    + lia.
    + intros x' Hx' Hx''. apply List.in_map_iff in Hx' as (x & <- & Hx).
      rewrite (depends_on_same_key y (g y) x (g x)) by auto.
      apply Hcache; [done|]. destruct (Hkey x Hx) as (_ & <- & _). done.
    + intros x' Hx' Hx'' Hdep. apply List.in_map_iff in Hx' as (x & <- & Hx).
      rewrite (depends_on_same_key y (g y) x (g x)) in Hdep by auto.
      destruct (Hkey x Hx) as (_ & Hsx & _). rewrite Hsx, Hseq in Hx''.
      destruct Hst as [Hst|[Hst|Hst]]; [done | | by destruct (Hst x Hx Hx'')].
      rewrite Hst. by apply (Hheld x).
  - lia.
  - intros y' Hy' _. apply List.in_map_iff in Hy' as (y & <- & Hy).
    exists y. split; [done|]. split; [by apply Hkey|]. by apply (Hg y Hy).
Qed.

Lemma NoDup_addr_inj q x y :
  List.NoDup (List.map ev_addr q) -> In x q -> In y q -> ev_addr x = ev_addr y -> x = y.
Proof.
  induction q as [|z q IH]; simpl; [done|]. intros Hnd Hx Hy Ha.
  apply List.NoDup_cons_iff in Hnd as [Hz Hnd].
  destruct Hx as [->|Hx], Hy as [->|Hy]; [done | | | by apply IH].
  - destruct Hz. rewrite Ha. by apply List.in_map.
  - destruct Hz. rewrite <- Ha. by apply List.in_map.
Qed.

Lemma queue_inv_filter n q (p : event -> bool) :
  queue_inv (n, q) -> queue_inv (n, List.filter p q).
Proof.
  intros (Hs & Hnd & Hlt & Hok). cbn [fst snd] in *.
  rewrite List.Forall_forall in Hlt, Hok.
  split; [|split; [|split]]; cbn [fst snd].
  - clear -Hs. unfold queue_sorted in *. induction Hs as [|x rest Hs IH Hx]; simpl.
    + constructor.
    + destruct (p x); [|done]. constructor; [done|].
      rewrite List.Forall_forall in *. intros y Hy.
      apply List.filter_In in Hy as [Hy _]. by apply Hx.
  - clear -Hnd. induction q as [|x q IH]; simpl; [constructor|].
    apply List.NoDup_cons_iff in Hnd as [Hx Hnd].
    destruct (p x); [|by apply IH]. simpl. constructor; [|by apply IH].
    intros Hin. apply Hx. apply List.in_map_iff in Hin as (y & Hy & Hin).
    apply List.filter_In in Hin as [Hin _]. rewrite <- Hy. by apply List.in_map.
  - apply List.Forall_forall. intros y Hy. apply List.filter_In in Hy as [Hy _]. by apply Hlt.
  - apply List.Forall_forall. intros y Hy. apply List.filter_In in Hy as [Hy _].
    destruct (Hok y Hy) as (H1 & H2 & H3 & H4). split; [done|]. split; [done|]. split.
    + intros x Hx. apply List.filter_In in Hx as [Hx _]. by apply H3.
    + intros x Hx. apply List.filter_In in Hx as [Hx _]. by apply H4.
Qed.

Lemma evolves_filter n q (p : event -> bool) : evolves (n, q) (n, List.filter p q).
Proof.
  split; cbn [fst snd]; [lia|]. intros e He _. apply List.filter_In in He as [He _].
  exists e. split; [done|]. split; [apply same_key_refl | lia].
Qed.

Lemma same_key_trans a b c : same_key a b -> same_key b c -> same_key a c.
Proof.
  intros (A1 & A2 & A3 & A4 & A5 & A6 & A7 & A8) (B1 & B2 & B3 & B4 & B5 & B6 & B7 & B8).
  repeat split; congruence.
Qed.

Lemma evolves_refl s : evolves s s.
Proof.
  split; [lia|]. intros e He _. exists e. split; [done|].
  split; [apply same_key_refl | lia].
Qed.

Lemma evolves_trans s1 s2 s3 : evolves s1 s2 -> evolves s2 s3 -> evolves s1 s3.
Proof.
  intros [Hn1 H1] [Hn2 H2]. split; [lia|]. intros e3 He3 Ha.
  destruct (H2 e3 He3) as (e2 & He2 & Hk2 & Hd2); [lia|].
  destruct (H1 e2 He2) as (e1 & He1 & Hk1 & Hd1).
  { destruct Hk2 as (Hk2 & _). lia. }
  exists e1. split; [done|]. split; [by eapply same_key_trans | lia].
Qed.

Lemma queue_inv_insert n q e :
  queue_inv (n, q) ->
  ev_addr e = n -> ev_state e = EVENT_QUEUED -> ev_delaying_seqnum e = 0 ->
  0 <= ev_seqnum e -> devpath_len_ok e ->
  Forall (fun x => ev_seqnum x < ev_seqnum e) q ->
  queue_inv (S n, q ++ [e]) /\ evolves (n, q) (S n, q ++ [e]).
Proof.
  intros (Hs & Hnd & Hlt & Hok) Ha Hst Hd Hseq Hlen Hnew. cbn [fst snd] in *.
  rewrite List.Forall_forall in Hlt, Hok, Hnew.
  split; [split; [|split; [|split]] | split]; cbn [fst snd].
  - clear -Hs Hnew. unfold queue_sorted in *. induction Hs as [|x rest Hs IH Hx]; simpl.
    + repeat constructor.
    + constructor.
      * apply IH. intros y Hy. apply Hnew. by right.
      * rewrite List.Forall_forall in *. intros y Hy.
        apply List.in_app_iff in Hy as [Hy|[<-|[]]]; [by apply Hx|].
        apply Hnew. by left.
  - rewrite List.map_app. simpl. apply List.NoDup_app; [done | |].
    + repeat constructor. by intros [].
    + intros a Hin [<-|[]]. apply List.in_map_iff in Hin as (y & Hy & Hin).
      specialize (Hlt y Hin). lia.
  - apply List.Forall_forall. intros y Hy.
    apply List.in_app_iff in Hy as [Hy|[<-|[]]]; [specialize (Hlt y Hy)|]; lia.
  - apply List.Forall_forall. intros y Hy.
    apply List.in_app_iff in Hy as [Hy|[<-|[]]].
    + destruct (Hok y Hy) as (H1 & H2 & H3 & H4). specialize (Hnew y Hy).
      split; [done|]. split; [done|]. split.
      * intros x Hx. apply List.in_app_iff in Hx as [Hx|[<-|[]]]; [by apply H3 | lia].
      * intros x Hx. apply List.in_app_iff in Hx as [Hx|[<-|[]]]; [by apply H4 | lia].
    + split; [done|]. split; [lia|]. split; [|done].
      intros x Hx Hx'. rewrite Hd in Hx'.
      apply List.in_app_iff in Hx as [Hx|[<-|[]]]; [|lia].
      destruct (Hok x Hx) as (_ & ? & _). lia.
  - lia.
  - intros y Hy Hy'. apply List.in_app_iff in Hy as [Hy|[<-|[]]]; [|lia].
    exists y. split; [done|]. split; [apply same_key_refl | lia].
Qed.

Lemma queue_inv_len_ok n q : queue_inv (n, q) -> Forall devpath_len_ok q.
Proof.
  intros (_ & _ & _ & Hok). cbn [snd] in Hok. rewrite List.Forall_forall in *.
  intros x Hx. by apply (Hok x Hx).
Qed.

Lemma queue_step_inv s s' :
  queue_step s s' -> queue_inv s -> queue_inv s' /\ evolves s s'.
Proof.
  induction 1 as [s|s1 s2 s3 H12 IH12 H23 IH23|n q e Ha Hst Hd Hseq Hlen Hnew|n q a
                  |n q a|n q e pid warn kill He Hbusy|n q a]; intros Hinv.
  - split; [done | apply evolves_refl].
  - destruct (IH12 Hinv) as [Hinv2 Hev12]. destruct (IH23 Hinv2) as [Hinv3 Hev23].
    split; [done | by eapply evolves_trans].
  - by apply queue_inv_insert.
  - split; [by apply queue_inv_filter | apply evolves_filter].
  - apply queue_inv_map; [done|]. intros x Hx.
    pose proof Hinv as (Hs & Hnd & Hlt & Hok). cbn [fst snd] in *.
    rewrite List.Forall_forall in Hok. destruct (Hok x Hx) as (H1 & H2 & H3 & H4).
    destruct (Nat.eqb (ev_addr x) a).
    + destruct (is_devpath_busy_loop_sound q x Hs (queue_inv_len_ok _ _ Hinv) H1 H3)
        as (S1 & S2 & S3 & S4 & S5 & S6 & S7).
      split; [done|]. split; [lia|]. split; [done|]. right; by left.
    + split; [apply same_key_refl|]. split; [lia|]. split; [done|]. right; by left.
  - apply queue_inv_map; [done|]. intros x Hx.
    pose proof Hinv as (Hs & Hnd & Hlt & Hok). cbn [fst snd] in *.
    rewrite List.Forall_forall in Hok. destruct (Hok x Hx) as (H1 & H2 & H3 & H4).
    destruct (Nat.eqb_spec (ev_addr x) (ev_addr e)) as [Heq|Hne].
    + assert (x = e) as -> by (by eapply NoDup_addr_inj).
      split; [by repeat split|]. cbn [attach_to_worker ev_delaying_seqnum ev_state].
      split; [lia|]. split; [done|]. right; right.
      by apply (is_devpath_busy_loop_sound q e Hs (queue_inv_len_ok _ _ Hinv) H1 H3).
    + split; [apply same_key_refl|]. split; [lia|]. split; [done|]. right; by left.
  - apply queue_inv_map; [done|]. intros x Hx.
    pose proof Hinv as (Hs & Hnd & Hlt & Hok). cbn [fst snd] in *.
    rewrite List.Forall_forall in Hok. destruct (Hok x Hx) as (H1 & H2 & H3 & H4).
    destruct (Nat.eqb (ev_addr x) a).
    + split; [by repeat split|]. cbn [set_event_state ev_delaying_seqnum ev_state].
      split; [lia|]. split; [done|]. by left.
    + split; [apply same_key_refl|]. split; [lia|]. split; [done|]. right; by left.
Qed.

(** ** Stores and look-ups *)

Lemma find_event_Some a q e : find_event a q = Some e -> In e q /\ ev_addr e = a.
Proof.
  intros H. apply List.find_some in H as [H1 H2]. split; [done|].
  by apply Nat.eqb_eq.
Qed.

Lemma find_event_In q e :
  List.NoDup (List.map ev_addr q) -> In e q -> find_event (ev_addr e) q = Some e.
Proof.
  intros Hnd He. destruct (find_event (ev_addr e) q) as [e'|] eqn:Hf.
  - apply find_event_Some in Hf as [Hin Ha]. f_equal. by eapply NoDup_addr_inj.
  - eapply List.find_none in Hf; [|exact He]. by rewrite Nat.eqb_refl in Hf.
Qed.

Lemma find_event_remove a q : find_event a (remove_event a q) = None.
Proof.
  destruct (find_event a (remove_event a q)) as [e|] eqn:Hf; [|done].
  apply find_event_Some in Hf as [Hin Ha]. apply List.filter_In in Hin as [_ Hin].
  by rewrite Ha, Nat.eqb_refl in Hin.
Qed.

Lemma hashmap_get_Some ws pid w : hashmap_get ws pid = Some w -> In w ws /\ wk_pid w = pid.
Proof.
  intros H. apply List.find_some in H as [H1 H2]. split; [done|]. by apply Z.eqb_eq.
Qed.

Lemma hashmap_get_None ws pid w : hashmap_get ws pid = None -> In w ws -> wk_pid w <> pid.
Proof.
  intros H Hin. eapply List.find_none in H; [|exact Hin]. by apply Z.eqb_neq.
Qed.


Lemma in_update_worker pid f ws w' :
  In w' (update_worker pid f ws) <->
  exists w, In w ws /\ w' = if wk_pid w =? pid then f w else w.
Proof.
  unfold update_worker. rewrite List.in_map_iff. split; intros (w & H1 & H2); exists w; by split.
Qed.

Lemma update_worker_pids pid f ws :
  (forall w, wk_pid (f w) = wk_pid w) ->
  List.map wk_pid (update_worker pid f ws) = List.map wk_pid ws.
Proof.
  intros Hf. unfold update_worker. rewrite List.map_map. apply List.map_ext.
  intros w. by destruct (wk_pid w =? pid).
Qed.

Lemma in_update_event a f q e' :
  In e' (update_event a f q) <->
  exists e, In e q /\ e' = if Nat.eqb (ev_addr e) a then f e else e.
Proof.
  unfold update_event. rewrite List.in_map_iff. split; intros (e & H1 & H2); exists e; by split.
Qed.

Lemma update_event_id a f q :
  (forall e, In e q -> ev_addr e = a -> f e = e) -> update_event a f q = q.
Proof.
  intros Hf. unfold update_event. rewrite <- (List.map_id q) at 2. apply List.map_ext_in.
  intros e He. destruct (Nat.eqb_spec (ev_addr e) a); [by apply Hf | done].
Qed.

Lemma set_events_same m : set_events m (events m) = m.
Proof. by destruct m. Qed.

(** ** The references between workers and events *)

Lemma pool_links_update_worker ws q pid f :
  (forall w, wk_pid (f w) = wk_pid w) ->
  (forall w, wk_event (f w) = wk_event w \/ wk_event (f w) = None) ->
  pool_links ws q -> pool_links (update_worker pid f ws) q.
Proof.
  intros Hp He (P1 & P3 & P4). split; [|split; [|done]].
  - by rewrite update_worker_pids.
  - intros w' a Hw' Ha. apply in_update_worker in Hw' as (w & Hw & ->).
    destruct (wk_pid w =? pid); [|by apply P3].
    rewrite Hp. apply P3; [done|]. destruct (He w) as [<-|Hn]; [done | congruence].
Qed.

Lemma pool_links_map_events ws q (g : event -> event) :
  (forall e, In e q ->
     ev_addr (g e) = ev_addr e /\ ev_worker (g e) = ev_worker e /\
     (ev_state (g e) = ev_state e \/ ev_worker e = None)) ->
  pool_links ws q -> pool_links ws (List.map g q).
Proof.
  intros Hg (P1 & P3 & P4). split; [done|]. split.
  - intros w a Hw Ha. destruct (P3 w a Hw Ha) as (e & He & <- & Hwk).
    exists (g e). destruct (Hg e He) as (G1 & G2 & _).
    split; [by apply List.in_map|]. split; congruence.
  - intros e' pid He' Hwk. apply List.in_map_iff in He' as (e & <- & He).
    destruct (Hg e He) as (G1 & G2 & [G3|G3]); [|congruence].
    rewrite G3. apply (P4 e pid); congruence.
Qed.

Lemma pool_links_attach ws q pid a warn kill :
  pool_links ws q -> List.NoDup (List.map ev_addr q) ->
  (exists e, In e q /\ ev_addr e = a /\ ev_worker e = None) ->
  pool_links
    (update_worker pid (fun w => set_wk_event (Some a) (set_wk_state WORKER_RUNNING w)) ws)
    (update_event a (fun e => attach_to_worker e pid warn kill) q).
Proof.
  intros (P1 & P3 & P4) Hnd (e & He & Ha & Hwk). split; [|split].
  - by rewrite update_worker_pids.
  - intros w' a' Hw' Ha'. apply in_update_worker in Hw' as (w & Hw & ->).
    destruct (Z.eqb_spec (wk_pid w) pid) as [Hp|Hp].
    + simpl in Ha'. injection Ha' as <-. exists (attach_to_worker e pid warn kill).
      split; [|by simpl; rewrite Hp].
      apply in_update_event. exists e. split; [done|]. by rewrite Ha, Nat.eqb_refl.
    + destruct (P3 w a' Hw Ha') as (e' & He' & Ha'' & Hwk'). exists e'.
      split; [|done]. apply in_update_event. exists e'. split; [done|].
      destruct (Nat.eqb_spec (ev_addr e') a) as [Heq|]; [|done].
      assert (e' = e) as -> by (eapply NoDup_addr_inj; [done..|congruence]). congruence.
  - intros e' pid' He' Hwk'. apply in_update_event in He' as (e0 & He0 & ->).
    destruct (Nat.eqb (ev_addr e0) a); [done | by apply (P4 e0 pid')].
Qed.

Lemma pool_links_free ws q e :
  pool_links ws q -> List.NoDup (List.map ev_addr q) -> In e q ->
  pool_links
    (match ev_worker e with
     | Some pid => update_worker pid (set_wk_event None) ws
     | None => ws
     end)
    (remove_event (ev_addr e) q).
Proof.
  intros (P1 & P3 & P4) Hnd He.
  assert (Hkeep : forall w a, In w ws -> wk_event w = Some a ->
            ev_worker e <> Some (wk_pid w) ->
            exists e', In e' (remove_event (ev_addr e) q) /\ ev_addr e' = a
                       /\ ev_worker e' = Some (wk_pid w)).
  { intros w a Hw Ha Hne. destruct (P3 w a Hw Ha) as (e' & He' & Ha' & Hwk').
    exists e'. split; [|done]. apply List.filter_In. split; [done|].
    apply negb_true_iff, Nat.eqb_neq. intros Heq.
    assert (e' = e) as -> by (by eapply NoDup_addr_inj). congruence. }
  assert (P4' : forall e' pid, In e' (remove_event (ev_addr e) q) ->
            ev_worker e' = Some pid -> ev_state e' = EVENT_RUNNING).
  { intros e' pid He'. apply List.filter_In in He' as [He' _]. by apply P4. }
  destruct (ev_worker e) as [pid|] eqn:Hwk.
  - split; [|split; [|done]].
    + by rewrite update_worker_pids.
    + intros w' a Hw' Ha. apply in_update_worker in Hw' as (w & Hw & ->).
      destruct (Z.eqb_spec (wk_pid w) pid) as [Hp|Hp]; [by simpl in Ha|].
      apply Hkeep; [done..|congruence].
  - split; [done|]. split; [|done]. intros w a Hw Ha. by apply Hkeep.
Qed.

Lemma pool_links_remove_worker ws q pid :
  pool_links ws q -> pool_links (hashmap_remove ws pid) q.
Proof.
  intros (P1 & P3 & P4). split; [|split; [|done]].
  - clear -P1. induction ws as [|w ws IH]; simpl; [constructor|].
    apply List.NoDup_cons_iff in P1 as [Hw P1].
    destruct (negb (wk_pid w =? pid)); [|by apply IH]. simpl. constructor; [|by apply IH].
    intros Hin. apply Hw. apply List.in_map_iff in Hin as (y & Hy & Hin).
    apply List.filter_In in Hin as [Hin _]. rewrite <- Hy. by apply List.in_map.
  - intros w a Hw. apply List.filter_In in Hw as [Hw _]. by apply P3.
Qed.

Lemma pool_links_add_worker ws q pid st :
  pool_links ws q -> hashmap_get ws pid = None ->
  pool_links (ws ++ [{| wk_pid := pid; wk_state := st; wk_event := None |}]) q.
Proof.
  intros (P1 & P3 & P4) Hget. split; [|split; [|done]].
  - rewrite List.map_app. simpl. apply List.NoDup_app; [done | |].
    + repeat constructor. by intros [].
    + intros p Hin [<-|[]]. apply List.in_map_iff in Hin as (w & Hp & Hin).
      exact (hashmap_get_None ws _ w Hget Hin Hp).
  - intros w a Hw Ha. apply List.in_app_iff in Hw as [Hw|[<-|[]]]; [by apply P3 | done].
Qed.

Lemma pool_links_insert_event ws q e :
  pool_links ws q -> ev_worker e = None -> pool_links ws (q ++ [e]).
Proof.
  intros (P1 & P3 & P4) Hwk. split; [done|]. split.
  - intros w a Hw Ha. destruct (P3 w a Hw Ha) as (e' & He' & H').
    exists e'. split; [|done]. apply List.in_app_iff. by left.
  - intros e' pid He'. apply List.in_app_iff in He' as [He'|[<-|[]]]; [by apply P4 | congruence].
Qed.

Lemma Forall_worker_ok_update ws pid f :
  Forall worker_ok ws ->
  (forall w, In w ws -> wk_pid w = pid -> worker_ok (f w)) ->
  Forall worker_ok (update_worker pid f ws).
Proof.
  rewrite !List.Forall_forall. intros Hok Hf w' Hw'.
  apply in_update_worker in Hw' as (w & Hw & ->).
  destruct (Z.eqb_spec (wk_pid w) pid); [by apply Hf | by apply Hok].
Qed.

Lemma NoDup_pid_inj ws w w' :
  List.NoDup (List.map wk_pid ws) -> In w ws -> In w' ws -> wk_pid w = wk_pid w' -> w = w'.
Proof.
  induction ws as [|z ws IH]; simpl; [done|]. intros Hnd Hx Hy Ha.
  apply List.NoDup_cons_iff in Hnd as [Hz Hnd].
  destruct Hx as [->|Hx], Hy as [->|Hy]; [done | | | by apply IH].
  - destruct Hz. rewrite Ha. by apply List.in_map.
  - destruct Hz. rewrite <- Ha. by apply List.in_map.
Qed.

(** ** The callbacks keep the manager consistent *)

Lemma advances_refl m : manager_inv m -> advances m m.
Proof. intros H. split; [apply qs_refl | done]. Qed.

Lemma advances_trans m1 m2 m3 : advances m1 m2 -> advances m2 m3 -> advances m1 m3.
Proof. intros [H1 _] [H2 H3]. split; [by eapply qs_trans | done]. Qed.

Lemma advances_inv m m' : advances m m' -> manager_inv m'.
Proof. by intros [_ H]. Qed.

(** A step that leaves the pool and the queue alone. *)
Lemma advances_frame m m' :
  manager_inv m -> workers m' = workers m -> events m' = events m ->
  next_addr m' = next_addr m -> advances m m'.
Proof.
  intros Hinv Hw He Hn. unfold advances, manager_inv, pool_inv, qview in *.
  rewrite Hw, He, Hn. split; [apply qs_refl | done].
Qed.

Lemma advances_by_step m m' :
  manager_inv m -> queue_step (qview m) (qview m') -> pool_inv m' -> advances m m'.
Proof.
  intros [Hq _] Hs Hp. split; [done|]. split; [|done]. by apply (queue_step_inv _ _ Hs).
Qed.

Lemma worker_ok_killed w : worker_ok (set_wk_state WORKER_KILLED w).
Proof. by repeat split. Qed.

(** A worker changes state, the state being one that allows its event. *)
Lemma set_worker_state_advances m pid f :
  manager_inv m ->
  (forall w, wk_pid (f w) = wk_pid w /\ wk_event (f w) = wk_event w) ->
  (forall w, In w (workers m) -> wk_pid w = pid -> worker_ok (f w)) ->
  advances m (set_workers m (update_worker pid f (workers m))).
Proof.
  intros Hinv Hf Hok. apply advances_by_step; [done | apply qs_refl |].
  destruct Hinv as [_ [Hl Hw]]. split; cbn [workers events set_workers].
  - apply pool_links_update_worker; [intros w; apply Hf | intros w; left; apply Hf | done].
  - by apply Forall_worker_ok_update.
Qed.

Lemma manager_kill_workers_fold ws m :
  manager_inv m ->
  advances m
    (fold_left
       (fun m w =>
          if worker_state_eqb (wk_state w) WORKER_KILLED then m
          else
            let m := set_workers m
                       (update_worker (wk_pid w) (set_wk_state WORKER_KILLED) (workers m)) in
            emit m (Kill (wk_pid w) SIGTERM))
       ws m).
Proof.
  revert m. induction ws as [|w ws IH]; intros m Hinv; simpl.
  - by apply advances_refl.
  - destruct (worker_state_eqb (wk_state w) WORKER_KILLED); [by apply IH|].
    eapply advances_trans; [|apply IH].
    + eapply advances_trans.
      * apply (set_worker_state_advances m (wk_pid w) (set_wk_state WORKER_KILLED));
          [done | done | intros; apply worker_ok_killed].
      * apply advances_frame; [|done..].
        eapply advances_inv, (set_worker_state_advances m (wk_pid w));
          [done | done | intros; apply worker_ok_killed].
    + eapply advances_inv, advances_frame; [|reflexivity..].
      eapply advances_inv, (set_worker_state_advances m (wk_pid w));
        [done | done | intros; apply worker_ok_killed].
Qed.

Lemma manager_kill_workers_advances m :
  manager_inv m -> advances m (manager_kill_workers m).
Proof. apply manager_kill_workers_fold. Qed.

Lemma manager_reload_advances m : manager_inv m -> advances m (manager_reload m).
Proof.
  intros Hinv. unfold manager_reload. eapply advances_trans.
  - by apply manager_kill_workers_advances.
  - apply advances_frame; [|done..]. by eapply advances_inv, manager_kill_workers_advances.
Qed.

Lemma advances_then m1 m2 m3 :
  advances m1 m2 -> (manager_inv m2 -> advances m2 m3) -> advances m1 m3.
Proof. intros H12 H23. eapply advances_trans; [done|]. apply H23. by destruct H12. Qed.

Lemma advances_emit m x : manager_inv m -> advances m (emit m x).
Proof. intros. by apply advances_frame. Qed.

(** [event_free] of the event at [a]; the worker the event points to, if it
    is in the pool, is not running. *)
Lemma event_free_advances m a ev :
  queue_inv (qview m) -> pool_links (workers m) (events m) ->
  find_event a (events m) = Some ev ->
  (forall w, In w (workers m) ->
     if decide (ev_worker ev = Some (wk_pid w))
     then wk_state w <> WORKER_RUNNING /\ wk_state w <> WORKER_UNDEF
     else worker_ok w) ->
  queue_step (qview m) (qview (event_free m (Some a))) /\
  manager_inv (event_free m (Some a)).
Proof.
  intros Hq Hl Hf Hw. apply find_event_Some in Hf as Hev. destruct Hev as [Hin <-].
  pose (m1 := set_events m (remove_event (ev_addr ev) (events m))).
  pose (m2 := match ev_worker ev with
              | Some pid => set_workers m1 (update_worker pid (set_wk_event None) (workers m1))
              | None => m1
              end).
  assert (Hstep : queue_step (qview m) (qview m2)).
  { unfold m2. destruct (ev_worker ev); apply qs_remove. }
  assert (Hp : pool_inv m2).
  { split.
    - pose proof (pool_links_free _ _ ev Hl (proj1 (proj2 Hq)) Hin) as H.
      unfold m2. by destruct (ev_worker ev).
    - unfold m2. destruct (ev_worker ev) as [pid|] eqn:Hwk.
      + cbn [workers set_workers m1 set_events]. apply List.Forall_forall.
        intros w' Hw'. apply in_update_worker in Hw' as (w & Hin' & ->).
        specialize (Hw w Hin'). destruct (Z.eqb_spec (wk_pid w) pid) as [Hp|Hp].
        * rewrite decide_True in Hw by congruence. destruct Hw as [H1 H2].
          by repeat split.
        * rewrite decide_False in Hw by congruence. done.
      + cbn [workers m1 set_events]. apply List.Forall_forall. intros w Hin'.
        specialize (Hw w Hin'). by rewrite decide_False in Hw. }
  assert (Hinv2 : manager_inv m2).
  { split; [|done]. by apply (queue_step_inv _ _ Hstep). }
  unfold event_free. rewrite Hf. fold m1. fold m2.
  destruct (LIST_IS_EMPTY (events m2)); [|done].
  split; [done|]. by apply advances_emit.
Qed.

Lemma on_worker_message_advances m pid :
  manager_inv m -> advances m (on_worker_message m pid).
Proof.
  intros Hinv. unfold on_worker_message.
  destruct (hashmap_get (workers m) pid) as [w|] eqn:Hget; [|by apply advances_refl].
  apply hashmap_get_Some in Hget as [Hin Hpid].
  set (m1 := if negb (worker_state_eqb (wk_state w) WORKER_KILLED)
             then set_workers m (update_worker pid (set_wk_state WORKER_IDLE) (workers m))
             else m).
  destruct Hinv as [Hq [Hl Hok]]. pose proof Hl as (P1 & P3 & P4).
  rewrite List.Forall_forall in Hok.
  assert (Hq1 : qview m1 = qview m) by (unfold m1; by destruct (negb _)).
  assert (He1 : events m1 = events m) by (unfold m1; by destruct (negb _)).
  assert (Hl1 : pool_links (workers m1) (events m1)).
  { unfold m1. destruct (negb _); [|done]. cbn [workers events set_workers].
    apply pool_links_update_worker; [done | by left | done]. }
  assert (Hw1 : forall w', In w' (workers m1) ->
            (wk_pid w' = pid /\ wk_event w' = wk_event w /\
             wk_state w' <> WORKER_RUNNING /\ wk_state w' <> WORKER_UNDEF
             /\ (wk_state w' = WORKER_IDLE -> wk_event w' = None \/ True))
            \/ (wk_pid w' <> pid /\ worker_ok w')).
  { intros w' Hw'. unfold m1 in Hw'.
    destruct (worker_state_eqb (wk_state w) WORKER_KILLED) eqn:Hk; cbn [negb] in Hw'.
    - destruct (Z.eq_dec (wk_pid w') pid) as [Hp|Hp]; [left | right; split; [done | by apply Hok]].
      assert (w' = w) as -> by (eapply NoDup_pid_inj; [done..|congruence]).
      destruct (wk_state w); by try done.
    - cbn [workers set_workers] in Hw'. apply in_update_worker in Hw' as (w0 & Hw0 & ->).
      destruct (Z.eqb_spec (wk_pid w0) pid) as [Hp|Hp]; [left | right; split; [done | by apply Hok]].
      assert (w0 = w) as -> by (eapply NoDup_pid_inj; [done..|congruence]).
      repeat split; auto; done. }
  destruct (wk_event w) as [a|] eqn:Hev.
  - destruct (P3 w a Hin Hev) as (e & He & Ha & Hwk).
    assert (Hfind : find_event a (events m1) = Some e).
    { rewrite He1, <- Ha. apply find_event_In; [apply Hq | done]. }
    destruct (event_free_advances m1 a e) as [Hs Hi]; [by rewrite Hq1 | done | done | |].
    + intros w' Hw'. destruct (Hw1 w' Hw') as [(Hp & _ & Hr & Hu & _)|[Hp Hok']].
      * rewrite decide_True by congruence. done.
      * rewrite decide_False by congruence. done.
    + split; [by rewrite <- Hq1 | done].
  - cbn [event_free]. split; [rewrite Hq1; apply qs_refl|].
    split; [by rewrite Hq1|]. split; [done|]. apply List.Forall_forall. intros w' Hw'.
    destruct (Hw1 w' Hw') as [(Hp & He' & Hr & Hu & _)|[Hp Hok']]; [|done].
    by repeat split.
Qed.

Lemma worker_free_advances m w :
  manager_inv m -> In w (workers m) -> advances m (worker_free m w).
Proof.
  intros [Hq [Hl Hok]] Hin. unfold worker_free.
  set (m1 := set_workers m (hashmap_remove (workers m) (wk_pid w))).
  assert (Hl1 : pool_links (workers m1) (events m1)) by (by apply pool_links_remove_worker).
  assert (Hok1 : Forall worker_ok (workers m1)).
  { rewrite List.Forall_forall in *. intros w' Hw'.
    apply List.filter_In in Hw' as [Hw' _]. by apply Hok. }
  destruct (wk_event w) as [a|] eqn:Hev.
  - destruct Hl as (P1 & P3 & P4). destruct (P3 w a Hin Hev) as (e & He & Ha & Hwk).
    apply (event_free_advances m1 a e); [done | done | | ].
    + cbn [events m1 set_workers]. rewrite <- Ha. apply find_event_In; [apply Hq | done].
    + intros w' Hw'. rewrite decide_False.
      * rewrite List.Forall_forall in Hok1. by apply Hok1.
      * rewrite Hwk. intros [= Hp]. apply List.filter_In in Hw' as [_ Hw'].
        by rewrite Hp, Z.eqb_refl in Hw'.
  - cbn [event_free]. split; [apply qs_refl|]. by split.
Qed.

Lemma on_sigchld_child_advances m child :
  manager_inv m -> advances m (on_sigchld_child m child).
Proof.
  intros Hinv. destruct child as [pid status]. unfold on_sigchld_child.
  destruct (hashmap_get (workers m) pid) as [w|] eqn:Hget; [|by apply advances_refl].
  apply hashmap_get_Some in Hget as [Hin _].
  destruct (negb (WIFEXITED status) && negb (WIFSIGNALED status)
            && (WIFSTOPPED status || WIFCONTINUED status)); [by apply advances_refl|].
  destruct (negb (WIFEXITED status) || negb (WEXITSTATUS status =? 0));
    [|by apply worker_free_advances].
  destruct (wk_event w) as [a|]; [|by apply worker_free_advances].
  destruct (find_event a (events m)) as [ev|]; [|by apply worker_free_advances].
  eapply advances_then; [apply advances_emit, Hinv|]. intros H1.
  eapply advances_then; [apply advances_emit, H1|]. intros H2.
  eapply advances_then; [apply advances_emit, H2|]. intros H3.
  by apply worker_free_advances.
Qed.

Lemma fold_left_advances {A} (f : Manager -> A -> Manager) l m :
  (forall m x, manager_inv m -> advances m (f m x)) ->
  manager_inv m -> advances m (fold_left f l m).
Proof.
  intros Hf. revert m. induction l as [|x l IH]; intros m Hinv; simpl.
  - by apply advances_refl.
  - eapply advances_then; [by apply Hf | apply IH].
Qed.

Lemma remove_event_absent a q : find_event a q = None -> remove_event a q = q.
Proof.
  intros Hf. unfold remove_event. induction q as [|e q IH]; simpl in *; [done|].
  destruct (Nat.eqb (ev_addr e) a); [done|]. simpl. f_equal. by apply IH.
Qed.

Lemma events_event_free m a : events (event_free m (Some a)) = remove_event a (events m).
Proof.
  unfold event_free. destruct (find_event a (events m)) as [ev|] eqn:Hf.
  - destruct (ev_worker ev); cbn [events set_workers set_events];
      by destruct (LIST_IS_EMPTY _).
  - by rewrite remove_event_absent.
Qed.

Lemma event_queue_cleanup_queued_fold evs m :
  manager_inv m ->
  List.NoDup (List.map ev_addr evs) -> (forall e, In e evs -> In e (events m)) ->
  advances m
    (fold_left
       (fun m ev =>
          if negb (event_state_eqb EVENT_QUEUED EVENT_UNDEF)
             && negb (event_state_eqb EVENT_QUEUED (ev_state ev)) then m
          else event_free m (Some (ev_addr ev)))
       evs m).
Proof.
  revert m. induction evs as [|ev evs IH]; intros m Hinv Hnd Hsub; cbn [fold_left].
  - by apply advances_refl.
  - cbn [List.map] in Hnd. apply List.NoDup_cons_iff in Hnd as [Hev Hnd].
    change (event_state_eqb EVENT_QUEUED EVENT_UNDEF) with false.
    destruct (event_state_eqb EVENT_QUEUED (ev_state ev)) eqn:Hst; cbn [negb andb].
    + assert (Hin : In ev (events m)) by (apply Hsub; by left).
      destruct Hinv as [Hq [Hl Hok]].
      assert (Hstep : advances m (event_free m (Some (ev_addr ev)))).
      { apply (event_free_advances m (ev_addr ev) ev); [done | done | |].
        - apply find_event_In; [apply Hq | done].
        - intros w Hw. rewrite decide_False.
          + rewrite List.Forall_forall in Hok. by apply Hok.
          + intros Hwk. destruct Hl as (_ & _ & P4). specialize (P4 ev _ Hin Hwk).
            rewrite P4 in Hst. done. }
      eapply advances_then; [exact Hstep|]. intros Hinv'. apply IH; [done | done|].
      intros e He. rewrite events_event_free. apply List.filter_In.
      split; [apply Hsub; by right|]. apply negb_true_iff, Nat.eqb_neq.
      intros Heq. apply Hev. rewrite <- Heq. by apply List.in_map.
    + apply IH; [done | done|]. intros e He. apply Hsub. by right.
Qed.

Lemma event_queue_cleanup_queued_advances m :
  manager_inv m -> advances m (event_queue_cleanup m EVENT_QUEUED).
Proof.
  intros Hinv. apply event_queue_cleanup_queued_fold; [done | apply Hinv | done].
Qed.

Lemma manager_exit_advances v m : manager_inv m -> advances m (manager_exit v m).
Proof.
  intros Hinv. unfold manager_exit.
  eapply advances_then;
    [by apply (advances_frame m (set_monitor (set_exit m true) false))|]. intros H1.
  eapply advances_then; [by apply event_queue_cleanup_queued_advances|]. intros H2.
  eapply advances_then; [by apply manager_kill_workers_advances|]. intros H3.
  by apply advances_frame.
Qed.

Lemma on_event_timeout_advances m a : manager_inv m -> advances m (on_event_timeout m a).
Proof.
  intros Hinv. unfold on_event_timeout.
  destruct (find_event a (events m)) as [ev|]; [|by apply advances_refl].
  destruct (ev_worker ev) as [pid|]; [|by apply advances_refl].
  eapply advances_then; [by apply advances_emit|]. intros H1.
  apply (set_worker_state_advances _ pid (set_wk_state WORKER_KILLED));
    [done | done | intros; apply worker_ok_killed].
Qed.

Lemma event_queue_insert_advances m dev :
  manager_inv m -> 0 <= dev_seqnum dev ->
  Forall (fun e => ev_seqnum e < dev_seqnum dev) (events m) ->
  advances m (event_queue_insert m dev).
Proof.
  intros Hinv Hseq Hnew. unfold event_queue_insert.
  set (ev := Build_event _ _ _ _ _ _ _ _ _ _ _ _ _ _ _).
  apply advances_by_step; [done | |].
  - assert (Hs : queue_step (next_addr m, events m) (S (next_addr m), events m ++ [ev]))
      by (by apply qs_insert).
    unfold qview. by destruct (LIST_IS_EMPTY _).
  - destruct Hinv as [_ [Hl Hok]].
    assert (pool_links (workers m) (events m ++ [ev])) by (by apply pool_links_insert_event).
    split; by destruct (LIST_IS_EMPTY _).
Qed.

Lemma worker_attach_event_advances usec m pid e :
  queue_inv (qview m) -> pool_links (workers m) (events m) ->
  In e (events m) -> ev_worker e = None ->
  fst (is_devpath_busy_loop (events m) e) = false ->
  (forall w, In w (workers m) -> wk_pid w <> pid -> worker_ok w) ->
  queue_step (qview m) (qview (worker_attach_event usec m pid (ev_addr e))) /\
  manager_inv (worker_attach_event usec m pid (ev_addr e)).
Proof.
  intros Hq Hl He Hwk Hbusy Hok.
  assert (Hs : queue_step (qview m) (qview (worker_attach_event usec m pid (ev_addr e))))
    by (by apply qs_attach).
  split; [done|]. split; [by apply (queue_step_inv _ _ Hs)|]. split.
  - apply pool_links_attach; [done | apply Hq | by exists e].
  - cbn [worker_attach_event workers set_events set_workers].
    apply List.Forall_forall. intros w' Hw'. apply in_update_worker in Hw' as (w & Hw & ->).
    destruct (Z.eqb_spec (wk_pid w) pid); [by repeat split | by apply Hok].
Qed.

Lemma queued_no_worker ws q e :
  pool_links ws q -> In e q -> ev_state e = EVENT_QUEUED -> ev_worker e = None.
Proof.
  intros (_ & _ & P4) He Hst. destruct (ev_worker e) as [pid|] eqn:Hwk; [|done].
  specialize (P4 e pid He Hwk). congruence.
Qed.

Lemma worker_spawn_advances v m e :
  manager_inv m -> In e (events m) -> ev_state e = EVENT_QUEUED ->
  fst (is_devpath_busy_loop (events m) e) = false ->
  advances m (worker_spawn v m (ev_addr e)).
Proof.
  intros Hinv He Hst Hbusy. unfold worker_spawn.
  pose proof Hinv as [Hq [Hl Hok]].
  destruct (env_spawn v (ev_addr e)) as [| |pid].
  - by apply advances_refl.
  - apply advances_by_step; [done | apply qs_requeue |]. split; [|done].
    cbn [workers events set_events]. apply pool_links_map_events; [|done].
    intros x Hx. cbv beta.
    destruct (Nat.eqb_spec (ev_addr x) (ev_addr e)) as [Heq|]; [|by repeat split; left].
    assert (x = e) as -> by (eapply NoDup_addr_inj; [apply Hq | done..]).
    split; [done|]. split; [done|]. by left.
  - eapply advances_then; [by apply advances_emit|]. intros H1.
    destruct (hashmap_get (workers (emit m (Fork pid))) pid) eqn:Hget;
      [by apply advances_refl|].
    cbn [workers emit] in Hget. unfold advances.
    change (qview (emit m (Fork pid))) with
      (qview (set_workers (emit m (Fork pid))
                (workers (emit m (Fork pid)) ++
                 [{| wk_pid := pid; wk_state := WORKER_UNDEF; wk_event := None |}]))).
    apply (worker_attach_event_advances (env_now v) _ pid e).
    + done.
    + cbn [workers events set_workers emit]. by apply pool_links_add_worker.
    + done.
    + by eapply queued_no_worker.
    + done.
    + cbn [workers set_workers emit]. intros w Hw Hp.
      apply List.in_app_iff in Hw as [Hw|[<-|[]]]; [|done].
      rewrite List.Forall_forall in Hok. by apply Hok.
Qed.

(** [event_run_workers] over the workers [ws] that are left to visit. *)
Lemma event_run_workers_advances v e ws m :
  manager_inv m -> In e (events m) -> ev_state e = EVENT_QUEUED ->
  fst (is_devpath_busy_loop (events m) e) = false ->
  List.NoDup (List.map wk_pid ws) -> (forall w, In w ws -> In w (workers m)) ->
  advances m (fst (event_run_workers v e ws m)) /\
  (snd (event_run_workers v e ws m) = false ->
   events (fst (event_run_workers v e ws m)) = events m).
Proof.
  revert m. induction ws as [|w ws IH]; intros m Hinv He Hst Hbusy Hnd Hsub;
    cbn [event_run_workers].
  - split; [by apply advances_refl | done].
  - cbn [List.map] in Hnd. apply List.NoDup_cons_iff in Hnd as [Hw Hnd].
    assert (Hsub' : forall w', In w' ws -> In w' (workers m)) by (intros; apply Hsub; by right).
    destruct (worker_state_eqb (wk_state w) WORKER_IDLE) eqn:Hidle; cbn [negb].
    2:{ by apply IH. }
    pose proof Hinv as [Hq [Hl Hok]].
    destruct (env_send v (wk_pid w) (ev_addr e)); cbn [negb].
    + cbn [fst snd]. split; [|done].
      eapply advances_then; [by apply advances_emit|]. intros H1.
      apply (worker_attach_event_advances (env_now v) _ (wk_pid w) e); try done.
      * by eapply queued_no_worker.
      * intros w' Hw' _. rewrite List.Forall_forall in Hok. by apply Hok.
    + set (m1 := set_workers _ _).
      assert (H1 : advances m m1).
      { eapply advances_then; [by apply advances_emit|]. intros H1.
        apply (set_worker_state_advances _ (wk_pid w) (set_wk_state WORKER_KILLED));
          [done | done | intros; apply worker_ok_killed]. }
      destruct (IH m1) as [IH1 IH2]; try done.
      * by destruct H1.
      * intros w' Hw'. cbn [m1 workers set_workers emit]. apply in_update_worker.
        exists w'. split; [by apply Hsub'|].
        destruct (Z.eqb_spec (wk_pid w') (wk_pid w)) as [Heq|]; [|done].
        destruct Hw. rewrite <- Heq. by apply List.in_map.
Qed.

Lemma event_run_advances v m e :
  manager_inv m -> In e (events m) -> ev_state e = EVENT_QUEUED ->
  fst (is_devpath_busy_loop (events m) e) = false ->
  advances m (event_run v m e).
Proof.
  intros Hinv He Hst Hbusy. unfold event_run.
  destruct (event_run_workers_advances v e (workers m) m) as [H1 H2];
    [done.. | apply Hinv | done |].
  destruct (event_run_workers v e (workers m) m) as [m1 attached]. cbn [fst snd] in *.
  destruct attached; [done|].
  destruct (hashmap_size (workers m1) >=? arg_children_max m1); [done|].
  eapply advances_then; [exact H1|]. intros Hinv1.
  apply worker_spawn_advances; [done | | done |]; by rewrite H2.
Qed.

Lemma spec_is_busy_false q e :
  fst (spec_is_busy q e) = false -> snd (spec_is_busy q e) = ev_delaying_seqnum e.
Proof.
  induction q as [|x q IH]; cbn [spec_is_busy]; [done|].
  by destruct (spec_examine e x).
Qed.

Lemma is_devpath_busy_loop_false q e :
  devpath_len_ok e -> Forall devpath_len_ok q ->
  fst (is_devpath_busy_loop q e) = false -> snd (is_devpath_busy_loop q e) = e.
Proof.
  intros He Hq. rewrite is_devpath_busy_loop_spec by done. cbn [fst snd]. intros Hf.
  rewrite spec_is_busy_false by done. apply set_delaying_seqnum_same.
Qed.

Lemma is_devpath_busy_advances m ev :
  manager_inv m -> advances m (snd (is_devpath_busy m ev)).
Proof.
  intros Hinv. apply advances_by_step; [done | apply qs_busy |].
  destruct Hinv as [Hq [Hl Hok]]. split; [|done].
  cbn [is_devpath_busy snd workers events set_events].
  apply pool_links_map_events; [|done]. intros x Hx. cbv beta.
  destruct (Nat.eqb (ev_addr x) (ev_addr ev)); [|by repeat split; left].
  rewrite is_devpath_busy_loop_spec.
  - cbn [snd]. by repeat split; left.
  - apply queue_inv_len_ok in Hq. rewrite List.Forall_forall in Hq. by apply Hq.
  - by eapply queue_inv_len_ok.
Qed.

Lemma is_devpath_busy_not_busy m ev :
  manager_inv m -> In ev (events m) ->
  fst (is_devpath_busy m ev) = false -> snd (is_devpath_busy m ev) = m.
Proof.
  intros [Hq _] Hin Hf. cbn [is_devpath_busy fst snd] in *.
  rewrite update_event_id; [apply set_events_same|].
  intros e He Ha. assert (e = ev) as -> by (eapply NoDup_addr_inj; [apply Hq | done..]).
  apply is_devpath_busy_loop_false; [|by eapply queue_inv_len_ok | done].
  apply queue_inv_len_ok in Hq. rewrite List.Forall_forall in Hq. by apply Hq.
Qed.

Lemma event_queue_start_loop_advances v todo m :
  manager_inv m -> advances m (event_queue_start_loop v todo m).
Proof.
  revert m. induction todo as [|a todo IH]; intros m Hinv; cbn [event_queue_start_loop].
  - by apply advances_refl.
  - destruct (find_event a (events m)) as [ev|] eqn:Hf; [|by apply IH].
    apply find_event_Some in Hf as [Hin Ha].
    destruct (event_state_eqb (ev_state ev) EVENT_QUEUED) eqn:Hst; cbn [negb]; [|by apply IH].
    assert (ev_state ev = EVENT_QUEUED) by (by destruct (ev_state ev)).
    destruct (is_devpath_busy m ev) as [busy m1] eqn:Hb.
    pose proof (is_devpath_busy_advances m ev Hinv) as H1. rewrite Hb in H1. cbn [snd] in H1.
    destruct busy.
    + eapply advances_then; [exact H1 | apply IH].
    + pose proof (is_devpath_busy_not_busy m ev Hinv Hin) as H2. rewrite Hb in H2.
      cbn [fst snd] in H2. rewrite H2 by done.
      eapply advances_then; [|apply IH]. apply event_run_advances; try done.
      by apply (f_equal fst) in Hb.
Qed.

Lemma event_queue_start_advances v m :
  manager_inv m -> advances m (event_queue_start v m).
Proof.
  intros Hinv. unfold event_queue_start.
  destruct (LIST_IS_EMPTY (events m) || exit m || stop_exec_queue m);
    [by apply advances_refl|].
  set (m1 := if (last_usec m =? 0) || _ then _ else m).
  assert (H1 : advances m m1).
  { unfold m1. destruct ((last_usec m =? 0) || _); [|by apply advances_refl].
    destruct (env_config_changed v).
    - eapply advances_then; [by apply manager_reload_advances|]. intros.
      by apply advances_frame.
    - by apply advances_frame. }
  eapply advances_then; [exact H1|]. intros Hinv1.
  eapply advances_then;
    [by apply (advances_frame m1 (set_kill_workers_event m1 None))|]. intros Hinv2.
  destruct (rules (set_kill_workers_event m1 None)).
  - by apply event_queue_start_loop_advances.
  - destruct (env_rules_new v); [|by apply advances_refl].
    eapply advances_then;
      [by apply (advances_frame _ (set_rules (set_kill_workers_event m1 None) true))|].
    intros Hinv3. by apply event_queue_start_loop_advances.
Qed.

Lemma on_ctrl_msg_rest_advances v m msg :
  manager_inv m -> advances m (on_ctrl_msg_rest v m msg).
Proof.
  intros Hinv. unfold on_ctrl_msg_rest.
  set (m1 := if ctrl_set_children_max msg >=? 0 then _ else m).
  assert (H1 : advances m m1).
  { unfold m1. destruct (ctrl_set_children_max msg >=? 0);
      [by apply advances_frame | by apply advances_refl]. }
  destruct (ctrl_exit msg >? 0); [|done].
  eapply advances_then; [exact H1|]. apply manager_exit_advances.
Qed.

Lemma on_ctrl_msg_advances v m msg : manager_inv m -> advances m (on_ctrl_msg v m msg).
Proof.
  intros Hinv. unfold on_ctrl_msg.
  set (m1 := if ctrl_set_log_level msg >=? 0 then manager_kill_workers m else m).
  assert (H1 : advances m m1).
  { unfold m1. destruct (ctrl_set_log_level msg >=? 0);
      [by apply manager_kill_workers_advances | by apply advances_refl]. }
  set (m2 := if ctrl_stop_exec_queue msg >? 0 then set_stop_exec_queue m1 true else m1).
  assert (H2 : advances m m2).
  { eapply advances_then; [exact H1|]. intros. unfold m2.
    destruct (ctrl_stop_exec_queue msg >? 0);
      [by apply advances_frame | by apply advances_refl]. }
  set (m3 := if ctrl_start_exec_queue msg >? 0
             then event_queue_start v (set_stop_exec_queue m2 false) else m2).
  assert (H3 : advances m m3).
  { eapply advances_then; [exact H2|]. intros. unfold m3.
    destruct (ctrl_start_exec_queue msg >? 0); [|by apply advances_refl].
    eapply advances_then; [by apply (advances_frame m2 (set_stop_exec_queue m2 false))|].
    apply event_queue_start_advances. }
  set (m4 := if ctrl_reload msg >? 0 then manager_reload m3 else m3).
  assert (H4 : advances m m4).
  { eapply advances_then; [exact H3|]. intros. unfold m4.
    destruct (ctrl_reload msg >? 0);
      [by apply manager_reload_advances | by apply advances_refl]. }
  destruct (ctrl_set_env msg) as [str|].
  - destruct (strchr_eq str) as [[key eq]|]; [|done].
    eapply advances_then; [exact H4|]. intros Hinv4.
    set (m5 := set_properties m4 _).
    set (m6 := if negb (isempty eq) then _ else _).
    assert (H6 : advances m4 m6).
    { unfold m6. destruct (negb (isempty eq)); by apply advances_frame. }
    eapply advances_then; [exact H6|]. intros Hinv6.
    eapply advances_then; [by apply manager_kill_workers_advances|].
    apply on_ctrl_msg_rest_advances.
  - eapply advances_then; [exact H4|]. apply on_ctrl_msg_rest_advances.
Qed.

Lemma on_sigchld_advances v m children :
  manager_inv m -> advances m (on_sigchld v m children).
Proof.
  intros Hinv. unfold on_sigchld.
  eapply advances_then;
    [apply (fold_left_advances on_sigchld_child);
       [apply on_sigchld_child_advances | done]|]. intros H1.
  eapply advances_then; [by apply event_queue_start_advances|]. intros H2.
  destruct (LIST_IS_EMPTY _); [by apply advances_frame | by apply advances_refl].
Qed.

Lemma on_worker_advances v m pids failed :
  manager_inv m -> advances m (on_worker v m pids failed).
Proof.
  intros Hinv. unfold on_worker.
  eapply advances_then;
    [apply (fold_left_advances on_worker_message);
       [apply on_worker_message_advances | done]|]. intros H1.
  destruct failed; [by apply advances_refl | by apply event_queue_start_advances].
Qed.

Lemma on_post_advances v m : manager_inv m -> advances m (on_post v m).
Proof.
  intros Hinv. unfold on_post.
  destruct (negb (LIST_IS_EMPTY (events m))); [by apply advances_refl|].
  destruct (negb (LIST_IS_EMPTY (workers m))); [by apply advances_frame|].
  destruct (exit m); [by apply advances_frame|].
  destruct (has_cgroup m); [by apply advances_emit | by apply advances_refl].
Qed.

Lemma dispatch_advances v m i :
  manager_inv m -> input_ok m i -> advances m (dispatch v m i).
Proof.
  intros Hinv Hok. destruct i; cbn [dispatch].
  - destruct Hok as (_ & [Hseq _] & Hnew). unfold on_uevent.
    eapply advances_then; [by apply event_queue_insert_advances|].
    apply event_queue_start_advances.
  - by apply on_worker_advances.
  - by apply on_ctrl_msg_advances.
  - by apply on_sigchld_advances.
  - by apply manager_exit_advances.
  - by apply manager_reload_advances.
  - by apply advances_frame.
  - by apply on_event_timeout_advances.
  - by apply advances_refl.
  - by apply manager_kill_workers_advances.
  - by apply advances_frame.
  - by apply on_post_advances.
Qed.

Lemma manager_new_inv cgroup children_max event_timeout_usec :
  manager_inv (manager_new cgroup children_max event_timeout_usec).
Proof.
  split; [|split].
  - split; [constructor|]. split; [constructor|]. split; constructor.
  - split; [constructor|]. split; [by intros ? ? []|by intros ? ? []].
  - constructor.
Qed.

Lemma reachable_inv m0 m : manager_inv m0 -> reachable m0 m -> manager_inv m.
Proof.
  intros H0. induction 1 as [|m v i Hr IH Hok]; [done|].
  by eapply advances_inv, dispatch_advances.
Qed.

(** ** Events of one device run in the order of their numbers *)





Lemma held_back_event m e1 e2 :
  manager_inv m -> In e1 (events m) -> In e2 (events m) ->
  ev_seqnum e1 < ev_seqnum e2 -> depends_on e2 e1 ->
  ev_state e2 = EVENT_QUEUED /\ fst (is_devpath_busy m e2) = true.
Proof.
  intros [Hq _] H1 H2 Hlt Hdep. pose proof Hq as (Hs & _ & _ & Hok).
  cbn [qview fst snd] in *. rewrite List.Forall_forall in Hok.
  destruct (Hok e2 H2) as (Hlen & Hb & Hcache & Hheld). split; [by apply (Hheld e1)|].
  cbn [is_devpath_busy fst].
  destruct (fst (is_devpath_busy_loop (events m) e2)) eqn:Hbusy; [done|].
  destruct (is_devpath_busy_loop_sound (events m) e2 Hs (queue_inv_len_ok _ _ Hq) Hlen Hcache)
    as (_ & _ & _ & _ & _ & _ & Hfree).
  by destruct (Hfree Hbusy e1 H1 Hlt).
Qed.


(** Inputs of the scenarios are ones the loop can dispatch. *)
Ltac input_dispatchable :=
  vm_compute;
  first [ eexists; split; [reflexivity | discriminate]
        | repeat split; try discriminate; repeat constructor ].

Ltac scenario_reachable :=
  repeat (apply reachable_step; [| input_dispatchable]);
  try apply reachable_init.


Lemma eth0_with_queue_reachable : reachable manager0 eth0_with_queue.
Proof. unfold eth0_with_queue. scenario_reachable. Qed.



Lemma eth0_timed_out_reachable : reachable manager0 eth0_timed_out.
Proof. unfold eth0_timed_out. scenario_reachable. Qed.

(** ** The cached blocker *)

Lemma is_devpath_busy_loop_delaying q e :
  ev_seqnum (snd (is_devpath_busy_loop q e)) = ev_seqnum e /\
  ev_delaying_seqnum e <= ev_delaying_seqnum (snd (is_devpath_busy_loop q e)) /\
  (ev_delaying_seqnum (snd (is_devpath_busy_loop q e)) = ev_delaying_seqnum e \/
   ev_delaying_seqnum (snd (is_devpath_busy_loop q e)) < ev_seqnum e).
Proof.
  induction q as [|x q IH]; cbn [is_devpath_busy_loop].
  - cbn [snd]. split; [done|]. split; [lia | by left].
  - destruct (Z.ltb_spec (ev_seqnum x) (ev_delaying_seqnum e)); [done|].
    destruct (Z.eqb_spec (ev_seqnum x) (ev_delaying_seqnum e));
      [cbn [snd]; split; [done|]; split; [lia | by left]|].
    rewrite Z.geb_leb. destruct (Z.leb_spec (ev_seqnum e) (ev_seqnum x));
      [cbn [snd]; split; [done|]; split; [lia | by left]|].
    assert (Hset : ev_seqnum (set_delaying_seqnum e (ev_seqnum x)) = ev_seqnum e /\
              ev_delaying_seqnum e <= ev_delaying_seqnum (set_delaying_seqnum e (ev_seqnum x)) /\
              (ev_delaying_seqnum (set_delaying_seqnum e (ev_seqnum x)) = ev_delaying_seqnum e \/
               ev_delaying_seqnum (set_delaying_seqnum e (ev_seqnum x)) < ev_seqnum e)).
    { cbn [set_delaying_seqnum ev_seqnum ev_delaying_seqnum]. split; [done|]. split; [lia | right; lia]. }
    assert (Hsame : ev_seqnum e = ev_seqnum e /\
              ev_delaying_seqnum e <= ev_delaying_seqnum e /\
              (ev_delaying_seqnum e = ev_delaying_seqnum e \/
               ev_delaying_seqnum e < ev_seqnum e)).
    { split; [done|]. split; [lia | by left]. }
    repeat match goal with
           | |- context [if ?c then _ else _] => destruct c; cbn [snd]; try done
           end.
Qed.

(** C8: the call of the busy predicate leaves the number of the event alone
    and its cached blocker [delaying_seqnum] at or above the old value and,
    where that was so before, at or below the number of the event, whatever
    the queue is.  In every state the manager can reach the cached blocker of
    an event of the queue lies between 0 and the number of the event, and
    over every callback of the event loop an event that stays in the queue
    keeps its number while its cached blocker does not decrease. *)
Theorem delaying_seqnum_monotone_bounded cgroup children_max event_timeout_usec m v i :
  reachable (manager_new cgroup children_max event_timeout_usec) m ->
  input_ok m i ->
  (forall q e,
     ev_seqnum (snd (is_devpath_busy_loop q e)) = ev_seqnum e /\
     ev_delaying_seqnum e <= ev_delaying_seqnum (snd (is_devpath_busy_loop q e)) /\
     (ev_delaying_seqnum e <= ev_seqnum e ->
      ev_delaying_seqnum (snd (is_devpath_busy_loop q e)) <= ev_seqnum e)) /\
  (forall e, In e (events m) -> 0 <= ev_delaying_seqnum e <= ev_seqnum e) /\
  (forall e e', In e (events m) -> In e' (events (dispatch v m i)) ->
     ev_addr e' = ev_addr e ->
     ev_seqnum e' = ev_seqnum e /\
     ev_delaying_seqnum e <= ev_delaying_seqnum e' <= ev_seqnum e').
Proof.
  intros Hr Hok.
  assert (Hinv : manager_inv m) by (eapply reachable_inv; [apply manager_new_inv | done]).
  split; [|split].
  - intros q e. destruct (is_devpath_busy_loop_delaying q e) as (H1 & H2 & H3).
    split; [done|]. split; [done | lia].
  - intros e He. destruct Hinv as [(_ & _ & _ & Hq) _]. cbn [qview snd] in Hq.
    rewrite List.Forall_forall in Hq. by apply (Hq e He).
  - intros e e' He He' Ha.
    destruct (dispatch_advances v m i Hinv Hok) as [Hstep [Hq' _]].
    destruct (queue_step_inv _ _ Hstep (proj1 Hinv)) as [_ [_ Hev]].
    destruct Hinv as [(_ & Hnd & Hlt & _) _]. cbn [qview fst snd] in *.
    rewrite List.Forall_forall in Hlt.
    destruct (Hev e' He') as (e0 & He0 & Hk & Hd).
    { rewrite Ha. by apply Hlt. }
    assert (e0 = e) as ->.
    { eapply NoDup_addr_inj; [done..|]. destruct Hk as (Hk & _). congruence. }
    destruct Hq' as (_ & _ & _ & Hq'). cbn [snd] in Hq'.
    rewrite List.Forall_forall in Hq'. destruct (Hq' e' He') as (_ & Hb & _).
    destruct Hk as (_ & Hs & _). split; [done | lia].
Qed.

Lemma delaying_seqnum_monotone_bounded_witness :
  let m := dispatch calm manager0 (InUevent eth0_removed) in
  (forall q e,
     ev_seqnum (snd (is_devpath_busy_loop q e)) = ev_seqnum e /\
     ev_delaying_seqnum e <= ev_delaying_seqnum (snd (is_devpath_busy_loop q e)) /\
     (ev_delaying_seqnum e <= ev_seqnum e ->
      ev_delaying_seqnum (snd (is_devpath_busy_loop q e)) <= ev_seqnum e)) /\
  (forall e, In e (events m) -> 0 <= ev_delaying_seqnum e <= ev_seqnum e) /\
  (forall e e', In e (events m) ->
     In e' (events (dispatch calm m (InUevent eth0_rx0))) ->
     ev_addr e' = ev_addr e ->
     ev_seqnum e' = ev_seqnum e /\
     ev_delaying_seqnum e <= ev_delaying_seqnum e' <= ev_seqnum e').
Proof.
  cbv zeta.
  apply (delaying_seqnum_monotone_bounded false 10 default_event_timeout_usec).
  - scenario_reachable.
  - input_dispatchable.
Defined.

(** ** The busy predicate and the reference algorithm *)

(** C2: on a queue of events as [event_queue_insert] builds them,
    [is_devpath_busy] returns what the reference algorithm of the
    specification returns and leaves in [delaying_seqnum] what the reference
    algorithm leaves there; nothing else of the event changes. *)
Theorem is_devpath_busy_computes_reference_algorithm queue e :
  devpath_len_ok e -> Forall devpath_len_ok queue ->
  is_devpath_busy_loop queue e =
  (fst (spec_is_busy queue e), set_delaying_seqnum e (snd (spec_is_busy queue e))).
Proof. apply is_devpath_busy_loop_spec. Qed.

Lemma is_devpath_busy_computes_reference_algorithm_witness :
  exists e,
    nth_event eth0_with_queue 1 = Some e /\
    is_devpath_busy_loop (events eth0_with_queue) e =
    (fst (spec_is_busy (events eth0_with_queue) e),
     set_delaying_seqnum e (snd (spec_is_busy (events eth0_with_queue) e))).
Proof.
  eexists. split; [vm_compute; reflexivity|].
  apply is_devpath_busy_computes_reference_algorithm.
  - reflexivity.
  - vm_compute. repeat constructor.
Defined.

(** ** The control channel: set-env *)

Lemma properties_event_free m p : properties (event_free m p) = properties m.
Proof.
  unfold event_free. destruct p as [a|]; [|done].
  destruct (find_event a (events m)) as [ev|]; [|done].
  destruct (ev_worker ev); by destruct (LIST_IS_EMPTY _).
Qed.

Lemma properties_manager_kill_workers m :
  properties (manager_kill_workers m) = properties m.
Proof.
  unfold manager_kill_workers. generalize (workers m) at 1. intros ws. revert m.
  induction ws as [|w ws IH]; intros m; cbn [fold_left]; [done|].
  destruct (worker_state_eqb (wk_state w) WORKER_KILLED); by rewrite IH.
Qed.

Lemma properties_event_queue_cleanup m ty :
  properties (event_queue_cleanup m ty) = properties m.
Proof.
  unfold event_queue_cleanup. generalize (events m) at 1. intros evs. revert m.
  induction evs as [|ev evs IH]; intros m; cbn [fold_left]; [done|].
  destruct (_ && _); rewrite IH; [done | apply properties_event_free].
Qed.

Lemma properties_manager_exit v m : properties (manager_exit v m) = properties m.
Proof.
  unfold manager_exit. cbn [properties set_exit_timeout].
  by rewrite properties_manager_kill_workers, properties_event_queue_cleanup.
Qed.

Lemma properties_manager_reload m : properties (manager_reload m) = properties m.
Proof. unfold manager_reload. cbn [properties set_rules]. apply properties_manager_kill_workers. Qed.

Lemma properties_worker_spawn v m a : properties (worker_spawn v m a) = properties m.
Proof.
  unfold worker_spawn. destruct (env_spawn v a) as [| |pid]; [done..|].
  by destruct (hashmap_get _ _).
Qed.

Lemma properties_event_run_workers v e ws m :
  properties (fst (event_run_workers v e ws m)) = properties m.
Proof.
  revert m. induction ws as [|w ws IH]; intros m; cbn [event_run_workers]; [done|].
  destruct (negb (worker_state_eqb _ _)); [apply IH|].
  destruct (negb (env_send _ _ _)); [by rewrite IH | done].
Qed.

Lemma properties_event_run v m e : properties (event_run v m e) = properties m.
Proof.
  unfold event_run. pose proof (properties_event_run_workers v e (workers m) m) as H.
  destruct (event_run_workers v e (workers m) m) as [m1 attached]. cbn [fst] in H.
  destruct attached; [done|]. destruct (_ >=? _); [done|].
  by rewrite properties_worker_spawn.
Qed.

Lemma properties_event_queue_start_loop v todo m :
  properties (event_queue_start_loop v todo m) = properties m.
Proof.
  revert m. induction todo as [|a todo IH]; intros m; cbn [event_queue_start_loop]; [done|].
  destruct (find_event a (events m)) as [ev|]; [|apply IH].
  destruct (negb (event_state_eqb _ _)); [apply IH|].
  cbn [is_devpath_busy]. destruct (fst _); rewrite IH; [done|].
  by rewrite properties_event_run.
Qed.

Lemma properties_event_queue_start v m : properties (event_queue_start v m) = properties m.
Proof.
  unfold event_queue_start. destruct (_ || _ || _); [done|].
  set (m1 := if (last_usec m =? 0) || _ then _ else m).
  assert (H1 : properties m1 = properties m).
  { unfold m1. destruct ((last_usec m =? 0) || _); [|done]. cbn [properties set_last_usec].
    destruct (env_config_changed v); [apply properties_manager_reload | done]. }
  destruct (rules _); [by rewrite properties_event_queue_start_loop|].
  destruct (env_rules_new v); [|done]. by rewrite properties_event_queue_start_loop.
Qed.

Lemma properties_on_ctrl_msg_rest v m msg :
  properties (on_ctrl_msg_rest v m msg) = properties m.
Proof.
  unfold on_ctrl_msg_rest. destruct (ctrl_exit msg >? 0).
  - rewrite properties_manager_exit. by destruct (ctrl_set_children_max msg >=? 0).
  - by destruct (ctrl_set_children_max msg >=? 0).
Qed.

(** Who is killed stays killed when events are freed. *)
Lemma killed_event_free m p :
  Forall killed (workers m) -> Forall killed (workers (event_free m p)).
Proof.
  intros Hk. unfold event_free. destruct p as [a|]; [|done].
  destruct (find_event a (events m)) as [ev|]; [|done].
  assert (forall pid, Forall killed (update_worker pid (set_wk_event None) (workers m))).
  { intros pid. rewrite List.Forall_forall in *. intros w' Hw'.
    apply in_update_worker in Hw' as (w & Hw & ->).
    destruct (wk_pid w =? pid); exact (Hk w Hw). }
  destruct (ev_worker ev); destruct (LIST_IS_EMPTY _);
    cbn [workers emit set_workers set_events]; auto.
Qed.

Lemma killed_event_queue_cleanup m ty :
  Forall killed (workers m) -> Forall killed (workers (event_queue_cleanup m ty)).
Proof.
  unfold event_queue_cleanup. generalize (events m) at 1. intros evs. revert m.
  induction evs as [|ev evs IH]; intros m Hk; cbn [fold_left]; [done|].
  destruct (_ && _); apply IH; [done | by apply killed_event_free].
Qed.

(** [manager_kill_workers] over the workers [ws] that are left to visit:
    who is not killed in the end was not to be visited. *)
Lemma manager_kill_workers_fold_killed ws m w' :
  In w'
    (workers
       (fold_left
          (fun m w =>
             if worker_state_eqb (wk_state w) WORKER_KILLED then m
             else
               let m := set_workers m
                          (update_worker (wk_pid w) (set_wk_state WORKER_KILLED)
                             (workers m)) in
               emit m (Kill (wk_pid w) SIGTERM))
          ws m)) ->
  killed w' \/
  (In w' (workers m) /\
   forall w, In w ws -> wk_state w <> WORKER_KILLED -> wk_pid w <> wk_pid w').
Proof.
  revert m. induction ws as [|w ws IH]; intros m; cbn [fold_left].
  - intros Hin. right. by split.
  - destruct (worker_state_eqb (wk_state w) WORKER_KILLED) eqn:Hst.
    + intros Hin. destruct (IH _ Hin) as [Hk|[H1 H2]]; [by left|]. right.
      split; [done|]. intros w0 [<-|Hw0] Hnk; [by destruct (wk_state w) | by apply H2].
    + intros Hin. destruct (IH _ Hin) as [Hk|[H1 H2]]; [by left|].
      cbn [workers emit set_workers] in H1.
      apply in_update_worker in H1 as (w1 & Hw1 & ->).
      destruct (Z.eqb_spec (wk_pid w1) (wk_pid w)) as [Heq|Hne]; [by left|]. right.
      split; [done|]. intros w0 [<-|Hw0] Hnk; [congruence | by apply H2].
Qed.

Lemma manager_kill_workers_all_killed m : Forall killed (workers (manager_kill_workers m)).
Proof.
  apply List.Forall_forall. intros w' Hw'.
  destruct (manager_kill_workers_fold_killed _ _ _ Hw') as [Hk|[H1 H2]]; [done|].
  destruct (wk_state w') eqn:Hst; try done; by destruct (H2 w' H1); rewrite ?Hst.
Qed.

Lemma killed_on_ctrl_msg_rest v m msg :
  Forall killed (workers m) -> Forall killed (workers (on_ctrl_msg_rest v m msg)).
Proof.
  intros Hk. unfold on_ctrl_msg_rest. destruct (ctrl_exit msg >? 0).
  - unfold manager_exit. cbn [workers set_exit_timeout]. apply manager_kill_workers_all_killed.
  - by destruct (ctrl_set_children_max msg >=? 0).
Qed.

(** Every worker that [manager_kill_workers] finds not yet killed is sent
    SIGTERM. *)
Lemma manager_kill_workers_fold_sigterm ws m x :
  (In x (trace m) \/
   exists w, In w ws /\ wk_state w <> WORKER_KILLED /\ x = Kill (wk_pid w) SIGTERM) ->
  In x
    (trace
       (fold_left
          (fun m w =>
             if worker_state_eqb (wk_state w) WORKER_KILLED then m
             else
               let m := set_workers m
                          (update_worker (wk_pid w) (set_wk_state WORKER_KILLED)
                             (workers m)) in
               emit m (Kill (wk_pid w) SIGTERM))
          ws m)).
Proof.
  revert m. induction ws as [|w ws IH]; intros m; cbn [fold_left].
  - intros [H|(w & [] & _)]. done.
  - intros [H|(w0 & [<-|Hw0] & Hnk & ->)].
    + destruct (worker_state_eqb (wk_state w) WORKER_KILLED); apply IH; left; [done|].
      by right.
    + destruct (worker_state_eqb (wk_state w) WORKER_KILLED) eqn:Hst;
        [by destruct (wk_state w)|]. apply IH. left. by left.
    + apply IH. right. by exists w0.
Qed.

Lemma manager_kill_workers_sigterm m w :
  In w (workers m) -> wk_state w <> WORKER_KILLED ->
  In (Kill (wk_pid w) SIGTERM) (trace (manager_kill_workers m)).
Proof. intros Hw Hnk. apply manager_kill_workers_fold_sigterm. right. by exists w. Qed.

(** C3 (amended): a set-env message with a string [key=value] drops the
    binding of [key] in the property overrides and binds [key] anew, to a
    the value or to the null marker that tells the workers to unset the
    property; no other key changes, and afterwards every worker of the pool is
    KILLED.  When the message carries nothing but set-env, the manager is the
    old one with that binding after [manager_kill_workers], which marks every
    worker and sends SIGTERM to those it finds not yet killed.  A string
    without '=' leaves the map as it was. *)
Theorem set_env_rebinds_key v m msg str :
  ctrl_set_env msg = Some str ->
  match strchr_eq str with
  | Some (key, val) =>
    exists binding,
      (binding = None \/ binding = Some val) /\
      properties (on_ctrl_msg v m msg) = <[key := binding]> (properties m) /\
      Forall killed (workers (on_ctrl_msg v m msg)) /\
      (msg = set_env_msg str ->
       on_ctrl_msg v m msg =
       manager_kill_workers (set_properties m (<[key := binding]> (properties m))) /\
       forall w, In w (workers m) -> wk_state w <> WORKER_KILLED ->
                 In (Kill (wk_pid w) SIGTERM) (trace (on_ctrl_msg v m msg)))
  | None => properties (on_ctrl_msg v m msg) = properties m
  end.
Proof.
  intros Henv. unfold on_ctrl_msg. rewrite Henv.
  set (m1 := if ctrl_set_log_level msg >=? 0 then manager_kill_workers m else m).
  set (m2 := if ctrl_stop_exec_queue msg >? 0 then set_stop_exec_queue m1 true else m1).
  set (m3 := if ctrl_start_exec_queue msg >? 0
             then event_queue_start v (set_stop_exec_queue m2 false) else m2).
  set (m4 := if ctrl_reload msg >? 0 then manager_reload m3 else m3).
  assert (H4 : properties m4 = properties m).
  { unfold m4, m3, m2, m1.
    destruct (ctrl_reload msg >? 0); rewrite ?properties_manager_reload;
      (destruct (ctrl_start_exec_queue msg >? 0); rewrite ?properties_event_queue_start;
       cbn [properties set_stop_exec_queue];
       destruct (ctrl_stop_exec_queue msg >? 0); cbn [properties set_stop_exec_queue];
       destruct (ctrl_set_log_level msg >=? 0);
       by rewrite ?properties_manager_kill_workers). }
  destruct (strchr_eq str) as [[key val]|]; [|done].
  exists (if negb (isempty val) then None else Some val).
  split; [destruct (negb (isempty val)); [by left | by right]|]. split; [|split].
  - rewrite properties_on_ctrl_msg_rest, properties_manager_kill_workers.
    destruct (negb (isempty val)); cbn [properties set_properties];
      by rewrite insert_delete_eq, H4.
  - apply killed_on_ctrl_msg_rest, manager_kill_workers_all_killed.
  - intros ->. cbn in m1, m2, m3, m4. subst m1 m2 m3 m4. split.
    + unfold on_ctrl_msg_rest. cbn [set_env_msg ctrl_set_children_max ctrl_exit].
      change (0 >? 0) with false. change (-1 >=? 0) with false. cbv iota.
      destruct (negb (isempty val)); cbn [properties set_properties];
        rewrite insert_delete_eq; f_equal; by destruct m.
    + intros w Hw Hnk. unfold on_ctrl_msg_rest.
      cbn [set_env_msg ctrl_set_children_max ctrl_exit].
      change (0 >? 0) with false. change (-1 >=? 0) with false. cbv iota.
      apply manager_kill_workers_sigterm; [|done].
      by destruct (negb (isempty val)).
Qed.

Lemma set_env_rebinds_key_witness :
  exists binding,
    (binding = None \/ binding = Some "bar"%string) /\
    properties (on_ctrl_msg calm eth0_swapped (set_env_msg "FOO=bar")) =
    <["FOO"%string := binding]> (properties eth0_swapped) /\
    Forall killed (workers (on_ctrl_msg calm eth0_swapped (set_env_msg "FOO=bar"))) /\
    (set_env_msg "FOO=bar" = set_env_msg "FOO=bar" ->
     on_ctrl_msg calm eth0_swapped (set_env_msg "FOO=bar") =
     manager_kill_workers
       (set_properties eth0_swapped (<["FOO"%string := binding]> (properties eth0_swapped))) /\
     forall w, In w (workers eth0_swapped) -> wk_state w <> WORKER_KILLED ->
               In (Kill (wk_pid w) SIGTERM)
                  (trace (on_ctrl_msg calm eth0_swapped (set_env_msg "FOO=bar")))).
Proof.
  apply (set_env_rebinds_key calm eth0_swapped (set_env_msg "FOO=bar") "FOO=bar").
  reflexivity.
Defined.

(** C3 as stated fails: [FOO=bar] binds FOO to the null marker, not to
    [bar], and [FOO=] binds FOO to the empty string instead of removing
    it. *)
Lemma set_env_stores_null_for_value :
  properties (on_ctrl_msg calm manager0 (set_env_msg "FOO=bar")) !! "FOO"%string
    = Some None /\
  properties (on_ctrl_msg calm manager0 (set_env_msg "FOO=")) !! "FOO"%string
    = Some (Some ""%string).
Proof. split; by vm_compute. Qed.

(** ** The default of children_max *)

(** C4 (amended): when children_max is not set, its default is
    [max(10, min(8 + 8 * nCPUs, physical_memory / (128 * 2^20)))], for every
    CPU count of the affinity mask and every amount of memory; that is the
    formula of the specification whenever the limit derived from the memory is
    at least 10, and 10 when the limit is below. *)
Theorem default_children_max_formula cpu_count physical_memory :
  0 <= cpu_count -> 8 + 8 * cpu_count < 2 ^ 32 -> 0 <= physical_memory ->
  main_children_max 0 (Some cpu_count) physical_memory =
    Z.max 10 (Z.min (8 + 8 * cpu_count) (physical_memory / (128 * 2 ^ 20))) /\
  (10 <= physical_memory / (128 * 2 ^ 20) ->
   main_children_max 0 (Some cpu_count) physical_memory =
     claimed_children_max cpu_count physical_memory) /\
  (physical_memory / (128 * 2 ^ 20) < 10 ->
   main_children_max 0 (Some cpu_count) physical_memory = 10).
Proof.
  intros Hc Hb Hm. unfold main_children_max, default_children_max, claimed_children_max.
  cbn [Z.eqb]. change (128 * 1024 * 1024) with (128 * 2 ^ 20).
  assert (Hd : 0 <= physical_memory / (128 * 2 ^ 20)) by (apply Z.div_pos; lia).
  set (d := physical_memory / (128 * 2 ^ 20)) in *.
  unfold wrap32. rewrite (Z.mod_small (cpu_count * 8)) by lia.
  rewrite (Z.mod_small (8 + cpu_count * 8)) by lia.
  rewrite Z.mod_small by lia. lia.
Qed.

Lemma default_children_max_formula_witness :
  main_children_max 0 (Some 4) (8 * 2 ^ 30) =
    Z.max 10 (Z.min (8 + 8 * 4) (8 * 2 ^ 30 / (128 * 2 ^ 20))) /\
  (10 <= 8 * 2 ^ 30 / (128 * 2 ^ 20) ->
   main_children_max 0 (Some 4) (8 * 2 ^ 30) = claimed_children_max 4 (8 * 2 ^ 30)) /\
  (8 * 2 ^ 30 / (128 * 2 ^ 20) < 10 ->
   main_children_max 0 (Some 4) (8 * 2 ^ 30) = 10).
Proof. apply (default_children_max_formula 4 (8 * 2 ^ 30)); lia. Defined.

(** C4 as stated fails: with 4 CPUs and 512 MiB of memory the limit derived
    from the memory is 4, the formula of the specification gives 4, and
    [main] sets 10. *)
Lemma children_max_floor_is_ten :
  main_children_max 0 (Some 4) (512 * 2 ^ 20) = 10 /\
  claimed_children_max 4 (512 * 2 ^ 20) = 4.
Proof. split; reflexivity. Qed.

(** ** The descriptors handed in by the service manager *)

Lemma ctrl_fd_not_netlink d : is_ctrl_fd d = true -> is_netlink_fd d = false.
Proof.
  unfold is_ctrl_fd, is_netlink_fd, sd_is_socket, AF_LOCAL, AF_NETLINK.
  destruct (fd_is_socket d); [|done]. cbn [andb].
  destruct (Z.eqb_spec (fd_family d) 1) as [->|]; [done|]. by cbn.
Qed.

(** The loop of [listen_fds] from descriptor [fd] on, entered with [c] and
    [k] in [ctrl_fd] and [netlink_fd]. *)
Lemma listen_fds_loop_spec table count fd c k :
  0 <= fd -> c = -1 \/ 0 <= c -> k = -1 \/ 0 <= k ->
  match listen_fds_loop table count fd c k with
  | (r, c', k') =>
    (r = 0 \/ r = - EINVAL) /\
    (r = 0 <->
     count_fds is_other_fd table count fd = O /\
     (count_fds is_ctrl_fd table count fd + (if (0 <=? c)%Z then 1 else 0) <= 1)%nat /\
     (count_fds is_netlink_fd table count fd + (if (0 <=? k)%Z then 1 else 0) <= 1)%nat) /\
    (r = 0 ->
     (if Nat.eqb (count_fds is_ctrl_fd table count fd) 0 then c' = c
      else fd <= c' < fd + Z.of_nat count /\ is_ctrl_fd (table c') = true) /\
     (if Nat.eqb (count_fds is_netlink_fd table count fd) 0 then k' = k
      else fd <= k' < fd + Z.of_nat count /\ is_netlink_fd (table k') = true))
  end.
Proof.
  revert fd c k. induction count as [|count IH]; intros fd c k Hfd Hc Hk.
  - cbn [listen_fds_loop count_fds]. split; [by left|]. split; [|done].
    split; [intros _|done].
    split; [done|]. split; [destruct (0 <=? c) | destruct (0 <=? k)]; cbn; lia.
  - cbn [listen_fds_loop count_fds].
    change (is_other_fd (table fd))
      with (negb (is_ctrl_fd (table fd)) && negb (is_netlink_fd (table fd))).
    fold (is_ctrl_fd (table fd)). fold (is_netlink_fd (table fd)).
    destruct (is_ctrl_fd (table fd)) eqn:Hctrl.
    + rewrite (ctrl_fd_not_netlink _ Hctrl). cbn [negb andb].
      rewrite Z.geb_leb. destruct (Z.leb_spec 0 c) as [Hc0|Hc0].
      * split; [by right|]. split; [|done]. split; [done|]. cbn. lia.
      * specialize (IH (fd + 1) fd k). destruct (listen_fds_loop _ _ _ _ _) as [[r c'] k'].
        destruct IH as (I1 & I2 & I3); [lia | right; lia | done|].
        replace (0 <=? fd) with true in I2 by (symmetry; apply Z.leb_le; lia).
        split; [done|]. split.
        -- rewrite I2. cbn [Nat.add]. destruct (0 <=? k).
           all: split; intros (? & ? & ?); repeat split; try done. all: lia.
        -- intros Hr. destruct (I3 Hr) as [J1 J2]. apply I2 in Hr as (_ & Hone & _).
           split.
           ++ cbn [Nat.add Nat.eqb].
              destruct (Nat.eqb_spec (count_fds is_ctrl_fd table count (fd + 1)) 0) as [Hz|Hz];
                [|lia]. subst c'. split; [lia | done].
           ++ revert J2. cbn [Nat.add].
              destruct (Nat.eqb (count_fds is_netlink_fd table count (fd + 1)) 0);
                [done|].
              intros [? ?]. split; [lia | done].
    + cbn [negb andb]. destruct (is_netlink_fd (table fd)) eqn:Hnl.
      * cbn [negb]. rewrite Z.geb_leb. destruct (Z.leb_spec 0 k) as [Hk0|Hk0].
        -- split; [by right|]. split; [|done]. split; [done|]. cbn. lia.
        -- specialize (IH (fd + 1) c fd).
           destruct (listen_fds_loop _ _ _ _ _) as [[r c'] k'].
           destruct IH as (I1 & I2 & I3); [lia | done | right; lia|].
           replace (0 <=? fd) with true in I2 by (symmetry; apply Z.leb_le; lia).
           split; [done|]. split.
           ++ rewrite I2. cbn [Nat.add]. destruct (0 <=? c).
              all: split; intros (? & ? & ?); repeat split; try done; lia.
           ++ intros Hr. destruct (I3 Hr) as [J1 J2]. apply I2 in Hr as (_ & _ & Hone).
              split.
              ** revert J1. cbn [Nat.add].
                 destruct (Nat.eqb (count_fds is_ctrl_fd table count (fd + 1)) 0);
                   [done|].
                 intros [? ?]. split; [lia | done].
              ** cbn [Nat.add Nat.eqb].
                 destruct (Nat.eqb_spec (count_fds is_netlink_fd table count (fd + 1)) 0)
                   as [Hz|Hz]; [|lia]. subst k'. split; [lia | done].
      * cbn [negb]. split; [by right|]. split; [|done]. split; [done|]. cbn. lia.
Qed.

(** C9 (amended): [listen_fds] returns 0 exactly when [sd_listen_fds]
    succeeded, every descriptor handed in is an AF_LOCAL/SOCK_SEQPACKET or an
    AF_NETLINK/SOCK_RAW socket, and there is at most one of each kind; a
    descriptor of another kind or a second one of a kind makes it return a
    negative value without results.  A kind that is missing is no error: the
    result for it is -1; a kind that is there is returned as its
    descriptor. *)
Theorem listen_fds_accepts_at_most_one_of_each n table :
  (fst (listen_fds n table) = 0 <->
   0 <= n /\ passed is_other_fd n table = O /\
   (passed is_ctrl_fd n table <= 1)%nat /\ (passed is_netlink_fd n table <= 1)%nat) /\
  (fst (listen_fds n table) <> 0 ->
   fst (listen_fds n table) < 0 /\ snd (listen_fds n table) = None) /\
  (forall c k, listen_fds n table = (0, Some (c, k)) ->
     (if Nat.eqb (passed is_ctrl_fd n table) 0 then c = -1
      else SD_LISTEN_FDS_START <= c < SD_LISTEN_FDS_START + n
           /\ is_ctrl_fd (table c) = true) /\
     (if Nat.eqb (passed is_netlink_fd n table) 0 then k = -1
      else SD_LISTEN_FDS_START <= k < SD_LISTEN_FDS_START + n
           /\ is_netlink_fd (table k) = true)).
Proof.
  unfold listen_fds, passed. destruct (Z.ltb_spec n 0) as [Hn|Hn].
  { cbn [fst snd]. split; [split; [lia | intros [? _]; lia]|]. split; [done|].
    intros c k [= ? ?]. }
  pose proof (listen_fds_loop_spec table (Z.to_nat n) SD_LISTEN_FDS_START (-1) (-1)) as H.
  destruct (listen_fds_loop _ _ _ _ _) as [[r c'] k'].
  destruct H as ([Hr|Hr] & H2 & H3); [done | by left | by left | |].
  - subst r. cbn [Z.ltb Z.compare fst snd]. split; [|split; [done|]].
    + split; [intros _|done]. destruct (proj1 H2 eq_refl) as (? & ? & ?).
      cbn in *. repeat split; try done; lia.
    + intros c k [= <- <-]. destruct (H3 eq_refl) as [J1 J2].
      rewrite Z2Nat.id in J1, J2 by done. done.
  - subst r. cbn [fst snd]. unfold EINVAL. cbn [Z.opp Z.ltb Z.compare fst snd].
    split; [|split; [done|]].
    + split; [done|]. intros (_ & ? & ? & ?).
      assert (- 22 = 0); [|done]. apply H2. cbn. repeat split; try done; lia.
    + intros c k [= ?].
Qed.

(** C9 as stated fails: with a netlink socket as the only descriptor
    handed in, and with none at all, [listen_fds] succeeds and reports -1 for
    what is missing. *)
Lemma listen_fds_accepts_missing_socket :
  listen_fds 1 (fun _ => netlink_socket) = (0, Some (-1, 3)) /\
  passed is_ctrl_fd 1 (fun _ => netlink_socket) = O /\
  listen_fds 0 (fun _ => netlink_socket) = (0, Some (-1, -1)).
Proof. repeat split; reflexivity. Qed.

(** ** The monitor of the manager *)





















(** ** Reaping a worker *)







(** ** The timers of an event *)

Lemma find_event_update a f q ev :
  (forall e, ev_addr (f e) = ev_addr e) ->
  find_event a q = Some ev -> find_event a (update_event a f q) = Some (f ev).
Proof.
  intros Hf. unfold find_event, update_event.
  induction q as [|e q IH]; cbn [List.find List.map]; [done|].
  destruct (Nat.eqb_spec (ev_addr e) a) as [Ha|Ha].
  - intros [= ->]. by rewrite Hf, Ha, Nat.eqb_refl.
  - intros H. apply Nat.eqb_neq in Ha. rewrite Ha. by apply IH.
Qed.

Lemma DIV_ROUND_UP_3 t : DIV_ROUND_UP t 3 = (t + 2) / 3.
Proof.
  unfold DIV_ROUND_UP.
  pose proof (Z.div_mod t 3 ltac:(lia)) as Hdm. pose proof (Z.mod_pos_bound t 3 ltac:(lia)).
  destruct (Z.ltb_spec 0 (t mod 3)).
  - apply (Z.div_unique _ _ _ (t mod 3 - 1)); lia.
  - apply (Z.div_unique _ _ _ 2); lia.
Qed.

(** C7 (amended): for every value of the event timeout, when an event is
    attached to a worker at time [usec], its warning timer is set to [usec]
    plus the event timeout divided by 3 and rounded up, and its kill timer to
    [usec] plus the event timeout, both sums taken in the 64 bits of
    [usec_t]: they are the exact sums when [usec] plus the timeout fits in 64
    bits, and wrap around otherwise.  The third of the timeout is exact when
    the timeout is a multiple of 3 microseconds, as the default of 180 s is,
    and one microsecond above the quotient otherwise.  The warning handler
    changes nothing; the kill handler sends SIGKILL to the worker of the
    event and marks it KILLED, and leaves the queue, with the event in it, as
    it is. *)
Theorem event_timers usec m pid a ev :
  find_event a (events m) = Some ev ->
  (exists ev',
     find_event a (events (worker_attach_event usec m pid a)) = Some ev' /\
     ev_timeout_warning ev' = Some (wrap64 (usec + (arg_event_timeout_usec m + 2) / 3)) /\
     ev_timeout ev' = Some (wrap64 (usec + arg_event_timeout_usec m))) /\
  (0 <= usec -> 0 <= arg_event_timeout_usec m ->
   usec + arg_event_timeout_usec m < 2 ^ 64 ->
   wrap64 (usec + (arg_event_timeout_usec m + 2) / 3)
   = usec + (arg_event_timeout_usec m + 2) / 3 /\
   wrap64 (usec + arg_event_timeout_usec m) = usec + arg_event_timeout_usec m) /\
  (arg_event_timeout_usec m mod 3 = 0 ->
   (arg_event_timeout_usec m + 2) / 3 = arg_event_timeout_usec m / 3) /\
  (arg_event_timeout_usec m mod 3 <> 0 ->
   (arg_event_timeout_usec m + 2) / 3 = arg_event_timeout_usec m / 3 + 1) /\
  udev_warn_timeout default_event_timeout_usec = 60 * USEC_PER_SEC /\
  on_event_timeout_warning m a = m /\
  (forall pid', ev_worker ev = Some pid' ->
     trace (on_event_timeout m a) = KillAndSigcont pid' SIGKILL :: trace m /\
     events (on_event_timeout m a) = events m /\
     forall w, In w (workers (on_event_timeout m a)) -> wk_pid w = pid' ->
               wk_state w = WORKER_KILLED).
Proof.
  intros Hev. split; [|split; [|split; [|split; [|split; [|split]]]]].
  - exists (attach_to_worker ev pid
              (wrap64 (usec + udev_warn_timeout (arg_event_timeout_usec m)))
              (wrap64 (usec + arg_event_timeout_usec m))).
    split.
    { unfold worker_attach_event. cbn [events set_events arg_event_timeout_usec set_workers].
      by apply (find_event_update a
                  (fun e => attach_to_worker e pid
                     (wrap64 (usec + udev_warn_timeout (arg_event_timeout_usec m)))
                     (wrap64 (usec + arg_event_timeout_usec m)))). }
    cbn [attach_to_worker ev_timeout_warning ev_timeout]. unfold udev_warn_timeout.
    by rewrite DIV_ROUND_UP_3.
  - intros Hu Ht Hb. unfold wrap64.
    assert ((arg_event_timeout_usec m + 2) / 3 <= arg_event_timeout_usec m).
    { destruct (Z.eq_dec (arg_event_timeout_usec m) 0) as [->|]; [done|].
      apply Z.div_le_upper_bound; lia. }
    assert (0 <= (arg_event_timeout_usec m + 2) / 3) by (apply Z.div_pos; lia).
    rewrite !Z.mod_small by lia. done.
  - intros Hmod. pose proof (Z.div_mod (arg_event_timeout_usec m) 3 ltac:(lia)).
    symmetry. apply (Z.div_unique _ _ _ 2); lia.
  - intros Hmod. pose proof (Z.div_mod (arg_event_timeout_usec m) 3 ltac:(lia)).
    pose proof (Z.mod_pos_bound (arg_event_timeout_usec m) 3 ltac:(lia)).
    symmetry. apply (Z.div_unique _ _ _ (arg_event_timeout_usec m mod 3 - 1)); lia.
  - reflexivity.
  - reflexivity.
  - intros pid' Hwk. unfold on_event_timeout. rewrite Hev, Hwk.
    cbn [trace events workers set_workers emit]. split; [done|]. split; [done|].
    intros w Hw Hp. apply in_update_worker in Hw as (w0 & Hw0 & ->).
    destruct (Z.eqb_spec (wk_pid w0) pid'); [done|]. congruence.
Qed.

Lemma event_timers_witness :
  exists ev',
    find_event 0
      (events (worker_attach_event 1000 (event_queue_insert manager0 eth0_removed) 100 0))
    = Some ev' /\
    ev_timeout_warning ev' =
      Some (wrap64
              (1000 + (arg_event_timeout_usec (event_queue_insert manager0 eth0_removed) + 2) / 3))
    /\
    ev_timeout ev' =
      Some (wrap64 (1000 + arg_event_timeout_usec (event_queue_insert manager0 eth0_removed))).
Proof.
  eapply (event_timers 1000 (event_queue_insert manager0 eth0_removed) 100 O).
  vm_compute. reflexivity.
Defined.

(** C7 as stated fails: with an event timeout of 10 s the warning timer is
    set 3333334 microseconds after now, and a third of the timeout is
    3333333 microseconds (and a third of a microsecond). *)
Lemma warning_timer_rounds_up :
  List.map ev_timeout_warning
    (events (dispatch calm (manager_new false 10 (10 * USEC_PER_SEC))
               (InUevent eth0_removed)))
  = [Some (env_now calm + 3333334)] /\
  10 * USEC_PER_SEC / 3 = 3333333 /\ 3 * 3333334 <> 10 * USEC_PER_SEC.
Proof. repeat split; by vm_compute. Qed.

(** ** The cap on the number of workers *)

(** The loop over the workers of [event_run] neither adds nor removes a
    worker, leaves the cap alone, and forks nothing. *)
Lemma event_run_workers_pool v e ws m :
  List.map wk_pid (workers (fst (event_run_workers v e ws m))) = List.map wk_pid (workers m) /\
  arg_children_max (fst (event_run_workers v e ws m)) = arg_children_max m /\
  (forall pid, In (Fork pid) (trace (fst (event_run_workers v e ws m))) ->
               In (Fork pid) (trace m)).
Proof.
  revert m. induction ws as [|w ws IH]; intros m; cbn [event_run_workers]; [done|].
  destruct (negb (worker_state_eqb (wk_state w) WORKER_IDLE)); [apply IH|].
  destruct (negb (env_send v (wk_pid w) (ev_addr e))).
  - destruct (IH (set_workers (emit m (Kill (wk_pid w) SIGKILL))
                    (update_worker (wk_pid w) (set_wk_state WORKER_KILLED)
                       (workers (emit m (Kill (wk_pid w) SIGKILL))))))
      as (I1 & I2 & I3).
    split; [|split; [done|]].
    + rewrite I1. cbn [workers set_workers emit]. by apply update_worker_pids.
    + intros pid Hin. destruct (I3 pid Hin) as [Hk|Hk]; [done | exact Hk].
  - cbn [fst worker_attach_event workers set_events set_workers emit arg_children_max trace].
    split; [by apply update_worker_pids|]. split; [done|].
    intros pid [Hk|Hk]; [done | exact Hk].
Qed.

Lemma event_run_workers_no_idle v e ws m :
  Forall (fun w => wk_state w <> WORKER_IDLE) ws -> event_run_workers v e ws m = (m, false).
Proof.
  induction 1 as [|w ws Hw Hws IH]; cbn [event_run_workers]; [done|].
  destruct (wk_state w); try done.
Qed.

(** C10: when the pool holds at least children_max workers, whatever their
    states, [event_run] forks no worker and the pool keeps the workers it has;
    when in addition none of them is IDLE (all of them killed and not yet
    reaped, say) [event_run] changes nothing at all, so the event stays
    QUEUED. *)
Theorem spawn_cap_counts_every_worker v m ev :
  arg_children_max m <= hashmap_size (workers m) ->
  List.map wk_pid (workers (event_run v m ev)) = List.map wk_pid (workers m) /\
  (forall pid, In (Fork pid) (trace (event_run v m ev)) -> In (Fork pid) (trace m)) /\
  (Forall (fun w => wk_state w <> WORKER_IDLE) (workers m) -> event_run v m ev = m).
Proof.
  intros Hcap. unfold event_run.
  pose proof (event_run_workers_pool v ev (workers m) m) as (H1 & H2 & H3).
  pose proof (event_run_workers_no_idle v ev (workers m) m) as H4.
  destruct (event_run_workers v ev (workers m) m) as [m1 attached]. cbn [fst] in *.
  assert (Hsize : (hashmap_size (workers m1) >=? arg_children_max m1) = true).
  { rewrite Z.geb_leb. apply Z.leb_le. rewrite H2. unfold hashmap_size in *.
    rewrite <- (List.length_map wk_pid), H1, List.length_map. done. }
  rewrite Hsize. split; [by destruct attached|]. split; [by destruct attached|].
  intros Hidle. specialize (H4 Hidle). by injection H4 as -> ->.
Qed.

Lemma spawn_cap_counts_every_worker_witness :
  exists ev,
    nth_event one_killed_worker 1 = Some ev /\
    ev_state ev = EVENT_QUEUED /\
    workers one_killed_worker =
      [{| wk_pid := 100; wk_state := WORKER_KILLED; wk_event := Some O |}] /\
    List.map wk_pid (workers (event_run calm one_killed_worker ev))
      = List.map wk_pid (workers one_killed_worker) /\
    (forall pid, In (Fork pid) (trace (event_run calm one_killed_worker ev)) ->
                 In (Fork pid) (trace one_killed_worker)) /\
    (Forall (fun w => wk_state w <> WORKER_IDLE) (workers one_killed_worker) ->
     event_run calm one_killed_worker ev = one_killed_worker).
Proof.
  eexists. split; [vm_compute; reflexivity|]. split; [reflexivity|].
  split; [vm_compute; reflexivity|].
  apply (spawn_cap_counts_every_worker calm one_killed_worker).
  vm_compute. discriminate.
Defined.
(** * Further properties of the scheduler *)

(** ** The callbacks as sequences of steps *)

Lemma kill_worker_quiet m pid x :
  manager_inv m -> is_marker x = false ->
  quiet_step m
    (emit (set_workers m (update_worker pid (set_wk_state WORKER_KILLED) (workers m))) x).
Proof.
  intros Hinv Hx. eapply quiet_trans; [by apply quiet_kill | by apply quiet_emit].
Qed.

Lemma kill_worker_inv m pid x :
  manager_inv m ->
  manager_inv
    (emit (set_workers m (update_worker pid (set_wk_state WORKER_KILLED) (workers m))) x).
Proof.
  intros Hinv. eapply advances_inv, advances_emit, advances_inv.
  apply (set_worker_state_advances m pid (set_wk_state WORKER_KILLED));
    [done | done | intros; apply worker_ok_killed].
Qed.

Lemma manager_kill_workers_quiet m :
  manager_inv m -> quiet_step m (manager_kill_workers m).
Proof.
  unfold manager_kill_workers. generalize (workers m) at 1. intros ws. revert m.
  induction ws as [|w ws IH]; intros m Hinv; cbn [fold_left]; [apply quiet_refl|].
  destruct (worker_state_eqb (wk_state w) WORKER_KILLED); [by apply IH|].
  eapply quiet_trans; [by apply (kill_worker_quiet m (wk_pid w) (Kill (wk_pid w) SIGTERM))|].
  apply IH.
  by apply kill_worker_inv.
Qed.

Lemma manager_reload_quiet m : manager_inv m -> quiet_step m (manager_reload m).
Proof.
  intros Hinv. unfold manager_reload.
  eapply quiet_trans; [by apply manager_kill_workers_quiet | by apply quiet_frame].
Qed.

Lemma event_queue_cleanup_queued_quiet_fold evs m :
  manager_inv m ->
  List.NoDup (List.map ev_addr evs) -> (forall e, In e evs -> In e (events m)) ->
  quiet_step m
    (fold_left
       (fun m ev =>
          if negb (event_state_eqb EVENT_QUEUED EVENT_UNDEF)
             && negb (event_state_eqb EVENT_QUEUED (ev_state ev)) then m
          else event_free m (Some (ev_addr ev)))
       evs m).
Proof.
  revert m. induction evs as [|ev evs IH]; intros m Hinv Hnd Hsub; cbn [fold_left].
  - apply quiet_refl.
  - cbn [List.map] in Hnd. apply List.NoDup_cons_iff in Hnd as [Hev Hnd].
    change (event_state_eqb EVENT_QUEUED EVENT_UNDEF) with false.
    destruct (event_state_eqb EVENT_QUEUED (ev_state ev)) eqn:Hst; cbn [negb andb].
    + assert (Hin : In ev (events m)) by (apply Hsub; by left).
      pose proof Hinv as [Hq [Hl Hok]].
      assert (Hfind : find_event (ev_addr ev) (events m) = Some ev)
        by (apply find_event_In; [apply Hq | done]).
      assert (Hwk : ev_worker ev = None).
      { eapply queued_no_worker; [done..|]. by destruct (ev_state ev). }
      assert (Hadv : advances m (event_free m (Some (ev_addr ev)))).
      { apply (event_free_advances m (ev_addr ev) ev); [done..|].
        intros w Hw. rewrite decide_False; [|by rewrite Hwk].
        rewrite List.Forall_forall in Hok. by apply Hok. }
      eapply quiet_trans.
      * apply quiet_event_free; [done|]. intros ev' Hev'. rewrite Hfind in Hev'. by injection Hev' as <-.
      * apply IH; [by destruct Hadv | done|].
        intros e He. rewrite events_event_free. apply List.filter_In.
        split; [apply Hsub; by right|]. apply negb_true_iff, Nat.eqb_neq.
        intros Heq. apply Hev. rewrite <- Heq. by apply List.in_map.
    + apply IH; [done | done|]. intros e He. apply Hsub. by right.
Qed.

Lemma event_queue_cleanup_queued_quiet m :
  manager_inv m -> quiet_step m (event_queue_cleanup m EVENT_QUEUED).
Proof.
  intros Hinv. apply event_queue_cleanup_queued_quiet_fold; [done | apply Hinv | done].
Qed.

Lemma manager_exit_quiet v m : manager_inv m -> quiet_step m (manager_exit v m).
Proof.
  intros Hinv. unfold manager_exit.
  assert (H1 : manager_inv (set_monitor (set_exit m true) false))
    by (by eapply advances_inv, (advances_frame m (set_monitor (set_exit m true) false))).
  pose proof (event_queue_cleanup_queued_advances _ H1) as [_ H2].
  eapply quiet_trans; [by apply (quiet_frame m (set_monitor (set_exit m true) false))|].
  eapply quiet_trans; [by apply event_queue_cleanup_queued_quiet|].
  eapply quiet_trans; [by apply manager_kill_workers_quiet | by apply quiet_frame].
Qed.

Lemma on_event_timeout_quiet m a : manager_inv m -> quiet_step m (on_event_timeout m a).
Proof.
  intros Hinv. unfold on_event_timeout.
  destruct (find_event a (events m)) as [ev|]; [|apply quiet_refl].
  destruct (ev_worker ev) as [pid|]; [|apply quiet_refl].
  eapply quiet_trans; [by apply (quiet_emit m (KillAndSigcont pid SIGKILL))|]. apply quiet_kill.
  by eapply advances_inv, advances_emit.
Qed.

Lemma event_run_workers_quiet v e ws m :
  manager_inv m -> In e (events m) -> ev_state e = EVENT_QUEUED ->
  fst (is_devpath_busy_loop (events m) e) = false ->
  List.NoDup (List.map wk_pid ws) -> (forall w, In w ws -> In w (workers m)) ->
  quiet_step m (fst (event_run_workers v e ws m)).
Proof.
  revert m. induction ws as [|w ws IH]; intros m Hinv He Hst Hbusy Hnd Hsub;
    cbn [event_run_workers].
  - apply quiet_refl.
  - cbn [List.map] in Hnd. apply List.NoDup_cons_iff in Hnd as [Hw Hnd].
    assert (Hsub' : forall w', In w' ws -> In w' (workers m)) by (intros; apply Hsub; by right).
    destruct (worker_state_eqb (wk_state w) WORKER_IDLE) eqn:Hidle; cbn [negb].
    2:{ by apply IH. }
    assert (wk_state w = WORKER_IDLE) by (by destruct (wk_state w)).
    destruct (env_send v (wk_pid w) (ev_addr e)); cbn [negb fst].
    + eapply quiet_trans; [by apply (quiet_emit m (MonitorSend (Some (wk_pid w)) (ev_dev e)))|].
      apply (quiet_attach (env_now v) (emit m _) w e); try done.
      cbn [workers emit]. apply Hsub. by left.
    + set (m1 := set_workers _ _).
      assert (H1 : advances m m1).
      { eapply advances_then; [by apply advances_emit|]. intros H1.
        apply (set_worker_state_advances _ (wk_pid w) (set_wk_state WORKER_KILLED));
          [done | done | intros; apply worker_ok_killed]. }
      eapply quiet_trans.
      * eapply quiet_trans; [by apply (quiet_emit m (Kill (wk_pid w) SIGKILL))|].
        apply quiet_kill. by eapply advances_inv, advances_emit.
      * apply IH; try done; [by destruct H1|].
        intros w' Hw'. cbn [m1 workers set_workers emit]. apply in_update_worker.
        exists w'. split; [by apply Hsub'|].
        destruct (Z.eqb_spec (wk_pid w') (wk_pid w)) as [Heq|]; [|done].
        destruct Hw. rewrite <- Heq. by apply List.in_map.
Qed.

Lemma event_run_quiet v m e :
  manager_inv m -> In e (events m) -> ev_state e = EVENT_QUEUED ->
  fst (is_devpath_busy_loop (events m) e) = false ->
  quiet_step m (event_run v m e).
Proof.
  intros Hinv He Hst Hbusy. unfold event_run.
  pose proof (event_run_workers_quiet v e (workers m) m Hinv He Hst Hbusy) as Hs.
  destruct (event_run_workers_advances v e (workers m) m) as [H1 H2];
    [done.. | apply Hinv | done |].
  destruct (event_run_workers v e (workers m) m) as [m1 attached]. cbn [fst snd] in *.
  specialize (Hs (proj1 (proj1 (proj2 Hinv))) (fun _ H => H)).
  destruct attached; [done|].
  destruct (hashmap_size (workers m1) >=? arg_children_max m1); [done|].
  eapply quiet_trans; [exact Hs|].
  apply quiet_spawn; [by destruct H1 | by rewrite H2 | done].
Qed.

Lemma event_queue_start_loop_quiet v todo m :
  manager_inv m -> quiet_step m (event_queue_start_loop v todo m).
Proof.
  revert m. induction todo as [|a todo IH]; intros m Hinv; cbn [event_queue_start_loop].
  - apply quiet_refl.
  - destruct (find_event a (events m)) as [ev|] eqn:Hf; [|by apply IH].
    apply find_event_Some in Hf as [Hin Ha].
    destruct (event_state_eqb (ev_state ev) EVENT_QUEUED) eqn:Hst; cbn [negb]; [|by apply IH].
    assert (ev_state ev = EVENT_QUEUED) by (by destruct (ev_state ev)).
    destruct (is_devpath_busy m ev) as [busy m1] eqn:Hb.
    pose proof (is_devpath_busy_advances m ev Hinv) as H1. rewrite Hb in H1. cbn [snd] in H1.
    pose proof (quiet_busy m ev Hinv) as S1. rewrite Hb in S1. cbn [snd] in S1.
    destruct busy.
    + eapply quiet_trans; [exact S1 | apply IH; by destruct H1].
    + pose proof (is_devpath_busy_not_busy m ev Hinv Hin) as H2. rewrite Hb in H2.
      cbn [fst snd] in H2. rewrite H2 by done.
      assert (Hnb : fst (is_devpath_busy_loop (events m) ev) = false)
        by (by apply (f_equal fst) in Hb).
      eapply quiet_trans; [by apply event_run_quiet|]. apply IH.
      by eapply advances_inv, event_run_advances.
Qed.

Lemma event_queue_start_quiet v m :
  manager_inv m -> quiet_step m (event_queue_start v m).
Proof.
  intros Hinv. unfold event_queue_start.
  destruct (LIST_IS_EMPTY (events m) || exit m || stop_exec_queue m); [apply quiet_refl|].
  set (m1 := if (last_usec m =? 0) || _ then _ else m).
  assert (H1 : advances m m1 /\ quiet_step m m1).
  { unfold m1. destruct ((last_usec m =? 0) || _);
      [|split; [by apply advances_refl | apply quiet_refl]].
    destruct (env_config_changed v).
    - split.
      + eapply advances_then; [by apply manager_reload_advances|]. intros.
        by apply advances_frame.
      + eapply quiet_trans; [by apply manager_reload_quiet | by apply quiet_frame].
    - split; [by apply advances_frame | by apply quiet_frame]. }
  destruct H1 as [[_ Hinv1] S1]. eapply quiet_trans; [exact S1|].
  assert (Hinv2 : manager_inv (set_kill_workers_event m1 None))
    by (by eapply advances_inv, (advances_frame m1)).
  eapply quiet_trans; [by apply (quiet_frame m1 (set_kill_workers_event m1 None))|].
  destruct (rules (set_kill_workers_event m1 None)).
  - by apply event_queue_start_loop_quiet.
  - destruct (env_rules_new v); [|apply quiet_refl].
    eapply quiet_trans;
      [by apply (quiet_frame _ (set_rules (set_kill_workers_event m1 None) true))|].
    apply event_queue_start_loop_quiet.
    by eapply advances_inv, (advances_frame (set_kill_workers_event m1 None)).
Qed.

Lemma on_ctrl_msg_rest_quiet v m msg :
  manager_inv m -> quiet_step m (on_ctrl_msg_rest v m msg).
Proof.
  intros Hinv. unfold on_ctrl_msg_rest.
  set (m1 := if ctrl_set_children_max msg >=? 0 then _ else m).
  assert (H1 : manager_inv m1 /\ quiet_step m m1).
  { unfold m1. destruct (ctrl_set_children_max msg >=? 0);
      [|split; [done | apply quiet_refl]].
    split; [by eapply advances_inv, (advances_frame m) | by apply quiet_frame]. }
  destruct H1 as [I1 S1].
  destruct (ctrl_exit msg >? 0); [|done].
  eapply quiet_trans; [exact S1 | by apply manager_exit_quiet].
Qed.

Lemma on_ctrl_msg_quiet v m msg : manager_inv m -> quiet_step m (on_ctrl_msg v m msg).
Proof.
  intros Hinv. unfold on_ctrl_msg.
  set (m1 := if ctrl_set_log_level msg >=? 0 then manager_kill_workers m else m).
  assert (H1 : manager_inv m1 /\ quiet_step m m1).
  { unfold m1. destruct (ctrl_set_log_level msg >=? 0); [|split; [done | apply quiet_refl]].
    split; [by eapply advances_inv, manager_kill_workers_advances
           | by apply manager_kill_workers_quiet]. }
  destruct H1 as [I1 S1].
  set (m2 := if ctrl_stop_exec_queue msg >? 0 then set_stop_exec_queue m1 true else m1).
  assert (H2 : manager_inv m2 /\ quiet_step m1 m2).
  { unfold m2. destruct (ctrl_stop_exec_queue msg >? 0); [|split; [done | apply quiet_refl]].
    split; [by eapply advances_inv, (advances_frame m1) | by apply quiet_frame]. }
  destruct H2 as [I2 S2].
  set (m3 := if ctrl_start_exec_queue msg >? 0
             then event_queue_start v (set_stop_exec_queue m2 false) else m2).
  assert (H3 : manager_inv m3 /\ quiet_step m2 m3).
  { unfold m3. destruct (ctrl_start_exec_queue msg >? 0); [|split; [done | apply quiet_refl]].
    assert (I : manager_inv (set_stop_exec_queue m2 false))
      by (by eapply advances_inv, (advances_frame m2)).
    split; [by eapply advances_inv, event_queue_start_advances|].
    eapply quiet_trans; [by apply (quiet_frame m2 (set_stop_exec_queue m2 false))|].
    by apply event_queue_start_quiet. }
  destruct H3 as [I3 S3].
  set (m4 := if ctrl_reload msg >? 0 then manager_reload m3 else m3).
  assert (H4 : manager_inv m4 /\ quiet_step m3 m4).
  { unfold m4. destruct (ctrl_reload msg >? 0); [|split; [done | apply quiet_refl]].
    split; [by eapply advances_inv, manager_reload_advances | by apply manager_reload_quiet]. }
  destruct H4 as [I4 S4].
  assert (S : quiet_step m m4).
  { eapply quiet_trans; [exact S1|]. eapply quiet_trans; [exact S2|].
    eapply quiet_trans; [exact S3 | exact S4]. }
  destruct (ctrl_set_env msg) as [str|].
  - destruct (strchr_eq str) as [[key eq]|]; [|done].
    eapply quiet_trans; [exact S|].
    set (m6 := if negb (isempty eq) then _ else _).
    assert (H6 : manager_inv m6 /\ quiet_step m4 m6).
    { unfold m6. destruct (negb (isempty eq));
        (split; [by eapply advances_inv, (advances_frame m4) | by apply quiet_frame]). }
    destruct H6 as [I6 S6]. eapply quiet_trans; [exact S6|].
    eapply quiet_trans; [by apply manager_kill_workers_quiet|].
    apply on_ctrl_msg_rest_quiet. by eapply advances_inv, manager_kill_workers_advances.
  - eapply quiet_trans; [exact S | by apply on_ctrl_msg_rest_quiet].
Qed.

Lemma on_post_quiet v m : quiet_step m (on_post v m).
Proof.
  unfold on_post.
  destruct (negb (LIST_IS_EMPTY (events m))); [apply quiet_refl|].
  destruct (negb (LIST_IS_EMPTY (workers m))); [by apply quiet_frame|].
  destruct (exit m); [by apply quiet_frame|].
  destruct (has_cgroup m); [by apply quiet_emit | apply quiet_refl].
Qed.


(** A quiet step is a step of either kind. *)
Lemma quiet_mgr_step b m m' : quiet_step m m' -> mgr_step b m m'.
Proof.
  induction 1.
  - apply ms_refl.
  - by eapply ms_trans.
  - by apply ms_frame.
  - by apply ms_emit.
  - by apply ms_insert.
  - by apply ms_event_free.
  - by apply ms_kill.
  - by apply ms_busy.
  - by apply ms_attach.
  - by apply ms_spawn.
Qed.

Lemma mgr_step_then b m1 m2 m3 :
  mgr_step b m1 m2 -> mgr_step b m2 m3 -> mgr_step b m1 m3.
Proof. apply ms_trans. Qed.

Lemma fold_left_steps {A} b (f : Manager -> A -> Manager) l m :
  (forall m x, manager_inv m -> advances m (f m x) /\ mgr_step b m (f m x)) ->
  manager_inv m -> mgr_step b m (fold_left f l m).
Proof.
  intros Hf. revert m. induction l as [|x l IH]; intros m Hinv; cbn [fold_left].
  - apply ms_refl.
  - destruct (Hf m x Hinv) as [Ha Hs]. eapply ms_trans; [exact Hs|].
    apply IH. by destruct Ha.
Qed.

Lemma manager_kill_workers_steps b m :
  manager_inv m -> mgr_step b m (manager_kill_workers m).
Proof. intros. by apply quiet_mgr_step, manager_kill_workers_quiet. Qed.

Lemma manager_reload_steps b m : manager_inv m -> mgr_step b m (manager_reload m).
Proof. intros. by apply quiet_mgr_step, manager_reload_quiet. Qed.

Lemma manager_exit_steps b v m : manager_inv m -> mgr_step b m (manager_exit v m).
Proof. intros. by apply quiet_mgr_step, manager_exit_quiet. Qed.

Lemma on_event_timeout_steps b m a : manager_inv m -> mgr_step b m (on_event_timeout m a).
Proof. intros. by apply quiet_mgr_step, on_event_timeout_quiet. Qed.

Lemma event_queue_start_steps b v m :
  manager_inv m -> mgr_step b m (event_queue_start v m).
Proof. intros. by apply quiet_mgr_step, event_queue_start_quiet. Qed.

Lemma on_ctrl_msg_steps b v m msg : manager_inv m -> mgr_step b m (on_ctrl_msg v m msg).
Proof. intros. by apply quiet_mgr_step, on_ctrl_msg_quiet. Qed.

Lemma on_post_steps b v m : mgr_step b m (on_post v m).
Proof. apply quiet_mgr_step, on_post_quiet. Qed.

Lemma on_sigchld_child_steps m child :
  manager_inv m -> mgr_step true m (on_sigchld_child m child).
Proof.
  intros Hinv. destruct child as [pid status]. unfold on_sigchld_child.
  destruct (hashmap_get (workers m) pid) as [w|] eqn:Hget; [|apply ms_refl].
  apply hashmap_get_Some in Hget as [Hin _].
  destruct (negb (WIFEXITED status) && negb (WIFSIGNALED status)
            && (WIFSTOPPED status || WIFCONTINUED status)); [apply ms_refl|].
  destruct (negb (WIFEXITED status) || negb (WEXITSTATUS status =? 0));
    [|by apply ms_worker_free].
  destruct (wk_event w) as [a|]; [|by apply ms_worker_free].
  destruct (find_event a (events m)) as [ev|]; [|by apply ms_worker_free].
  assert (H1 : manager_inv (emit m (DeleteDb (ev_dev ev))))
    by (by eapply advances_inv, advances_emit).
  assert (H2 : manager_inv (emit (emit m (DeleteDb (ev_dev ev))) (TagIndex (ev_dev ev))))
    by (by eapply advances_inv, advances_emit).
  eapply ms_trans; [by apply (ms_emit true m (DeleteDb (ev_dev ev)))|].
  eapply ms_trans; [by apply (ms_emit true _ (TagIndex (ev_dev ev)))|].
  eapply ms_trans.
  { apply (ms_emit true (emit (emit m (DeleteDb (ev_dev ev))) (TagIndex (ev_dev ev)))
             (if monitor m then MonitorSend None (ev_dev_kernel ev)
              else SendWithoutMonitor (ev_dev_kernel ev))).
    by destruct (monitor m). }
  apply ms_worker_free; [by eapply advances_inv, advances_emit | done].
Qed.

Lemma dispatch_steps v m i :
  manager_inv m -> input_ok m i -> mgr_step (reaps i) m (dispatch v m i).
Proof.
  intros Hinv Hok. destruct i; cbn [dispatch reaps].
  - destruct Hok as (_ & [Hseq _] & Hnew). unfold on_uevent.
    eapply ms_trans; [by apply ms_insert|]. apply event_queue_start_steps.
    by eapply advances_inv, event_queue_insert_advances.
  - unfold on_worker.
    assert (H1 : advances m (fold_left on_worker_message pids m)).
    { apply (fold_left_advances on_worker_message); [apply on_worker_message_advances | done]. }
    eapply ms_trans.
    + apply (fold_left_steps false on_worker_message); [|done].
      intros m' pid Hm'. split; [by apply on_worker_message_advances | by apply ms_worker_message].
    + destruct failed; [apply ms_refl | apply event_queue_start_steps; by destruct H1].
  - by apply on_ctrl_msg_steps.
  - unfold on_sigchld.
    assert (H1 : advances m (fold_left on_sigchld_child children m)).
    { apply (fold_left_advances on_sigchld_child); [apply on_sigchld_child_advances | done]. }
    eapply ms_trans.
    + apply (fold_left_steps true on_sigchld_child); [|done].
      intros m' c Hm'. split; [by apply on_sigchld_child_advances | by apply on_sigchld_child_steps].
    + eapply ms_trans; [apply event_queue_start_steps; by destruct H1|].
      destruct (LIST_IS_EMPTY _); [by apply ms_frame | apply ms_refl].
  - by apply manager_exit_steps.
  - by apply manager_reload_steps.
  - by apply ms_frame.
  - by apply on_event_timeout_steps.
  - apply ms_refl.
  - by apply manager_kill_workers_steps.
  - by apply ms_frame.
  - apply on_post_steps.
Qed.
(** ** What the events of the queue look like *)

Lemma in_events_event_free m a e :
  In e (events (event_free m (Some a))) -> In e (events m).
Proof. rewrite events_event_free. intros H. by apply List.filter_In in H as [H _]. Qed.

Lemma in_events_event_free_opt m p e :
  In e (events (event_free m p)) -> In e (events m).
Proof. destruct p as [a|]; [apply in_events_event_free | done]. Qed.

Lemma in_events_on_worker_message m pid e :
  In e (events (on_worker_message m pid)) -> In e (events m).
Proof.
  unfold on_worker_message. destruct (hashmap_get (workers m) pid) as [w|]; [|done].
  intros H. apply in_events_event_free_opt in H. by destruct (negb _).
Qed.

Lemma in_events_worker_free m w e :
  In e (events (worker_free m w)) -> In e (events m).
Proof. unfold worker_free. intros H. by apply in_events_event_free_opt in H. Qed.

Lemma busy_loop_snd m e :
  manager_inv m -> In e (events m) ->
  snd (is_devpath_busy_loop (events m) e)
  = set_delaying_seqnum e (snd (spec_is_busy (events m) e)).
Proof.
  intros [Hq _] He. rewrite is_devpath_busy_loop_spec; [done| |by eapply queue_inv_len_ok].
  apply queue_inv_len_ok in Hq. rewrite List.Forall_forall in Hq. by apply Hq.
Qed.

Lemma event_wf_attach e pid warn kill :
  event_wf e -> event_wf (attach_to_worker e pid warn kill).
Proof.
  intros [_ Hc]. split; [|done]. split; [by right|]. by repeat split.
Qed.

Lemma event_wf_delaying e n : event_wf e -> event_wf (set_delaying_seqnum e n).
Proof. done. Qed.

Lemma event_wf_requeue e :
  ev_worker e = None -> event_wf e -> event_wf (set_event_state e EVENT_QUEUED).
Proof.
  intros Hwk [(_ & _ & H3 & H4) Hc]. split; [|done].
  split; [by left|]. split; [done|]. by split.
Qed.

Lemma worker_attach_event_wf usec m pid a :
  Forall event_wf (events m) -> Forall event_wf (events (worker_attach_event usec m pid a)).
Proof.
  rewrite !List.Forall_forall. intros H e' He'.
  cbn [worker_attach_event events set_events set_workers] in He'.
  apply in_update_event in He' as (e & He & ->).
  destruct (Nat.eqb (ev_addr e) a); [apply event_wf_attach|]; by apply H.
Qed.

Lemma mgr_step_event_wf b m m' :
  mgr_step b m m' -> Forall event_wf (events m) -> Forall event_wf (events m').
Proof.
  induction 1 as [| b m1 m2 m3 _ IH1 _ IH2 | b m m' Hw He Hn Ht | | b m dev Hinv
                 | b m a Hinv Hwk | b m pid Hinv | m w Hinv Hin | b m pid Hinv
                 | b m ev Hinv | b usec m w e Hinv Hw Hidle He Hst
                 | b v m e Hinv He Hst]; intros Hwf.
  - done.
  - auto.
  - by rewrite He.
  - done.
  - unfold event_queue_insert. set (ev := Build_event _ _ _ _ _ _ _ _ _ _ _ _ _ _ _).
    assert (Forall event_wf (events m ++ [ev])).
    { apply List.Forall_app. split; [done|]. constructor; [|done].
      split; [|done]. split; [by left|]. by repeat split. }
    by destruct (LIST_IS_EMPTY _).
  - rewrite List.Forall_forall in *. intros e He. by apply Hwf, (in_events_event_free m a).
  - rewrite List.Forall_forall in *. intros e He.
    by apply Hwf, (in_events_on_worker_message m pid).
  - rewrite List.Forall_forall in *. intros e He. by apply Hwf, (in_events_worker_free m w).
  - done.
  - rewrite List.Forall_forall in *. intros e' He'.
    cbn [is_devpath_busy snd events set_events] in He'.
    apply in_update_event in He' as (e & He & ->).
    destruct (Nat.eqb (ev_addr e) (ev_addr ev)); [|by apply Hwf].
    rewrite busy_loop_snd by done. by apply event_wf_delaying, Hwf.
  - by apply worker_attach_event_wf.
  - unfold worker_spawn. destruct (env_spawn v (ev_addr e)) as [| |pid]; [done | |].
    + rewrite List.Forall_forall in *. intros e' He'. cbn [events set_events] in He'.
      apply in_update_event in He' as (e0 & He0 & ->).
      destruct (Nat.eqb_spec (ev_addr e0) (ev_addr e)) as [Heq|]; [|by apply Hwf].
      assert (e0 = e) as -> by (eapply NoDup_addr_inj; [apply Hinv | done..]).
      apply event_wf_requeue; [|by apply Hwf].
      eapply queued_no_worker; [apply Hinv | done..].
    + destruct (hashmap_get _ pid); [done|]. by apply worker_attach_event_wf.
Qed.

Lemma reachable_event_wf m0 m :
  manager_inv m0 -> Forall event_wf (events m0) -> reachable m0 m ->
  Forall event_wf (events m).
Proof.
  intros H0 Hwf. induction 1 as [|m v i Hr IH Hok]; [done|].
  eapply mgr_step_event_wf; [|exact IH].
  apply dispatch_steps; [by eapply reachable_inv | done].
Qed.
(** ** From an event back to its worker *)

Lemma workers_event_free_unattached m a :
  (forall ev, find_event a (events m) = Some ev -> ev_worker ev = None) ->
  workers (event_free m (Some a)) = workers m.
Proof.
  intros H. unfold event_free. destruct (find_event a (events m)) as [ev|]; [|done].
  rewrite (H ev eq_refl). by destruct (LIST_IS_EMPTY _).
Qed.

(** [event_free] of the event the worker [pid] points to. *)
Lemma event_free_back_links m w a :
  manager_inv m -> In w (workers m) -> wk_event w = Some a ->
  worker_of_event_attached m ->
  forall ws,
    (forall w', In w' (workers m) -> wk_pid w' <> wk_pid w -> In w' ws) ->
    forall e pid, In e (remove_event a (events m)) -> ev_worker e = Some pid ->
      exists w', In w' ws /\ wk_pid w' = pid /\ wk_event w' = Some (ev_addr e).
Proof.
  intros Hinv Hw Ha Hback ws Hws e pid He Hwk.
  apply List.filter_In in He as [He Hne]. apply negb_true_iff, Nat.eqb_neq in Hne.
  destruct (Hback e pid He Hwk) as (w' & Hw' & Hp & Hev).
  exists w'. split; [|done]. apply Hws; [done|]. intros Heq.
  assert (w' = w) as -> by (eapply NoDup_pid_inj; [apply Hinv | done..]). congruence.
Qed.

Lemma event_free_workers m a :
  workers (event_free m (Some a)) =
  match find_event a (events m) with
  | Some ev =>
    match ev_worker ev with
    | Some pid => update_worker pid (set_wk_event None) (workers m)
    | None => workers m
    end
  | None => workers m
  end.
Proof.
  unfold event_free. destruct (find_event a (events m)) as [ev|]; [|done].
  destruct (ev_worker ev); by destruct (LIST_IS_EMPTY _).
Qed.

Lemma worker_attach_event_back usec m pid a :
  List.NoDup (List.map wk_pid (workers m)) ->
  (exists w, In w (workers m) /\ wk_pid w = pid /\ wk_event w = None) ->
  worker_of_event_attached m ->
  worker_of_event_attached (worker_attach_event usec m pid a).
Proof.
  intros Hnd (w & Hw & Hp & Hnone) Hback e' pid' He' Hwk.
  cbn [worker_attach_event events workers set_events set_workers] in *.
  apply in_update_event in He' as (e & He & ->).
  destruct (Nat.eqb_spec (ev_addr e) a) as [Ha|Ha].
  - cbn [attach_to_worker ev_worker ev_addr] in *. injection Hwk as <-.
    exists (set_wk_event (Some a) (set_wk_state WORKER_RUNNING w)).
    split; [|by rewrite Ha]. apply in_update_worker. exists w. split; [done|].
    by rewrite Hp, Z.eqb_refl.
  - destruct (Hback e pid' He Hwk) as (w' & Hw' & Hp' & Hev').
    exists w'. split; [|done]. apply in_update_worker. exists w'. split; [done|].
    destruct (Z.eqb_spec (wk_pid w') pid) as [Heq|]; [|done].
    assert (w' = w) as -> by (eapply NoDup_pid_inj; [done..|congruence]). congruence.
Qed.

Lemma mgr_step_back_links b m m' :
  mgr_step b m m' -> worker_of_event_attached m -> worker_of_event_attached m'.
Proof.
  induction 1 as [| b m1 m2 m3 _ IH1 _ IH2 | b m m' Hw He Hn Ht | | b m dev Hinv
                 | b m a Hinv Hwk | b m pid Hinv | m w Hinv Hin | b m pid Hinv
                 | b m ev Hinv | b usec m w e Hinv Hw Hidle He Hst
                 | b v m e Hinv He Hst]; intros Hback.
  - done.
  - auto.
  - unfold worker_of_event_attached. by rewrite Hw, He.
  - done.
  - intros e pid He Hwk.
    assert (Hin : In e (events m)).
    { unfold event_queue_insert in He.
      set (ev := Build_event _ _ _ _ _ _ _ _ _ _ _ _ _ _ _) in He.
      assert (He' : In e (events m ++ [ev])) by (by destruct (LIST_IS_EMPTY _)).
      apply List.in_app_iff in He' as [He'|[<-|[]]]; [done | done]. }
    destruct (Hback e pid Hin Hwk) as (w & Hw & Hp).
    exists w. split; [|done]. unfold event_queue_insert. by destruct (LIST_IS_EMPTY _).
  - intros e pid He Hwk'. rewrite workers_event_free_unattached by done.
    apply (Hback e pid); [by apply (in_events_event_free m a) | done].
  - unfold on_worker_message.
    destruct (hashmap_get (workers m) pid) as [w|] eqn:Hget; [|done].
    apply hashmap_get_Some in Hget as [Hin Hpid].
    set (m1 := if negb _ then _ else m).
    assert (He1 : events m1 = events m) by (unfold m1; by destruct (negb _)).
    assert (Hw1 : forall w', In w' (workers m) -> wk_pid w' <> pid -> In w' (workers m1)).
    { intros w' Hw' Hne. unfold m1. destruct (negb _); [|done].
      cbn [workers set_workers]. apply in_update_worker. exists w'. split; [done|].
      by destruct (Z.eqb_spec (wk_pid w') pid). }
    destruct (wk_event w) as [a|] eqn:Hev.
    + intros e pid' He Hwk. rewrite events_event_free, He1 in He.
      destruct Hinv as [Hq [Hl Hok]]. pose proof Hl as (P1 & P3 & P4).
      destruct (P3 w a Hin Hev) as (e0 & He0 & Ha0 & Hwk0).
      assert (Hf : find_event a (events m1) = Some e0).
      { rewrite He1, <- Ha0. apply find_event_In; [apply Hq | done]. }
      rewrite event_free_workers, Hf, Hwk0.
      apply (event_free_back_links m w a) with (pid := pid') (e := e); try done.
      intros w' Hw' Hne. apply in_update_worker. exists w'.
      split; [apply Hw1; [done | congruence]|].
      by destruct (Z.eqb_spec (wk_pid w') (wk_pid w)).
    + cbn [event_free]. intros e pid' He Hwk. rewrite He1 in He.
      destruct (Hback e pid' He Hwk) as (w' & Hw' & Hp' & Hev').
      exists w'. split; [|done]. apply Hw1; [done|]. intros Heq.
      assert (w' = w) as -> by (eapply NoDup_pid_inj; [apply Hinv | done..|congruence]).
      congruence.
  - unfold worker_free.
    set (m1 := set_workers m (hashmap_remove (workers m) (wk_pid w))).
    assert (Hw1 : forall w', In w' (workers m) -> wk_pid w' <> wk_pid w -> In w' (workers m1)).
    { intros w' Hw' Hne. cbn [m1 workers set_workers]. apply List.filter_In.
      split; [done|]. by apply negb_true_iff, Z.eqb_neq. }
    destruct (wk_event w) as [a|] eqn:Hev.
    + intros e pid' He Hwk. rewrite events_event_free in He.
      destruct Hinv as [Hq [Hl Hok]]. pose proof Hl as (P1 & P3 & P4).
      destruct (P3 w a Hin Hev) as (e0 & He0 & Ha0 & Hwk0).
      assert (Hf : find_event a (events m1) = Some e0).
      { cbn [m1 events set_workers]. rewrite <- Ha0. apply find_event_In; [apply Hq | done]. }
      rewrite event_free_workers, Hf, Hwk0.
      apply (event_free_back_links m w a) with (pid := pid') (e := e); try done.
      intros w' Hw' Hne. apply in_update_worker. exists w'.
      split; [by apply Hw1|]. by destruct (Z.eqb_spec (wk_pid w') (wk_pid w)).
    + cbn [event_free]. intros e pid' He Hwk.
      destruct (Hback e pid' He Hwk) as (w' & Hw' & Hp' & Hev').
      exists w'. split; [|done]. apply Hw1; [done|]. intros Heq.
      assert (w' = w) as -> by (eapply NoDup_pid_inj; [apply Hinv | done..]).
      congruence.
  - intros e pid' He Hwk. cbn [events workers set_workers] in *.
    destruct (Hback e pid' He Hwk) as (w' & Hw' & Hp' & Hev').
    exists (if wk_pid w' =? pid then set_wk_state WORKER_KILLED w' else w').
    split; [apply in_update_worker; by exists w'|]. by destruct (wk_pid w' =? pid).
  - intros e' pid' He' Hwk. cbn [is_devpath_busy snd events workers set_events] in *.
    apply in_update_event in He' as (e & He & ->).
    assert (Hsame : ev_worker (if Nat.eqb (ev_addr e) (ev_addr ev)
                               then snd (is_devpath_busy_loop (events m) e) else e)
                    = ev_worker e /\
                    ev_addr (if Nat.eqb (ev_addr e) (ev_addr ev)
                             then snd (is_devpath_busy_loop (events m) e) else e)
                    = ev_addr e).
    { destruct (Nat.eqb (ev_addr e) (ev_addr ev)); [|done]. by rewrite busy_loop_snd. }
    destruct Hsame as [H1 H2]. rewrite H1 in Hwk. rewrite H2. by apply Hback.
  - apply worker_attach_event_back; [apply Hinv | | done].
    exists w. split; [done|]. split; [done|].
    destruct Hinv as [_ [_ Hok]]. rewrite List.Forall_forall in Hok.
    by apply (Hok w Hw).
  - unfold worker_spawn. destruct (env_spawn v (ev_addr e)) as [| |pid]; [done | |].
    + intros e' pid' He' Hwk. cbn [events workers set_events] in *.
      apply in_update_event in He' as (e0 & He0 & ->).
      assert (Hsame : ev_worker (if Nat.eqb (ev_addr e0) (ev_addr e)
                                 then set_event_state e0 EVENT_QUEUED else e0)
                      = ev_worker e0 /\
                      ev_addr (if Nat.eqb (ev_addr e0) (ev_addr e)
                               then set_event_state e0 EVENT_QUEUED else e0)
                      = ev_addr e0) by (by destruct (Nat.eqb (ev_addr e0) (ev_addr e))).
      destruct Hsame as [H1 H2]. rewrite H1 in Hwk. rewrite H2. by apply Hback.
    + destruct (hashmap_get (workers (emit m (Fork pid))) pid) eqn:Hget; [done|].
      cbn [workers emit] in Hget.
      apply worker_attach_event_back.
      * cbn [workers set_workers emit]. rewrite List.map_app. apply List.NoDup_app.
        -- apply Hinv.
        -- apply List.NoDup_cons; [by intros [] | apply List.NoDup_nil].
        -- intros p Hp [<-|[]]. apply List.in_map_iff in Hp as (w & Hp & Hw).
           by apply (hashmap_get_None _ _ w Hget).
      * exists {| wk_pid := pid; wk_state := WORKER_UNDEF; wk_event := None |}.
        split; [|done]. cbn [workers set_workers emit].
        apply List.in_app_iff. right. by left.
      * intros e' pid' He' Hwk. cbn [workers events set_workers emit] in *.
        destruct (Hback e' pid' He' Hwk) as (w' & Hw' & Hp').
        exists w'. split; [|done]. apply List.in_app_iff. by left.
Qed.

Lemma reachable_back_links m0 m :
  manager_inv m0 -> worker_of_event_attached m0 -> reachable m0 m ->
  worker_of_event_attached m.
Proof.
  intros H0 Hb. induction 1 as [|m v i Hr IH Hok]; [done|].
  eapply mgr_step_back_links; [|exact IH].
  apply dispatch_steps; [by eapply reachable_inv | done].
Qed.
(** ** The marker file of the queue *)

Lemma LIST_IS_EMPTY_map {A B} (f : A -> B) l : LIST_IS_EMPTY (List.map f l) = LIST_IS_EMPTY l.
Proof. by destruct l. Qed.

Lemma LIST_IS_EMPTY_update_event a f q : LIST_IS_EMPTY (update_event a f q) = LIST_IS_EMPTY q.
Proof. apply LIST_IS_EMPTY_map. Qed.

Lemma event_free_marker m p : marker_ok m -> marker_ok (event_free m p).
Proof.
  unfold marker_ok. intros H. destruct p as [a|]; [|done]. unfold event_free.
  destruct (find_event a (events m)) as [ev|] eqn:Hf; [|done].
  apply find_event_Some in Hf as [Hin _].
  assert (Hne : marker_exists (trace m) = true)
    by (rewrite H; destruct (events m); [done | done]).
  set (m2 := match ev_worker ev with Some _ => _ | None => _ end).
  assert (H2 : trace m2 = trace m /\ events m2 = remove_event a (events m))
    by (unfold m2; by destruct (ev_worker ev)).
  destruct H2 as [Ht He].
  destruct (LIST_IS_EMPTY (events m2)) eqn:Hemp.
  - cbn [trace emit events marker_exists]. by rewrite Hemp.
  - by rewrite Ht, Hne, Hemp.
Qed.

Lemma worker_attach_event_marker usec m pid a :
  marker_ok m -> marker_ok (worker_attach_event usec m pid a).
Proof.
  unfold marker_ok. cbn [worker_attach_event trace events set_events set_workers].
  by rewrite LIST_IS_EMPTY_update_event.
Qed.

Lemma mgr_step_marker b m m' : mgr_step b m m' -> marker_ok m -> marker_ok m'.
Proof.
  induction 1 as [| b m1 m2 m3 _ IH1 _ IH2 | b m m' Hw He Hn Ht | b m x Hx | b m dev Hinv
                 | b m a Hinv Hwk | b m pid Hinv | m w Hinv Hin | b m pid Hinv
                 | b m ev Hinv | b usec m w e Hinv Hw Hidle He Hst
                 | b v m e Hinv He Hst]; intros Hm.
  - done.
  - auto.
  - unfold marker_ok. by rewrite Ht, He.
  - unfold marker_ok in *. cbn [trace emit events]. rewrite <- Hm. by destruct x.
  - unfold marker_ok in *. unfold event_queue_insert.
    set (ev := Build_event _ _ _ _ _ _ _ _ _ _ _ _ _ _ _).
    destruct (LIST_IS_EMPTY (events (set_next_addr m (S (next_addr m))))) eqn:Hemp;
      cbn [trace events set_events emit set_next_addr marker_exists] in *.
    + by destruct (events m).
    + rewrite Hm. by destruct (events m).
  - by apply event_free_marker.
  - unfold on_worker_message. destruct (hashmap_get (workers m) pid) as [w|]; [|done].
    apply event_free_marker. by destruct (negb _).
  - unfold worker_free. by apply event_free_marker.
  - done.
  - unfold marker_ok in *. cbn [is_devpath_busy snd trace events set_events].
    by rewrite LIST_IS_EMPTY_update_event.
  - by apply worker_attach_event_marker.
  - unfold worker_spawn. destruct (env_spawn v (ev_addr e)) as [| |pid]; [done | |].
    + unfold marker_ok in *. cbn [trace events set_events].
      by rewrite LIST_IS_EMPTY_update_event.
    + destruct (hashmap_get _ pid); [done|]. by apply worker_attach_event_marker.
Qed.

Lemma reachable_marker m0 m :
  manager_inv m0 -> marker_ok m0 -> reachable m0 m -> marker_ok m.
Proof.
  intros H0 Hb. induction 1 as [|m v i Hr IH Hok]; [done|].
  eapply mgr_step_marker; [|exact IH].
  apply dispatch_steps; [by eapply reachable_inv | done].
Qed.

(** ** Workers leave the pool by SIGCHLD only, and killed workers stay killed *)

Lemma pool_kept_refl m : pool_kept m m.
Proof. intros w Hw. by exists w. Qed.

Lemma pool_kept_trans m1 m2 m3 : pool_kept m1 m2 -> pool_kept m2 m3 -> pool_kept m1 m3.
Proof.
  intros H12 H23 w Hw. destruct (H12 w Hw) as (w2 & Hw2 & Hp2 & Hk2).
  destruct (H23 w2 Hw2) as (w3 & Hw3 & Hp3 & Hk3).
  exists w3. split; [done|]. split; [congruence | auto].
Qed.

Lemma pool_kept_same m m' : workers m' = workers m -> pool_kept m m'.
Proof. intros H w Hw. exists w. by rewrite H. Qed.

Lemma pool_kept_update m m' pid f :
  workers m' = update_worker pid f (workers m) ->
  (forall w, In w (workers m) -> wk_pid w = pid ->
     wk_pid (f w) = wk_pid w /\ (wk_state w = WORKER_KILLED -> wk_state (f w) = WORKER_KILLED)) ->
  pool_kept m m'.
Proof.
  intros H Hf w Hw. exists (if wk_pid w =? pid then f w else w).
  split; [rewrite H; apply in_update_worker; by exists w|].
  destruct (Z.eqb_spec (wk_pid w) pid); [by apply Hf | done].
Qed.

Lemma event_free_pool_kept m p : pool_kept m (event_free m p).
Proof.
  destruct p as [a|]; [|apply pool_kept_refl].
  pose proof (event_free_workers m a) as H.
  destruct (find_event a (events m)) as [ev|]; [|by apply pool_kept_same].
  destruct (ev_worker ev) as [pid|]; [|by apply pool_kept_same].
  by eapply pool_kept_update.
Qed.

Lemma worker_attach_event_pool_kept usec m pid a :
  (forall w, In w (workers m) -> wk_pid w = pid -> wk_state w <> WORKER_KILLED) ->
  pool_kept m (worker_attach_event usec m pid a).
Proof.
  intros Hk. eapply pool_kept_update; [done|]. intros w Hw Hp. split; [done|].
  intros H. by destruct (Hk w Hw Hp).
Qed.

Lemma mgr_step_pool_kept b m m' : mgr_step b m m' -> b = false -> pool_kept m m'.
Proof.
  induction 1 as [| b m1 m2 m3 _ IH1 _ IH2 | b m m' Hw He Hn Ht | b m x Hx | b m dev Hinv
                 | b m a Hinv Hwk | b m pid Hinv | m w Hinv Hin | b m pid Hinv
                 | b m ev Hinv | b usec m w e Hinv Hw Hidle He Hst
                 | b v m e Hinv He Hst]; intros Hb.
  - apply pool_kept_refl.
  - eapply pool_kept_trans; eauto.
  - by apply pool_kept_same.
  - by apply pool_kept_same.
  - apply pool_kept_same. unfold event_queue_insert. by destruct (LIST_IS_EMPTY _).
  - apply event_free_pool_kept.
  - unfold on_worker_message.
    destruct (hashmap_get (workers m) pid) as [w|] eqn:Hget; [|apply pool_kept_refl].
    apply hashmap_get_Some in Hget as [Hin Hpid].
    eapply pool_kept_trans; [|apply event_free_pool_kept].
    destruct (worker_state_eqb (wk_state w) WORKER_KILLED) eqn:Hk; cbn [negb];
      [apply pool_kept_refl|].
    eapply pool_kept_update; [done|]. intros w' Hw' Hp. split; [done|]. intros Hk'.
    assert (w' = w) as -> by (eapply NoDup_pid_inj; [apply Hinv | done..|congruence]).
    by rewrite Hk' in Hk.
  - done.
  - by eapply pool_kept_update.
  - by apply pool_kept_same.
  - apply worker_attach_event_pool_kept. intros w' Hw' Hp.
    assert (w' = w) as -> by (eapply NoDup_pid_inj; [apply Hinv | done..]). by rewrite Hidle.
  - unfold worker_spawn. destruct (env_spawn v (ev_addr e)) as [| |pid];
      [apply pool_kept_refl | by apply pool_kept_same |].
    destruct (hashmap_get (workers (emit m (Fork pid))) pid) eqn:Hget;
      [by apply pool_kept_same|].
    cbn [workers emit] in Hget.
    eapply (pool_kept_trans _ (set_workers (emit m (Fork pid)) _)).
    + intros w Hw. exists w. split; [|done]. cbn [workers set_workers emit].
      apply List.in_app_iff. by left.
    + apply worker_attach_event_pool_kept. cbn [workers set_workers emit].
      intros w Hw Hp. apply List.in_app_iff in Hw as [Hw|[<-|[]]]; [|done].
      by destruct (hashmap_get_None _ _ w Hget Hw).
Qed.

(** ** A worker keeps its event until it answers or is reaped *)

Lemma holds_event_same pid a dead m m' :
  workers m' = workers m -> holds_event pid a dead m -> holds_event pid a dead m'.
Proof. intros H (w & Hw & Hrest). exists w. by rewrite H. Qed.

(** A store through the pointer to another worker. *)
Lemma holds_event_other pid a dead m m' pid' f :
  workers m' = update_worker pid' f (workers m) -> pid' <> pid ->
  holds_event pid a dead m -> holds_event pid a dead m'.
Proof.
  intros H Hne (w & Hw & Hp & Hrest). exists w. split; [|done].
  rewrite H. apply in_update_worker. exists w. split; [done|].
  destruct (Z.eqb_spec (wk_pid w) pid'); [congruence | done].
Qed.

Lemma holds_event_kill pid a dead m m' pid' :
  workers m' = update_worker pid' (set_wk_state WORKER_KILLED) (workers m) ->
  holds_event pid a dead m -> holds_event pid a dead m'.
Proof.
  intros H (w & Hw & Hp & He & Hk).
  exists (if wk_pid w =? pid' then set_wk_state WORKER_KILLED w else w).
  split; [rewrite H; apply in_update_worker; by exists w|].
  by destruct (wk_pid w =? pid').
Qed.

(** An idle worker, or a new one, gets an event: no worker that has one
    is touched. *)
Lemma holds_event_attach pid a dead usec m pid' a' :
  (forall w, In w (workers m) -> wk_pid w = pid' -> wk_event w = None) ->
  holds_event pid a dead m -> holds_event pid a dead (worker_attach_event usec m pid' a').
Proof.
  intros Hfree (w & Hw & Hp & He & Hk). exists w. split; [|done].
  cbn [worker_attach_event workers set_events set_workers].
  apply in_update_worker. exists w. split; [done|].
  destruct (Z.eqb_spec (wk_pid w) pid') as [Heq|]; [|done].
  rewrite (Hfree w Hw Heq) in He. done.
Qed.

Lemma quiet_step_holds m m' :
  quiet_step m m' ->
  forall pid a dead, holds_event pid a dead m -> holds_event pid a dead m'.
Proof.
  induction 1 as [| m1 m2 m3 _ IH1 _ IH2 | m m' Hw He Hn Ht | m x Hx | m dev Hinv
                 | m a' Hinv Hwk | m pid' Hinv | m ev Hinv
                 | usec m w e Hinv Hw Hidle He Hst | v m e Hinv He Hst];
    intros pid a dead Hh.
  - done.
  - by apply IH2, IH1.
  - by apply (holds_event_same _ _ _ m).
  - by apply (holds_event_same _ _ _ m).
  - apply (holds_event_same _ _ _ m); [|done].
    unfold event_queue_insert. by destruct (LIST_IS_EMPTY _).
  - apply (holds_event_same _ _ _ m); [|done]. by apply workers_event_free_unattached.
  - by apply (holds_event_kill _ _ _ m _ pid').
  - by apply (holds_event_same _ _ _ m).
  - apply holds_event_attach; [|done]. intros w' Hw' Hp.
    assert (w' = w) as -> by (eapply NoDup_pid_inj; [apply Hinv | done..]).
    destruct Hinv as [_ [_ Hok]]. rewrite List.Forall_forall in Hok.
    by apply (Hok w Hw).
  - unfold worker_spawn. destruct (env_spawn v (ev_addr e)) as [| |pid'];
      [done | by apply (holds_event_same _ _ _ m) |].
    destruct (hashmap_get (workers (emit m (Fork pid'))) pid') eqn:Hget;
      [by apply (holds_event_same _ _ _ m)|].
    cbn [workers emit] in Hget. apply holds_event_attach.
    + cbn [workers set_workers emit]. intros w Hw Hp.
      apply List.in_app_iff in Hw as [Hw|[<-|[]]]; [|done].
      by destruct (hashmap_get_None _ _ w Hget Hw).
    + destruct Hh as (w & Hw & Hrest). exists w. split; [|done].
      cbn [workers set_workers emit]. apply List.in_app_iff. by left.
Qed.

(** [event_free] of the event of another worker. *)
Lemma event_free_holds pid a dead m m1 w' :
  manager_inv m -> In w' (workers m) -> wk_pid w' <> pid -> events m1 = events m ->
  holds_event pid a dead m1 -> holds_event pid a dead (event_free m1 (wk_event w')).
Proof.
  intros Hinv Hw' Hne Hev Hh. destruct (wk_event w') as [a'|] eqn:Ha'; [|done].
  pose proof (event_free_workers m1 a') as H. rewrite Hev in H.
  destruct (find_event a' (events m)) as [ev|] eqn:Hf;
    [|by apply (holds_event_same _ _ _ m1)].
  destruct Hinv as [(_ & Hnd & _) [(_ & P3 & _) _]]. cbn [qview snd] in Hnd.
  destruct (P3 w' a' Hw' Ha') as (e & He & Hea & Hwk).
  assert (ev = e) as ->.
  { rewrite <- Hea in Hf. rewrite (find_event_In _ _ Hnd He) in Hf. congruence. }
  rewrite Hwk in H. by apply (holds_event_other _ _ _ m1 _ (wk_pid w') (set_wk_event None)).
Qed.

Lemma on_worker_message_holds pid a dead m pid' :
  manager_inv m -> pid' <> pid ->
  holds_event pid a dead m -> holds_event pid a dead (on_worker_message m pid').
Proof.
  intros Hinv Hne Hh. unfold on_worker_message.
  destruct (hashmap_get (workers m) pid') as [w'|] eqn:Hget; [|done].
  apply hashmap_get_Some in Hget as [Hin Hp].
  apply (event_free_holds _ _ _ m); [done | done | congruence | by destruct (negb _) |].
  destruct (negb _); [|done].
  by apply (holds_event_other _ _ _ m _ pid' (set_wk_state WORKER_IDLE)).
Qed.

Lemma worker_free_holds pid a dead m w' :
  manager_inv m -> In w' (workers m) -> wk_pid w' <> pid ->
  holds_event pid a dead m -> holds_event pid a dead (worker_free m w').
Proof.
  intros Hinv Hin Hne Hh. unfold worker_free.
  apply (event_free_holds _ _ _ m); [done..|].
  destruct Hh as (w & Hw & Hp & Hrest). exists w. split; [|done].
  cbn [workers set_workers]. apply List.filter_In. split; [done|].
  apply negb_true_iff, Z.eqb_neq. congruence.
Qed.

Lemma on_sigchld_child_holds pid a dead m child :
  manager_inv m -> fst child <> pid ->
  holds_event pid a dead m -> holds_event pid a dead (on_sigchld_child m child).
Proof.
  intros Hinv Hne Hh. destruct child as [pid' status]. cbn [fst] in Hne.
  unfold on_sigchld_child.
  destruct (hashmap_get (workers m) pid') as [w'|] eqn:Hget; [|done].
  apply hashmap_get_Some in Hget as [Hin Hp].
  destruct (_ && _ && _); [done|].
  assert (Hfree : forall m1, manager_inv m1 -> workers m1 = workers m ->
            holds_event pid a dead (worker_free m1 w')).
  { intros m1 H1 Hw1. apply worker_free_holds; [done | by rewrite Hw1 | congruence|].
    by apply (holds_event_same _ _ _ m). }
  destruct (_ || _); [|by apply Hfree].
  destruct (wk_event w') as [a'|]; [|by apply Hfree].
  destruct (find_event a' (events m)) as [ev|]; [|by apply Hfree].
  by apply Hfree.
Qed.

Lemma fold_left_holds {A} (f : Manager -> A -> Manager) (ok : A -> Prop) pid a dead l m :
  (forall m x, manager_inv m -> advances m (f m x)) ->
  (forall m x, manager_inv m -> ok x ->
     holds_event pid a dead m -> holds_event pid a dead (f m x)) ->
  Forall ok l -> manager_inv m ->
  holds_event pid a dead m -> holds_event pid a dead (fold_left f l m).
Proof.
  intros Hadv Hf. revert m. induction l as [|x l IH]; intros m Hok Hinv Hh; cbn [fold_left].
  - done.
  - apply List.Forall_cons_iff in Hok as [Hx Hok].
    apply IH; [done | by eapply advances_inv, Hadv | by apply Hf].
Qed.

(** Over a callback that brings no message of the worker and does not reap
    it, the worker keeps the event it has, and stays killed if it was. *)
Lemma dispatch_holds v m i pid a dead :
  manager_inv m -> input_ok m i -> spares pid i ->
  holds_event pid a dead m -> holds_event pid a dead (dispatch v m i).
Proof.
  intros Hinv Hok Hsp Hh. destruct i; cbn [dispatch spares] in *.
  - destruct Hok as (_ & [Hseq _] & Hnew). unfold on_uevent.
    eapply quiet_step_holds; [|exact Hh].
    eapply quiet_trans; [by apply quiet_insert|]. apply event_queue_start_quiet.
    by eapply advances_inv, event_queue_insert_advances.
  - unfold on_worker.
    assert (H1 : advances m (fold_left on_worker_message pids m)).
    { apply (fold_left_advances on_worker_message); [apply on_worker_message_advances | done]. }
    assert (H2 : holds_event pid a dead (fold_left on_worker_message pids m)).
    { apply (fold_left_holds on_worker_message (fun p => p <> pid));
        [apply on_worker_message_advances | | | done | done].
      - intros m' p Hm' Hp. by apply on_worker_message_holds.
      - apply List.Forall_forall. intros p Hp ->. by apply Hsp. }
    destruct failed; [done|].
    eapply quiet_step_holds; [|exact H2]. apply event_queue_start_quiet. by destruct H1.
  - eapply quiet_step_holds; [|exact Hh]. by apply on_ctrl_msg_quiet.
  - unfold on_sigchld.
    assert (H1 : advances m (fold_left on_sigchld_child children m)).
    { apply (fold_left_advances on_sigchld_child); [apply on_sigchld_child_advances | done]. }
    assert (H2 : holds_event pid a dead (fold_left on_sigchld_child children m)).
    { apply (fold_left_holds on_sigchld_child (fun c => fst c <> pid));
        [apply on_sigchld_child_advances | | | done | done].
      - intros m' c Hm' Hc. by apply on_sigchld_child_holds.
      - apply List.Forall_forall. intros c Hc Heq. apply Hsp. rewrite <- Heq.
        by apply List.in_map. }
    assert (H3 : holds_event pid a dead
                   (event_queue_start v (fold_left on_sigchld_child children m))).
    { eapply quiet_step_holds; [|exact H2]. apply event_queue_start_quiet. by destruct H1. }
    destruct (LIST_IS_EMPTY _); [|done]. by apply (holds_event_same _ _ _ _ _ eq_refl).
  - eapply quiet_step_holds; [|exact Hh]. by apply manager_exit_quiet.
  - eapply quiet_step_holds; [|exact Hh]. by apply manager_reload_quiet.
  - by apply (holds_event_same _ _ _ m).
  - eapply quiet_step_holds; [|exact Hh]. by apply on_event_timeout_quiet.
  - done.
  - eapply quiet_step_holds; [|exact Hh]. by apply manager_kill_workers_quiet.
  - by apply (holds_event_same _ _ _ m).
  - eapply quiet_step_holds; [|exact Hh]. apply on_post_quiet.
Qed.

(** C5 (amended): in every state the manager can reach, a worker in state
    RUNNING has an event attached, a worker with an event attached is RUNNING
    or KILLED, and an IDLE worker has none.  A worker that has an event
    attached, a KILLED one in particular (killed by the kill timer or by
    manager_kill_workers), keeps it until it answers or is reaped: over every
    callback that brings neither a message of the worker nor a result of
    waitpid for it, the worker stays in the pool with that event attached,
    stays KILLED if it was, and the event stays in the queue and points to
    the worker. *)
Theorem attached_event_iff_running_or_killed cgroup children_max event_timeout_usec m w :
  reachable (manager_new cgroup children_max event_timeout_usec) m ->
  In w (workers m) ->
  (wk_state w = WORKER_RUNNING -> wk_event w <> None) /\
  (wk_event w <> None -> wk_state w = WORKER_RUNNING \/ wk_state w = WORKER_KILLED) /\
  (wk_state w = WORKER_IDLE -> wk_event w = None) /\
  (forall v i a,
     input_ok m i -> spares (wk_pid w) i -> wk_event w = Some a ->
     exists w' ev,
       In w' (workers (dispatch v m i)) /\ wk_pid w' = wk_pid w /\
       wk_event w' = Some a /\
       (wk_state w = WORKER_KILLED -> wk_state w' = WORKER_KILLED) /\
       find_event a (events (dispatch v m i)) = Some ev /\
       ev_worker ev = Some (wk_pid w)).
Proof.
  intros Hr Hw.
  assert (Hinv : manager_inv m) by (eapply reachable_inv; [apply manager_new_inv | done]).
  pose proof Hinv as [_ [_ Hok]]. rewrite List.Forall_forall in Hok.
  destruct (Hok w Hw) as (H1 & H2 & H3). split; [done|]. split; [|split; [done|]].
  { intros He. destruct (wk_state w); [done | by left | by destruct He; apply H1 | by right]. }
  intros v i a Hi Hsp Ha.
  set (dead := match wk_state w with WORKER_KILLED => true | _ => false end).
  assert (Hh : holds_event (wk_pid w) a dead m).
  { exists w. split; [done|]. split; [done|]. split; [done|].
    unfold dead. by destruct (wk_state w). }
  apply (dispatch_holds v m i) in Hh as (w' & Hw' & Hp' & Ha' & Hk'); [|done..].
  assert (Hinv' : manager_inv (dispatch v m i)) by (by eapply advances_inv, dispatch_advances).
  destruct Hinv' as [(_ & Hnd & _) [(_ & P3 & _) _]]. cbn [qview snd] in Hnd.
  destruct (P3 w' a Hw' Ha') as (e & He & Hea & Hwk).
  exists w', e. split; [done|]. split; [done|]. split; [done|].
  split; [intros Hk; apply Hk'; unfold dead; by rewrite Hk|].
  split; [rewrite <- Hea; by apply find_event_In | by rewrite <- Hp'].
Qed.

Lemma attached_event_iff_running_or_killed_witness :
  let w := {| wk_pid := 100; wk_state := WORKER_RUNNING; wk_event := Some O |} in
  In w (workers eth0_swapped) /\
  (wk_state w = WORKER_RUNNING -> wk_event w <> None) /\
  (wk_event w <> None -> wk_state w = WORKER_RUNNING \/ wk_state w = WORKER_KILLED) /\
  (wk_state w = WORKER_IDLE -> wk_event w = None) /\
  (forall v i a,
     input_ok eth0_swapped i -> spares (wk_pid w) i -> wk_event w = Some a ->
     exists w' ev,
       In w' (workers (dispatch v eth0_swapped i)) /\ wk_pid w' = wk_pid w /\
       wk_event w' = Some a /\
       (wk_state w = WORKER_KILLED -> wk_state w' = WORKER_KILLED) /\
       find_event a (events (dispatch v eth0_swapped i)) = Some ev /\
       ev_worker ev = Some (wk_pid w)).
Proof.
  cbv zeta. split; [vm_compute; left; reflexivity|].
  apply (attached_event_iff_running_or_killed false 10 default_event_timeout_usec
           eth0_swapped).
  - unfold eth0_swapped. scenario_reachable.
  - vm_compute. left. reflexivity.
Defined.

(** C5 as stated fails: after the kill timer of its event has fired, the
    worker is KILLED and the event is still attached to it; and so it is
    after the timer that kills the workers has fired as well. *)
Lemma killed_worker_keeps_event :
  reachable manager0 eth0_timed_out /\
  workers eth0_timed_out =
    [{| wk_pid := 100; wk_state := WORKER_KILLED; wk_event := Some O |}] /\
  List.map ev_addr (events eth0_timed_out) = [O] /\
  workers (dispatch calm eth0_timed_out InKillWorkers) =
    [{| wk_pid := 100; wk_state := WORKER_KILLED; wk_event := Some O |}].
Proof. split; [apply eth0_timed_out_reachable | by vm_compute]. Qed.
(** ** Nothing is held back without a reason *)

Lemma queue_sorted_In x rest y :
  queue_sorted (x :: rest) -> In y rest -> ev_seqnum x < ev_seqnum y.
Proof.
  intros Hs Hy. apply StronglySorted_inv in Hs as [_ Hx].
  rewrite List.Forall_forall in Hx. by apply Hx.
Qed.

Lemma queue_sorted_seqnum_inj q x y :
  queue_sorted q -> In x q -> In y q -> ev_seqnum x = ev_seqnum y -> x = y.
Proof.
  induction q as [|z q IH]; [done|]. intros Hs Hx Hy Heq.
  pose proof (queue_sorted_In z q) as Hlt.
  destruct Hx as [->|Hx], Hy as [->|Hy]; [done | | |].
  - specialize (Hlt y Hs Hy). lia.
  - specialize (Hlt x Hs Hx). lia.
  - apply IH; try done. by apply StronglySorted_inv in Hs as [Hs _].
Qed.

(** The value the reference algorithm leaves in the cache is the old one or
    the number of an earlier event that [e] has to wait for. *)
Lemma spec_is_busy_cached q e :
  snd (spec_is_busy q e) = ev_delaying_seqnum e \/
  exists x, In x q /\ snd (spec_is_busy q e) = ev_seqnum x /\
            ev_seqnum x < ev_seqnum e /\ depends_on e x.
Proof.
  induction q as [|x q IH]; cbn [spec_is_busy]; [by left|].
  destruct (spec_examine e x) eqn:Hx; cbn [snd]; try by left.
  - destruct IH as [IH|(y & Hy & IH)]; [by left|]. right. exists y. split; [by right | done].
  - right. exists x. split; [by left|]. split; [done|].
    unfold spec_examine in Hx. repeat case_decide; try done.
    split; [lia|]. unfold depends_on. by rewrite Hx.
Qed.

(** A busy answer comes from the cached blocker or from an earlier event
    that [e] has to wait for. *)
Lemma spec_is_busy_true q e :
  fst (spec_is_busy q e) = true ->
  exists x, In x q /\
    (ev_seqnum x = ev_delaying_seqnum e \/ (ev_seqnum x < ev_seqnum e /\ depends_on e x)).
Proof.
  induction q as [|x q IH]; cbn [spec_is_busy]; [done|].
  destruct (spec_examine e x) eqn:Hx; cbn [fst]; try done.
  - intros H. destruct (IH H) as (y & Hy & IH'). exists y. split; [by right | done].
  - intros _. exists x. split; [by left|].
    unfold spec_examine in Hx. repeat case_decide; try done; [by left|].
    right. split; [lia|]. unfold depends_on. by rewrite Hx.
  - intros _. exists x. split; [by left|].
    unfold spec_examine in Hx. repeat case_decide; try done.
    right. split; [lia|]. unfold depends_on. by rewrite Hx.
Qed.

Lemma blockers_map q (g : event -> event) :
  (forall x, In x q -> same_key x (g x)) ->
  (forall e, In e q ->
     (ev_delaying_seqnum (g e) = 0 \/ ev_delaying_seqnum (g e) < ev_seqnum e) /\
     forall x, In x q -> ev_seqnum x = ev_delaying_seqnum (g e) ->
               0 < ev_delaying_seqnum (g e) -> depends_on e x) ->
  Forall (blocker_ok (List.map g q)) (List.map g q).
Proof.
  intros Hkey Hg. apply List.Forall_forall. intros e' He'.
  apply List.in_map_iff in He' as (e & <- & He). destruct (Hg e He) as [H1 H2].
  pose proof (Hkey e He) as Hke. split.
  - destruct Hke as (_ & Hs & _). rewrite Hs. done.
  - intros x' Hx' Hseq Hpos. apply List.in_map_iff in Hx' as (x & <- & Hx).
    pose proof (Hkey x Hx) as Hkx. apply (depends_on_same_key e (g e) x (g x)); [done..|].
    apply H2; [done| |done]. destruct Hkx as (_ & Hs & _). by rewrite <- Hs.
Qed.

Lemma blockers_update q a f :
  Forall (blocker_ok q) q ->
  (forall x, In x q -> same_key x (f x)) ->
  (forall e, In e q -> ev_delaying_seqnum (f e) = ev_delaying_seqnum e) ->
  Forall (blocker_ok (update_event a f q)) (update_event a f q).
Proof.
  intros Hb Hkey Hd. rewrite List.Forall_forall in Hb. apply blockers_map.
  - intros x Hx. destruct (Nat.eqb (ev_addr x) a); [by apply Hkey | apply same_key_refl].
  - intros e He.
    assert (Heq : ev_delaying_seqnum (if Nat.eqb (ev_addr e) a then f e else e)
                  = ev_delaying_seqnum e)
      by (destruct (Nat.eqb (ev_addr e) a); [by apply Hd | done]).
    rewrite Heq. by apply Hb.
Qed.

Lemma queue_step_blockers s s' :
  queue_step s s' -> queue_inv s ->
  Forall (blocker_ok (snd s)) (snd s) -> Forall (blocker_ok (snd s')) (snd s').
Proof.
  induction 1 as [s|s1 s2 s3 H12 IH12 H23 IH23|n q e Ha Hst Hd Hseq Hlen Hnew|n q a
                  |n q a|n q e pid warn kill He Hbusy|n q a]; intros Hinv Hb;
    cbn [snd] in *.
  - done.
  - apply IH23; [by apply (queue_step_inv _ _ H12) | by apply IH12].
  - destruct Hinv as (_ & _ & _ & Hok). cbn [snd] in Hok.
    rewrite List.Forall_forall in Hb, Hok, Hnew. apply List.Forall_forall. intros y Hy.
    apply List.in_app_iff in Hy as [Hy|[<-|[]]].
    + destruct (Hb y Hy) as [H1 H2]. split; [done|]. intros x Hx Hs Hp.
      apply List.in_app_iff in Hx as [Hx|[<-|[]]]; [by apply H2|].
      destruct (Hok y Hy) as (_ & ? & _). specialize (Hnew y Hy). lia.
    + split; [by left|]. intros x Hx Hs Hp. lia.
  - rewrite List.Forall_forall in Hb. apply List.Forall_forall. intros y Hy.
    apply List.filter_In in Hy as [Hy _]. destruct (Hb y Hy) as [H1 H2]. split; [done|].
    intros x Hx. apply List.filter_In in Hx as [Hx _]. by apply H2.
  - pose proof Hinv as (Hs & _ & _ & Hok). cbn [snd] in Hs, Hok.
    rewrite List.Forall_forall in Hb, Hok. apply blockers_map.
    + intros x Hx. destruct (Nat.eqb (ev_addr x) a); [|apply same_key_refl].
      destruct (Hok x Hx) as (H1 & _ & H3 & _).
      by apply (is_devpath_busy_loop_sound q x Hs (queue_inv_len_ok _ _ Hinv) H1 H3).
    + intros e He. destruct (Nat.eqb (ev_addr e) a); [|by apply Hb].
      destruct (Hok e He) as (H1 & _ & _). destruct (Hb e He) as [B1 B2].
      rewrite is_devpath_busy_loop_spec; [|done | by eapply queue_inv_len_ok].
      cbn [snd set_delaying_seqnum ev_delaying_seqnum].
      destruct (spec_is_busy_cached q e) as [->|(x & Hx & -> & Hlt & Hdep)]; [done|].
      split; [by right|]. intros y Hy Hseq _.
      by rewrite (queue_sorted_seqnum_inj q y x Hs Hy Hx Hseq).
  - by apply blockers_update.
  - by apply blockers_update.
Qed.

Lemma reachable_queue_step m0 m :
  manager_inv m0 -> reachable m0 m -> queue_step (qview m0) (qview m).
Proof.
  intros H0. induction 1 as [|m v i Hr IH Hok]; [apply qs_refl|].
  eapply qs_trans; [exact IH|]. apply dispatch_advances; [by eapply reachable_inv | done].
Qed.

Lemma reachable_blockers m0 m :
  manager_inv m0 -> Forall (blocker_ok (events m0)) (events m0) -> reachable m0 m ->
  Forall (blocker_ok (events m)) (events m).
Proof.
  intros H0 Hb Hr.
  apply (queue_step_blockers (qview m0) (qview m)); [by apply reachable_queue_step | apply H0 | done].
Qed.

(** An event of the queue that is reported busy has an earlier event in the
    queue that it has to wait for, the numbers of the queue being positive. *)
Lemma busy_has_blocker m e :
  manager_inv m -> Forall (blocker_ok (events m)) (events m) ->
  Forall (fun x => 0 < ev_seqnum x) (events m) ->
  In e (events m) -> fst (is_devpath_busy m e) = true ->
  exists x, In x (events m) /\ ev_seqnum x < ev_seqnum e /\ depends_on e x.
Proof.
  intros Hinv Hb Hpos He Hbusy. rewrite List.Forall_forall in Hb, Hpos.
  cbn [is_devpath_busy fst] in Hbusy.
  rewrite is_devpath_busy_loop_spec in Hbusy.
  2:{ destruct Hinv as [Hq _]. apply queue_inv_len_ok in Hq.
      rewrite List.Forall_forall in Hq. by apply Hq. }
  2:{ eapply queue_inv_len_ok, Hinv. }
  cbn [fst] in Hbusy. destruct (spec_is_busy_true _ _ Hbusy) as (x & Hx & [Heq|[Hlt Hdep]]).
  - exists x. split; [done|]. destruct (Hb e He) as [B1 B2]. specialize (Hpos x Hx).
    split; [lia|]. apply B2; [done | done | lia].
  - by exists x.
Qed.
(** ** Events *)

(** X1: In every state the manager can reach, an event of the queue is QUEUED or
    RUNNING; it is RUNNING exactly when it points to a worker, which is
    exactly when it holds the source of its kill timer, which is exactly when
    it holds the source of its warning timer (sd_event_add_time being taken
    to succeed). *)
Theorem event_runs_iff_attached cgroup children_max event_timeout_usec m e :
  reachable (manager_new cgroup children_max event_timeout_usec) m ->
  In e (events m) ->
  (ev_state e = EVENT_QUEUED \/ ev_state e = EVENT_RUNNING) /\
  (ev_state e = EVENT_RUNNING <-> ev_worker e <> None) /\
  (ev_worker e <> None <-> ev_timeout e <> None) /\
  (ev_timeout e <> None <-> ev_timeout_warning e <> None).
Proof.
  intros Hr He.
  assert (Hinv : manager_inv m) by (eapply reachable_inv; [apply manager_new_inv | done]).
  assert (Hwf : Forall event_wf (events m)).
  { eapply reachable_event_wf; [apply manager_new_inv | constructor | done]. }
  rewrite List.Forall_forall in Hwf. destruct (Hwf e He) as [(H1 & H2 & H3 & H4) _].
  split; [done|]. split; [|done]. split; [done|].
  destruct Hinv as [_ [(_ & _ & P4) _]].
  destruct (ev_worker e) as [pid|] eqn:Hwk; [|done]. intros _. by apply (P4 e pid).
Qed.

Lemma event_runs_iff_attached_witness :
  exists e,
    nth_event eth0_with_queue 1 = Some e /\
    (ev_state e = EVENT_QUEUED \/ ev_state e = EVENT_RUNNING) /\
    (ev_state e = EVENT_RUNNING <-> ev_worker e <> None) /\
    (ev_worker e <> None <-> ev_timeout e <> None) /\
    (ev_timeout e <> None <-> ev_timeout_warning e <> None).
Proof.
  eexists. split; [vm_compute; reflexivity|].
  apply (event_runs_iff_attached false 10 default_event_timeout_usec eth0_with_queue).
  - unfold eth0_with_queue. scenario_reachable.
  - vm_compute. right. left. reflexivity.
Defined.

(** X2: In every state the manager can reach, the keys an event of the queue
    caches (number, devpath and its length, old devpath, device number,
    interface index, whether the subsystem is block) are those of the device
    the event was queued for, and [dev_kernel] is the clone of that device:
    nothing changes them after [event_queue_insert]. *)
Theorem event_keys_are_those_of_its_device cgroup children_max event_timeout_usec m e :
  reachable (manager_new cgroup children_max event_timeout_usec) m ->
  In e (events m) -> cached_from_device e.
Proof.
  intros Hr He.
  assert (Hwf : Forall event_wf (events m)).
  { eapply reachable_event_wf; [apply manager_new_inv | constructor | done]. }
  rewrite List.Forall_forall in Hwf. by destruct (Hwf e He).
Qed.

Lemma event_keys_are_those_of_its_device_witness :
  exists e, nth_event eth0_with_queue 0 = Some e /\ cached_from_device e.
Proof.
  eexists. split; [vm_compute; reflexivity|].
  apply (event_keys_are_those_of_its_device false 10 default_event_timeout_usec
           eth0_with_queue).
  - unfold eth0_with_queue. scenario_reachable.
  - vm_compute. left. reflexivity.
Defined.

(** X3: In every state the manager can reach, the queue holds its events in
    strictly increasing order of their numbers, no two of them at the same
    address, and the event a worker points to is found in the queue. *)
Theorem queue_is_in_seqnum_order cgroup children_max event_timeout_usec m :
  reachable (manager_new cgroup children_max event_timeout_usec) m ->
  StronglySorted (fun a b => ev_seqnum a < ev_seqnum b) (events m) /\
  List.NoDup (List.map ev_addr (events m)) /\
  forall w a, In w (workers m) -> wk_event w = Some a ->
    exists e, find_event a (events m) = Some e /\ ev_worker e = Some (wk_pid w).
Proof.
  intros Hr.
  assert (Hinv : manager_inv m) by (eapply reachable_inv; [apply manager_new_inv | done]).
  destruct Hinv as [(Hs & Hnd & _) [(_ & P3 & _) _]]. cbn [qview snd] in *.
  split; [done|]. split; [done|]. intros w a Hw Ha.
  destruct (P3 w a Hw Ha) as (e & He & <- & Hwk). exists e. split; [|done].
  by apply find_event_In.
Qed.

Lemma queue_is_in_seqnum_order_witness :
  StronglySorted (fun a b => ev_seqnum a < ev_seqnum b) (events eth0_with_queue) /\
  List.NoDup (List.map ev_addr (events eth0_with_queue)) /\
  forall w a, In w (workers eth0_with_queue) -> wk_event w = Some a ->
    exists e, find_event a (events eth0_with_queue) = Some e /\
              ev_worker e = Some (wk_pid w).
Proof.
  apply (queue_is_in_seqnum_order false 10 default_event_timeout_usec eth0_with_queue).
  unfold eth0_with_queue. scenario_reachable.
Defined.

(** ** The busy predicate *)

(** X4: In every state the manager can reach in which the numbers of the queued
    events are positive, [is_devpath_busy] reports an event of the queue busy
    exactly when the queue holds an earlier event that the event has to wait
    for (same device node, same interface, old devpath, same devpath without
    device identity, parent or child): no event is held back without such an
    event, the cached blocker included. *)
Theorem busy_iff_earlier_conflict cgroup children_max event_timeout_usec m e :
  reachable (manager_new cgroup children_max event_timeout_usec) m ->
  Forall (fun x => 0 < ev_seqnum x) (events m) ->
  In e (events m) ->
  fst (is_devpath_busy m e) = true <->
  exists x, In x (events m) /\ ev_seqnum x < ev_seqnum e /\ depends_on e x.
Proof.
  intros Hr Hpos He.
  assert (Hinv : manager_inv m) by (eapply reachable_inv; [apply manager_new_inv | done]).
  split.
  - apply busy_has_blocker; try done.
    eapply reachable_blockers; [apply manager_new_inv | constructor | done].
  - intros (x & Hx & Hlt & Hdep). by apply (held_back_event m x e).
Qed.

Lemma busy_iff_earlier_conflict_witness :
  exists e,
    nth_event eth0_with_queue 1 = Some e /\
    (fst (is_devpath_busy eth0_with_queue e) = true <->
     exists x, In x (events eth0_with_queue) /\ ev_seqnum x < ev_seqnum e /\ depends_on e x).
Proof.
  eexists. split; [vm_compute; reflexivity|].
  apply (busy_iff_earlier_conflict false 10 default_event_timeout_usec eth0_with_queue).
  - unfold eth0_with_queue. scenario_reachable.
  - vm_compute. repeat constructor.
  - vm_compute. right. left. reflexivity.
Defined.

(** X5: In every state the manager can reach, the first event of the queue is
    reported busy exactly when its number is 0: an event with a positive
    number at the head of the queue can always be started, and an event with
    the number 0 meets its own number in the cache and is never started. *)
Theorem head_of_queue_busy_iff_seqnum_zero cgroup children_max event_timeout_usec m e rest :
  reachable (manager_new cgroup children_max event_timeout_usec) m ->
  events m = e :: rest ->
  fst (is_devpath_busy m e) = true <-> ev_seqnum e = 0.
Proof.
  intros Hr Hq.
  assert (Hinv : manager_inv m) by (eapply reachable_inv; [apply manager_new_inv | done]).
  pose proof Hinv as [(Hs & _ & _ & Hok) _]. cbn [qview snd] in Hs, Hok.
  rewrite List.Forall_forall in Hok.
  assert (He : In e (events m)) by (rewrite Hq; by left).
  destruct (Hok e He) as (_ & Hd & _).
  split.
  - intros Hbusy. destruct (Z.eq_dec (ev_seqnum e) 0) as [|Hne]; [done|]. exfalso.
    assert (Hmin : forall x, In x (events m) -> ev_seqnum e <= ev_seqnum x).
    { intros x Hx. rewrite Hq in Hx, Hs. destruct Hx as [<-|Hx]; [lia|].
      pose proof (queue_sorted_In e rest x Hs Hx). lia. }
    destruct (busy_has_blocker m e) as (x & Hx & Hlt & _); try done.
    + eapply reachable_blockers; [apply manager_new_inv | constructor | done].
    + apply List.Forall_forall. intros x Hx. specialize (Hmin x Hx). lia.
    + specialize (Hmin x Hx). lia.
  - intros H0. cbn [is_devpath_busy fst]. rewrite Hq. cbn [is_devpath_busy_loop].
    replace (ev_delaying_seqnum e) with 0 by lia. rewrite H0. done.
Qed.

Lemma head_of_queue_busy_iff_seqnum_zero_witness :
  exists e rest,
    events eth0_with_queue = e :: rest /\
    (fst (is_devpath_busy eth0_with_queue e) = true <-> ev_seqnum e = 0).
Proof.
  eexists _, _. split; [vm_compute; reflexivity|].
  eapply (head_of_queue_busy_iff_seqnum_zero false 10 default_event_timeout_usec
            eth0_with_queue).
  - unfold eth0_with_queue. scenario_reachable.
  - vm_compute. reflexivity.
Defined.

(** ** Workers and their events *)

Lemma hashmap_get_In ws w :
  List.NoDup (List.map wk_pid ws) -> In w ws -> hashmap_get ws (wk_pid w) = Some w.
Proof.
  intros Hnd Hw. destruct (hashmap_get ws (wk_pid w)) as [w'|] eqn:Hget.
  - apply hashmap_get_Some in Hget as [Hin Hp]. f_equal. by eapply NoDup_pid_inj.
  - by destruct (hashmap_get_None _ _ w Hget Hw).
Qed.

(** X6: In every state the manager can reach, the worker an event of the queue
    points to is in the pool, points back to that event and is RUNNING or
    KILLED, and no other event of the queue points to that worker. *)
Theorem event_worker_points_back cgroup children_max event_timeout_usec m e pid :
  reachable (manager_new cgroup children_max event_timeout_usec) m ->
  In e (events m) -> ev_worker e = Some pid ->
  (exists w, hashmap_get (workers m) pid = Some w /\ wk_event w = Some (ev_addr e) /\
             (wk_state w = WORKER_RUNNING \/ wk_state w = WORKER_KILLED)) /\
  (forall e', In e' (events m) -> ev_worker e' = Some pid -> e' = e).
Proof.
  intros Hr He Hwk.
  assert (Hinv : manager_inv m) by (eapply reachable_inv; [apply manager_new_inv | done]).
  assert (Hback : worker_of_event_attached m).
  { eapply reachable_back_links; [apply manager_new_inv | by intros ? ? [] | done]. }
  destruct Hinv as [(_ & Hnd & _) [(Hpid & _ & _) Hok]]. cbn [qview snd] in Hnd.
  rewrite List.Forall_forall in Hok.
  destruct (Hback e pid He Hwk) as (w & Hw & Hp & Hev). split.
  - exists w. split; [rewrite <- Hp; by apply hashmap_get_In|]. split; [done|].
    destruct (Hok w Hw) as (H1 & _ & H3).
    destruct (wk_state w); [done | by left | rewrite H1 in Hev; done | by right].
  - intros e' He' Hwk'. destruct (Hback e' pid He' Hwk') as (w' & Hw' & Hp' & Hev').
    assert (w' = w) as -> by (eapply NoDup_pid_inj; [done..|congruence]).
    eapply NoDup_addr_inj; [done..|congruence].
Qed.

Lemma event_worker_points_back_witness :
  exists e,
    nth_event eth0_swapped 1 = Some e /\ ev_worker e = Some 101 /\
    (exists w, hashmap_get (workers eth0_swapped) 101 = Some w /\
               wk_event w = Some (ev_addr e) /\
               (wk_state w = WORKER_RUNNING \/ wk_state w = WORKER_KILLED)) /\
    (forall e', In e' (events eth0_swapped) -> ev_worker e' = Some 101 -> e' = e).
Proof.
  eexists. split; [vm_compute; reflexivity|]. split; [reflexivity|].
  apply (event_worker_points_back false 10 default_event_timeout_usec eth0_swapped).
  - unfold eth0_swapped. scenario_reachable.
  - vm_compute. right. left. reflexivity.
  - reflexivity.
Defined.

(** X7: In every state the manager can reach, the last thing the manager did to
    /run/udev/queue is a touch when the queue holds an event, and an unlink,
    or nothing at all, when the queue is empty: as far as touch and unlink
    succeed, the file exists exactly while events are queued. *)
Theorem queue_marker_follows_queue cgroup children_max event_timeout_usec m :
  reachable (manager_new cgroup children_max event_timeout_usec) m ->
  marker_exists (trace m) = negb (LIST_IS_EMPTY (events m)).
Proof.
  intros Hr. by apply (reachable_marker (manager_new cgroup children_max event_timeout_usec) m);
    [apply manager_new_inv | |].
Qed.

Lemma queue_marker_follows_queue_witness :
  marker_exists (trace eth0_swapped) = negb (LIST_IS_EMPTY (events eth0_swapped)).
Proof.
  apply (queue_marker_follows_queue false 10 default_event_timeout_usec eth0_swapped).
  unfold eth0_swapped. scenario_reachable.
Defined.

(** X8: In every state the manager can reach, a callback other than the one for
    SIGCHLD removes no worker from the pool, and a worker that is KILLED is
    still KILLED afterwards: only reaping ends a killed worker, and it is
    never made idle or given an event again. *)
Theorem killed_worker_stays_until_reaped cgroup children_max event_timeout_usec m v i w :
  reachable (manager_new cgroup children_max event_timeout_usec) m ->
  input_ok m i -> reaps i = false -> In w (workers m) ->
  exists w', In w' (workers (dispatch v m i)) /\ wk_pid w' = wk_pid w /\
             (wk_state w = WORKER_KILLED -> wk_state w' = WORKER_KILLED).
Proof.
  intros Hr Hok Hi Hw.
  assert (Hinv : manager_inv m) by (eapply reachable_inv; [apply manager_new_inv | done]).
  pose proof (dispatch_steps v m i Hinv Hok) as Hs.
  by apply (mgr_step_pool_kept _ _ _ Hs Hi w).
Qed.

Lemma killed_worker_stays_until_reaped_witness :
  let w := {| wk_pid := 100; wk_state := WORKER_KILLED; wk_event := Some O |} in
  In w (workers eth0_timed_out) /\
  exists w', In w' (workers (dispatch calm eth0_timed_out (InWorker [100] false))) /\
             wk_pid w' = wk_pid w /\
             (wk_state w = WORKER_KILLED -> wk_state w' = WORKER_KILLED).
Proof.
  cbv zeta. split; [vm_compute; left; reflexivity|].
  apply (killed_worker_stays_until_reaped false 10 default_event_timeout_usec eth0_timed_out).
  - unfold eth0_timed_out. scenario_reachable.
  - exact I.
  - reflexivity.
  - vm_compute. left. reflexivity.
Defined.
(** ** Killing the workers *)

Lemma set_wk_state_same w : set_wk_state (wk_state w) w = w.
Proof. by destruct w. Qed.

Lemma worker_state_eqb_eq a b : worker_state_eqb a b = true <-> a = b.
Proof. by destruct a, b. Qed.

Lemma manager_kill_workers_loop ws m :
  let m' := fold_left
       (fun m w =>
          if worker_state_eqb (wk_state w) WORKER_KILLED then m
          else
            let m := set_workers m
                       (update_worker (wk_pid w) (set_wk_state WORKER_KILLED) (workers m)) in
            emit m (Kill (wk_pid w) SIGTERM))
       ws m in
  workers m' =
    List.map (fun w => if existsb (fun x => (wk_pid x =? wk_pid w) && not_killed x) ws
                       then set_wk_state WORKER_KILLED w else w) (workers m) /\
  events m' = events m /\
  trace m' =
    rev (List.map (fun w => Kill (wk_pid w) SIGTERM) (List.filter not_killed ws)) ++ trace m.
Proof.
  cbv zeta. revert m. induction ws as [|x ws IH]; intros m; cbn [fold_left].
  - split; [|done]. cbn [existsb]. by rewrite List.map_id.
  - cbn [existsb List.filter]. unfold not_killed at 1 3.
    destruct (worker_state_eqb (wk_state x) WORKER_KILLED) eqn:Hk; cbn [negb].
    + destruct (IH m) as (H1 & H2 & H3). split; [|done]. rewrite H1.
      apply List.map_ext. intros w. by rewrite andb_false_r.
    + set (m1 := emit _ _). destruct (IH m1) as (H1 & H2 & H3).
      split; [|split; [done|]].
      * rewrite H1. cbn [m1 workers emit set_workers]. unfold update_worker.
        rewrite List.map_map. apply List.map_ext. intros w. rewrite andb_true_r.
        rewrite (Z.eqb_sym (wk_pid x) (wk_pid w)).
        destruct (wk_pid w =? wk_pid x) eqn:Hp; cbn [orb]; [|done].
        cbn [set_wk_state wk_pid]. by destruct (existsb _ ws).
      * rewrite H3. cbn [m1 trace emit set_workers List.map rev]. by rewrite <- app_assoc.
Qed.

(** X9: [manager_kill_workers] marks every worker of the pool KILLED, keeping
    its pid and its event; it sends SIGTERM to the workers that were not
    KILLED before, once each and in the order of the pool, and to no other;
    it leaves the queue alone; a second call right after it sends nothing and
    changes nothing. *)
Theorem manager_kill_workers_kills_each_once m :
  workers (manager_kill_workers m) = List.map (set_wk_state WORKER_KILLED) (workers m) /\
  events (manager_kill_workers m) = events m /\
  trace (manager_kill_workers m) =
    rev (List.map (fun w => Kill (wk_pid w) SIGTERM) (List.filter not_killed (workers m)))
    ++ trace m /\
  manager_kill_workers (manager_kill_workers m) = manager_kill_workers m.
Proof.
  pose proof (manager_kill_workers_loop (workers m) m) as H. cbv zeta in H.
  change (fold_left _ (workers m) m) with (manager_kill_workers m) in H.
  destruct H as (H1 & H2 & H3).
  assert (Hw : workers (manager_kill_workers m)
               = List.map (set_wk_state WORKER_KILLED) (workers m)).
  { rewrite H1. apply List.map_ext_in. intros w Hw.
    destruct (existsb _ (workers m)) eqn:Hex; [done|].
    assert (Hk : not_killed w = false).
    { destruct (not_killed w) eqn:Hn; [|done].
      assert (existsb (fun x => (wk_pid x =? wk_pid w) && not_killed x) (workers m) = true);
        [|congruence].
      apply List.existsb_exists. exists w. by rewrite Z.eqb_refl, Hn. }
    apply negb_false_iff, worker_state_eqb_eq in Hk. by rewrite <- Hk, set_wk_state_same. }
  split; [done|]. split; [done|]. split; [done|].
  unfold manager_kill_workers at 1. rewrite Hw.
  generalize (manager_kill_workers m). generalize (workers m). clear.
  intros ws. induction ws as [|w ws IH]; intros m'; [done|].
  cbn [List.map fold_left set_wk_state wk_state worker_state_eqb]. apply IH.
Qed.

(** ** Cleaning the queue *)

Lemma event_queue_cleanup_loop match_type evs m :
  events (fold_left
            (fun m ev =>
               if negb (event_state_eqb match_type EVENT_UNDEF)
                  && negb (event_state_eqb match_type (ev_state ev)) then m
               else event_free m (Some (ev_addr ev)))
            evs m)
  = List.filter
      (fun e => negb (existsb (fun x => Nat.eqb (ev_addr e) (ev_addr x)
                                        && negb (survives_cleanup match_type x)) evs))
      (events m).
Proof.
  revert m. induction evs as [|x evs IH]; intros m; cbn [fold_left existsb].
  - symmetry. apply List.forallb_filter_id. by apply List.forallb_forall.
  - fold (survives_cleanup match_type x).
    destruct (survives_cleanup match_type x); cbn [negb].
    + rewrite IH. apply List.filter_ext. intros e. by rewrite andb_false_r.
    + rewrite IH, events_event_free. unfold remove_event.
      clear IH. induction (events m) as [|e q IHq]; [done|].
      cbn [List.filter]. rewrite andb_true_r.
      destruct (Nat.eqb (ev_addr e) (ev_addr x)); cbn [negb orb]; [done|].
      cbn [List.filter]. destruct (negb (existsb _ evs)); by rewrite IHq.
Qed.

(** X10: [event_queue_cleanup] frees the events in the state asked for, and
    every event when asked for EVENT_UNDEF, and leaves the other events in
    the queue, in their order (the events of the queue being at different
    addresses). *)
Theorem event_queue_cleanup_removes_matching m match_type :
  List.NoDup (List.map ev_addr (events m)) ->
  events (event_queue_cleanup m match_type)
  = List.filter (survives_cleanup match_type) (events m) /\
  (match_type = EVENT_UNDEF -> events (event_queue_cleanup m match_type) = []) /\
  (forall e, In e (events (event_queue_cleanup m match_type)) ->
     In e (events m) /\ ev_state e <> match_type).
Proof.
  intros Hnd.
  assert (H : events (event_queue_cleanup m match_type)
              = List.filter (survives_cleanup match_type) (events m)).
  { unfold event_queue_cleanup. rewrite event_queue_cleanup_loop.
    apply List.filter_ext_in. intros e He.
    destruct (survives_cleanup match_type e) eqn:Hs.
    - apply negb_true_iff. destruct (existsb _ (events m)) eqn:Hex; [|done].
      apply List.existsb_exists in Hex as (x & Hx & Hex).
      apply andb_true_iff in Hex as [Ha Hn]. apply Nat.eqb_eq in Ha.
      assert (x = e) as -> by (by eapply NoDup_addr_inj). by rewrite Hs in Hn.
    - apply negb_false_iff, List.existsb_exists. exists e.
      by rewrite Nat.eqb_refl, Hs. }
  split; [done|]. split.
  - intros ->. rewrite H. clear. induction (events m) as [|e q IH]; [done|].
    cbn [List.filter]. unfold survives_cleanup at 1. by cbn [event_state_eqb negb andb].
  - intros e He. rewrite H in He. apply List.filter_In in He as [He Hs].
    split; [done|]. unfold survives_cleanup in Hs. apply andb_true_iff in Hs as [_ Hs].
    intros <-. by destruct (ev_state e).
Qed.

Lemma event_queue_cleanup_removes_matching_witness :
  List.NoDup (List.map ev_addr (events eth0_with_queue)) /\
  events (event_queue_cleanup eth0_with_queue EVENT_QUEUED)
  = List.filter (survives_cleanup EVENT_QUEUED) (events eth0_with_queue) /\
  (EVENT_QUEUED = EVENT_UNDEF -> events (event_queue_cleanup eth0_with_queue EVENT_QUEUED) = []) /\
  (forall e, In e (events (event_queue_cleanup eth0_with_queue EVENT_QUEUED)) ->
     In e (events eth0_with_queue) /\ ev_state e <> EVENT_QUEUED).
Proof.
  assert (H : List.NoDup (List.map ev_addr (events eth0_with_queue))).
  { vm_compute. repeat constructor; simpl; intuition discriminate. }
  split; [exact H|].
  apply (event_queue_cleanup_removes_matching eth0_with_queue EVENT_QUEUED H).
Defined.
(** ** What scheduling leaves alone *)

Lemma same_settings_refl m : same_settings m m.
Proof. by repeat split. Qed.

Lemma same_settings_trans m1 m2 m3 :
  same_settings m1 m2 -> same_settings m2 m3 -> same_settings m1 m3.
Proof.
  intros (A1 & A2 & A3 & A4 & A5 & A6 & A7 & A8) (B1 & B2 & B3 & B4 & B5 & B6 & B7 & B8).
  repeat split; congruence.
Qed.

Lemma same_settings_fold {A} (f : Manager -> A -> Manager) l m :
  (forall m x, same_settings m (f m x)) -> same_settings m (fold_left f l m).
Proof.
  intros Hf. revert m. induction l as [|x l IH]; intros m; cbn [fold_left].
  - apply same_settings_refl.
  - eapply same_settings_trans; [apply Hf | apply IH].
Qed.

Lemma event_free_settings m p : same_settings m (event_free m p).
Proof.
  destruct p as [a|]; [|apply same_settings_refl]. unfold event_free.
  destruct (find_event a (events m)) as [ev|]; [|apply same_settings_refl].
  destruct (ev_worker ev); by destruct (LIST_IS_EMPTY _).
Qed.

Lemma worker_free_settings m w : same_settings m (worker_free m w).
Proof.
  unfold worker_free.
  apply (same_settings_trans _ (set_workers m (hashmap_remove (workers m) (wk_pid w))));
    [done | apply event_free_settings].
Qed.

Lemma manager_kill_workers_settings m : same_settings m (manager_kill_workers m).
Proof.
  apply same_settings_fold. intros m' w.
  by destruct (worker_state_eqb (wk_state w) WORKER_KILLED).
Qed.

Lemma manager_reload_settings m : same_settings m (manager_reload m).
Proof.
  unfold manager_reload. eapply same_settings_trans; [apply manager_kill_workers_settings | done].
Qed.

Lemma event_queue_cleanup_settings m t : same_settings m (event_queue_cleanup m t).
Proof.
  apply same_settings_fold. intros m' ev.
  destruct (_ && _); [apply same_settings_refl | apply event_free_settings].
Qed.

Lemma worker_spawn_settings v m a : same_settings m (worker_spawn v m a).
Proof.
  unfold worker_spawn. destruct (env_spawn v a) as [| |pid]; [done | done |].
  by destruct (hashmap_get _ pid).
Qed.

Lemma event_run_workers_settings v ev ws m :
  same_settings m (fst (event_run_workers v ev ws m)).
Proof.
  revert m. induction ws as [|w ws IH]; intros m; cbn [event_run_workers]; [done|].
  destruct (negb (worker_state_eqb (wk_state w) WORKER_IDLE)); [apply IH|].
  destruct (negb (env_send v (wk_pid w) (ev_addr ev))); [|done].
  eapply same_settings_trans; [|apply IH]. done.
Qed.

Lemma event_run_settings v m ev : same_settings m (event_run v m ev).
Proof.
  unfold event_run. pose proof (event_run_workers_settings v ev (workers m) m) as H.
  destruct (event_run_workers v ev (workers m) m) as [m1 attached]. cbn [fst] in H.
  destruct attached; [done|].
  destruct (hashmap_size (workers m1) >=? arg_children_max m1); [done|].
  eapply same_settings_trans; [exact H | apply worker_spawn_settings].
Qed.

Lemma event_queue_start_loop_settings v todo m :
  same_settings m (event_queue_start_loop v todo m).
Proof.
  revert m. induction todo as [|a todo IH]; intros m; cbn [event_queue_start_loop]; [done|].
  destruct (find_event a (events m)) as [ev|]; [|apply IH].
  destruct (negb (event_state_eqb (ev_state ev) EVENT_QUEUED)); [apply IH|].
  cbn [is_devpath_busy]. destruct (fst (is_devpath_busy_loop (events m) ev)).
  - eapply same_settings_trans; [|apply IH]. done.
  - eapply same_settings_trans; [|apply IH].
    eapply same_settings_trans; [|apply event_run_settings]. done.
Qed.

Lemma event_queue_start_settings v m : same_settings m (event_queue_start v m).
Proof.
  unfold event_queue_start.
  destruct (LIST_IS_EMPTY (events m) || exit m || stop_exec_queue m);
    [apply same_settings_refl|].
  set (m1 := if (last_usec m =? 0) || _ then _ else m).
  assert (H1 : same_settings m m1).
  { unfold m1. destruct ((last_usec m =? 0) || _); [|apply same_settings_refl].
    destruct (env_config_changed v); [|done].
    eapply same_settings_trans; [apply manager_reload_settings | done]. }
  eapply same_settings_trans; [exact H1|].
  eapply (same_settings_trans _ (set_kill_workers_event m1 None)); [done|].
  destruct (rules (set_kill_workers_event m1 None)).
  - apply event_queue_start_loop_settings.
  - destruct (env_rules_new v); [|apply same_settings_refl].
    eapply same_settings_trans; [|apply event_queue_start_loop_settings]. done.
Qed.

Lemma on_worker_message_settings m pid : same_settings m (on_worker_message m pid).
Proof.
  unfold on_worker_message. destruct (hashmap_get (workers m) pid) as [w|];
    [|apply same_settings_refl].
  eapply same_settings_trans; [|apply event_free_settings]. by destruct (negb _).
Qed.

Lemma on_sigchld_child_settings m child : same_settings m (on_sigchld_child m child).
Proof.
  destruct child as [pid status]. unfold on_sigchld_child.
  destruct (hashmap_get (workers m) pid) as [w|]; [|apply same_settings_refl].
  destruct (_ && _ && _); [apply same_settings_refl|].
  eapply same_settings_trans; [|apply worker_free_settings].
  destruct (_ || _); [|apply same_settings_refl].
  destruct (wk_event w) as [a|]; [|apply same_settings_refl].
  by destruct (find_event a (events m)).
Qed.

Lemma event_queue_insert_settings m dev : same_settings m (event_queue_insert m dev).
Proof. unfold event_queue_insert. by destruct (LIST_IS_EMPTY _). Qed.

Lemma on_event_timeout_settings m a : same_settings m (on_event_timeout m a).
Proof.
  unfold on_event_timeout. destruct (find_event a (events m)) as [ev|]; [|done].
  by destruct (ev_worker ev).
Qed.

(** A callback other than a control message or one that begins the shutdown
    changes none of the settings but the exit code. *)
Lemma dispatch_settings v m i :
  match i with InCtrl _ | InSigterm => False | _ => True end ->
  has_cgroup (dispatch v m i) = has_cgroup m /\
  properties (dispatch v m i) = properties m /\
  exit (dispatch v m i) = exit m /\
  arg_children_max (dispatch v m i) = arg_children_max m /\
  arg_event_timeout_usec (dispatch v m i) = arg_event_timeout_usec m /\
  stop_exec_queue (dispatch v m i) = stop_exec_queue m /\
  exit_timeout (dispatch v m i) = exit_timeout m.
Proof.
  assert (Hs : forall m', same_settings m m' ->
            has_cgroup m' = has_cgroup m /\ properties m' = properties m /\
            exit m' = exit m /\ arg_children_max m' = arg_children_max m /\
            arg_event_timeout_usec m' = arg_event_timeout_usec m /\
            stop_exec_queue m' = stop_exec_queue m /\ exit_timeout m' = exit_timeout m).
  { intros m' (A1 & A2 & A3 & A4 & A5 & A6 & A7 & A8). by repeat split. }
  intros Hi. destruct i; cbn [dispatch]; try done.
  - apply Hs. unfold on_uevent.
    eapply same_settings_trans; [apply event_queue_insert_settings | apply event_queue_start_settings].
  - apply Hs. unfold on_worker.
    eapply same_settings_trans;
      [apply (same_settings_fold on_worker_message), on_worker_message_settings|].
    destruct failed; [apply same_settings_refl | apply event_queue_start_settings].
  - apply Hs. unfold on_sigchld.
    eapply same_settings_trans;
      [apply (same_settings_fold on_sigchld_child), on_sigchld_child_settings|].
    eapply same_settings_trans; [apply event_queue_start_settings|].
    by destruct (LIST_IS_EMPTY _).
  - apply Hs, manager_reload_settings.
  - apply Hs, on_event_timeout_settings.
  - apply Hs, manager_kill_workers_settings.
  - unfold on_post.
    destruct (negb (LIST_IS_EMPTY (events m))); [done|].
    destruct (negb (LIST_IS_EMPTY (workers m))); [done|].
    destruct (exit m) eqn:He; [by repeat split|].
    destruct (has_cgroup m) eqn:Hc; by repeat split.
Qed.

Lemma manager_exit_exit v m :
  exit (manager_exit v m) = true /\
  has_cgroup (manager_exit v m) = has_cgroup m /\
  properties (manager_exit v m) = properties m /\
  arg_children_max (manager_exit v m) = arg_children_max m /\
  arg_event_timeout_usec (manager_exit v m) = arg_event_timeout_usec m /\
  stop_exec_queue (manager_exit v m) = stop_exec_queue m.
Proof.
  unfold manager_exit. cbn [set_exit_timeout exit has_cgroup properties arg_children_max
                            arg_event_timeout_usec stop_exec_queue].
  pose proof (manager_kill_workers_settings
                (event_queue_cleanup (set_monitor (set_exit m true) false) EVENT_QUEUED))
    as (A1 & A2 & A3 & A4 & A5 & A6 & _).
  pose proof (event_queue_cleanup_settings (set_monitor (set_exit m true) false) EVENT_QUEUED)
    as (B1 & B2 & B3 & B4 & B5 & B6 & _).
  rewrite A1, A2, A3, A4, A5, A6, B1, B2, B3, B4, B5, B6. done.
Qed.

Lemma on_ctrl_msg_rest_settings v m msg :
  has_cgroup (on_ctrl_msg_rest v m msg) = has_cgroup m /\
  arg_event_timeout_usec (on_ctrl_msg_rest v m msg) = arg_event_timeout_usec m /\
  properties (on_ctrl_msg_rest v m msg) = properties m /\
  exit (on_ctrl_msg_rest v m msg) = (exit m || (ctrl_exit msg >? 0)) /\
  arg_children_max (on_ctrl_msg_rest v m msg)
  = (if ctrl_set_children_max msg >=? 0 then ctrl_set_children_max msg
     else arg_children_max m).
Proof.
  unfold on_ctrl_msg_rest.
  set (m1 := if ctrl_set_children_max msg >=? 0 then _ else m).
  assert (H1 : has_cgroup m1 = has_cgroup m /\
               arg_event_timeout_usec m1 = arg_event_timeout_usec m /\
               properties m1 = properties m /\ exit m1 = exit m /\
               arg_children_max m1
               = (if ctrl_set_children_max msg >=? 0 then ctrl_set_children_max msg
                  else arg_children_max m))
    by (unfold m1; by destruct (ctrl_set_children_max msg >=? 0)).
  destruct H1 as (A1 & A2 & A3 & A4 & A5).
  destruct (ctrl_exit msg >? 0).
  - destruct (manager_exit_exit v m1) as (E1 & E2 & E3 & E4 & E5 & E6).
    rewrite E1, E2, E3, E4, E5, orb_true_r. by repeat split.
  - rewrite orb_false_r. done.
Qed.

Lemma on_ctrl_msg_settings v m msg :
  has_cgroup (on_ctrl_msg v m msg) = has_cgroup m /\
  arg_event_timeout_usec (on_ctrl_msg v m msg) = arg_event_timeout_usec m /\
  exit (on_ctrl_msg v m msg) = (exit m || (ctrl_complete msg && (ctrl_exit msg >? 0))) /\
  arg_children_max (on_ctrl_msg v m msg)
  = (if ctrl_complete msg && (ctrl_set_children_max msg >=? 0)
     then ctrl_set_children_max msg else arg_children_max m) /\
  (ctrl_set_env msg = None -> properties (on_ctrl_msg v m msg) = properties m).
Proof.
  unfold on_ctrl_msg, ctrl_complete.
  set (m1 := if ctrl_set_log_level msg >=? 0 then manager_kill_workers m else m).
  assert (H1 : same_settings m m1).
  { unfold m1. destruct (ctrl_set_log_level msg >=? 0);
      [apply manager_kill_workers_settings | apply same_settings_refl]. }
  set (m2 := if ctrl_stop_exec_queue msg >? 0 then set_stop_exec_queue m1 true else m1).
  set (m3 := if ctrl_start_exec_queue msg >? 0
             then event_queue_start v (set_stop_exec_queue m2 false) else m2).
  set (m4 := if ctrl_reload msg >? 0 then manager_reload m3 else m3).
  assert (H4 : has_cgroup m4 = has_cgroup m /\
               arg_event_timeout_usec m4 = arg_event_timeout_usec m /\
               properties m4 = properties m /\ exit m4 = exit m /\
               arg_children_max m4 = arg_children_max m).
  { destruct H1 as (A1 & A2 & A3 & A4 & A5 & _).
    assert (H2 : has_cgroup m2 = has_cgroup m /\
               arg_event_timeout_usec m2 = arg_event_timeout_usec m /\
               properties m2 = properties m /\ exit m2 = exit m /\
               arg_children_max m2 = arg_children_max m)
      by (unfold m2; by destruct (ctrl_stop_exec_queue msg >? 0)).
    assert (H3 : has_cgroup m3 = has_cgroup m /\
               arg_event_timeout_usec m3 = arg_event_timeout_usec m /\
               properties m3 = properties m /\ exit m3 = exit m /\
               arg_children_max m3 = arg_children_max m).
    { unfold m3. destruct (ctrl_start_exec_queue msg >? 0); [|done].
      destruct (event_queue_start_settings v (set_stop_exec_queue m2 false))
        as (B1 & B2 & B3 & B4 & B5 & _).
      rewrite B1, B2, B3, B4, B5. done. }
    unfold m4. destruct (ctrl_reload msg >? 0); [|done].
    destruct (manager_reload_settings m3) as (B1 & B2 & B3 & B4 & B5 & _).
    rewrite B1, B2, B3, B4, B5. done. }
  destruct H4 as (A1 & A2 & A3 & A4 & A5).
  destruct (ctrl_set_env msg) as [str|].
  - destruct (strchr_eq str) as [[key eq]|].
    + set (m6 := if negb (isempty eq) then _ else _).
      assert (H6 : has_cgroup m6 = has_cgroup m /\
                   arg_event_timeout_usec m6 = arg_event_timeout_usec m /\
                   exit m6 = exit m /\ arg_children_max m6 = arg_children_max m)
        by (unfold m6; by destruct (negb (isempty eq))).
      destruct H6 as (C1 & C2 & C3 & C4).
      destruct (manager_kill_workers_settings m6) as (B1 & B2 & B3 & B4 & B5 & _).
      destruct (on_ctrl_msg_rest_settings v (manager_kill_workers m6) msg)
        as (R1 & R2 & R3 & R4 & R5).
      rewrite R1, R2, R4, R5, B1, B3, B4, B5, C1, C2, C3, C4. cbn [andb]. done.
    + rewrite A1, A2, A4, A5. cbn [andb]. rewrite orb_false_r. done.
  - destruct (on_ctrl_msg_rest_settings v m4 msg) as (R1 & R2 & R3 & R4 & R5).
    rewrite R1, R2, R3, R4, R5, A1, A2, A3, A4, A5. cbn [andb]. done.
Qed.

(** X11: What a callback does to the settings of the manager: the cgroup and the
    event timeout never change; exit is set by SIGTERM and by a control
    message that asks for it, and never cleared; children_max is changed by a
    control message that sets it and by nothing else; the properties for the
    workers are changed by nothing but a control message that sets a
    variable.  A control message that sets a variable without a '=' is cut
    short: its requests to set children_max or to exit are dropped. *)
Theorem settings_change_by_control_only v m i :
  has_cgroup (dispatch v m i) = has_cgroup m /\
  arg_event_timeout_usec (dispatch v m i) = arg_event_timeout_usec m /\
  exit (dispatch v m i) = (exit m || exits i) /\
  arg_children_max (dispatch v m i) = children_max_after m i /\
  (if sets_env i then True else properties (dispatch v m i) = properties m).
Proof.
  destruct i as [dev|pids failed|msg|children| | | |a|a| | |]; 
    try (match goal with
         | |- context [dispatch v m ?i] =>
           destruct (dispatch_settings v m i I) as (A1 & A2 & A3 & A4 & A5 & _)
         end;
         cbn [exits children_max_after sets_env]; rewrite orb_false_r; done).
  - cbn [dispatch exits children_max_after sets_env].
    destruct (on_ctrl_msg_settings v m msg) as (A1 & A2 & A3 & A4 & A5).
    split; [done|]. split; [done|]. split; [done|]. split; [done|].
    destruct (ctrl_set_env msg); [done | by apply A5].
  - cbn [dispatch exits children_max_after sets_env on_sigterm].
    destruct (manager_exit_exit v m) as (E1 & E2 & E3 & E4 & E5 & E6).
    rewrite orb_true_r. done.
Qed.
(** ** The size of the pool *)

Lemma hashmap_size_update pid f ws : hashmap_size (update_worker pid f ws) = hashmap_size ws.
Proof. unfold hashmap_size, update_worker. by rewrite List.length_map. Qed.

Lemma hashmap_size_remove ws pid : hashmap_size (hashmap_remove ws pid) <= hashmap_size ws.
Proof.
  unfold hashmap_size, hashmap_remove. apply Nat2Z.inj_le, List.filter_length_le.
Qed.

Lemma capped_same c m m' :
  hashmap_size (workers m') <= hashmap_size (workers m) -> capped c m m'.
Proof. unfold capped. lia. Qed.

Lemma capped_trans c m1 m2 m3 : capped c m1 m2 -> capped c m2 m3 -> capped c m1 m3.
Proof. unfold capped. lia. Qed.

Lemma capped_fold {A} c (f : Manager -> A -> Manager) l m :
  (forall m x, capped c m (f m x)) -> capped c m (fold_left f l m).
Proof.
  intros Hf. revert m. induction l as [|x l IH]; intros m; cbn [fold_left].
  - apply capped_same. lia.
  - eapply capped_trans; [apply Hf | apply IH].
Qed.

Lemma event_free_size m p :
  hashmap_size (workers (event_free m p)) = hashmap_size (workers m).
Proof.
  destruct p as [a|]; [|done]. rewrite event_free_workers.
  destruct (find_event a (events m)) as [ev|]; [|done].
  destruct (ev_worker ev); [apply hashmap_size_update | done].
Qed.

Lemma on_worker_message_size m pid :
  hashmap_size (workers (on_worker_message m pid)) = hashmap_size (workers m).
Proof.
  unfold on_worker_message. destruct (hashmap_get (workers m) pid) as [w|]; [|done].
  rewrite event_free_size. destruct (negb _); [apply hashmap_size_update | done].
Qed.

Lemma worker_free_size m w :
  hashmap_size (workers (worker_free m w)) <= hashmap_size (workers m).
Proof. unfold worker_free. rewrite event_free_size. apply hashmap_size_remove. Qed.

Lemma on_sigchld_child_size m child :
  hashmap_size (workers (on_sigchld_child m child)) <= hashmap_size (workers m).
Proof.
  destruct child as [pid status]. unfold on_sigchld_child.
  destruct (hashmap_get (workers m) pid) as [w|]; [|lia].
  destruct (_ && _ && _); [lia|].
  etransitivity; [apply worker_free_size|].
  destruct (_ || _); [|lia]. destruct (wk_event w) as [a|]; [|lia].
  destruct (find_event a (events m)); cbn [workers emit]; lia.
Qed.

Lemma manager_kill_workers_size m :
  hashmap_size (workers (manager_kill_workers m)) = hashmap_size (workers m).
Proof.
  pose proof (manager_kill_workers_loop (workers m) m) as H. cbv zeta in H.
  change (fold_left _ (workers m) m) with (manager_kill_workers m) in H.
  destruct H as (H & _). rewrite H. unfold hashmap_size. by rewrite List.length_map.
Qed.

Lemma event_queue_cleanup_size m t :
  hashmap_size (workers (event_queue_cleanup m t)) = hashmap_size (workers m).
Proof.
  unfold event_queue_cleanup. generalize (events m) at 1. intros evs. revert m.
  induction evs as [|ev evs IH]; intros m; cbn [fold_left]; [done|].
  rewrite IH. destruct (_ && _); [done | apply event_free_size].
Qed.

Lemma manager_exit_size v m :
  hashmap_size (workers (manager_exit v m)) = hashmap_size (workers m).
Proof.
  unfold manager_exit. cbn [workers set_exit_timeout].
  by rewrite manager_kill_workers_size, event_queue_cleanup_size.
Qed.

Lemma manager_reload_size m :
  hashmap_size (workers (manager_reload m)) = hashmap_size (workers m).
Proof. unfold manager_reload. cbn [workers set_rules]. apply manager_kill_workers_size. Qed.

Lemma worker_attach_event_size usec m pid a :
  hashmap_size (workers (worker_attach_event usec m pid a)) = hashmap_size (workers m).
Proof. cbn [worker_attach_event workers set_events set_workers]. apply hashmap_size_update. Qed.

Lemma worker_spawn_size v m a :
  hashmap_size (workers (worker_spawn v m a)) <= hashmap_size (workers m) + 1.
Proof.
  unfold worker_spawn. destruct (env_spawn v a) as [| |pid]; cbn [workers set_events]; [lia..|].
  destruct (hashmap_get _ pid); cbn [workers emit]; [lia|].
  rewrite worker_attach_event_size. cbn [workers set_workers emit]. unfold hashmap_size.
  rewrite List.length_app. cbn [length]. lia.
Qed.

Lemma event_run_workers_size v ev ws m :
  hashmap_size (workers (fst (event_run_workers v ev ws m))) = hashmap_size (workers m).
Proof.
  revert m. induction ws as [|w ws IH]; intros m; cbn [event_run_workers]; [done|].
  destruct (negb (worker_state_eqb (wk_state w) WORKER_IDLE)); [apply IH|].
  destruct (negb (env_send v (wk_pid w) (ev_addr ev))).
  - rewrite IH. cbn [workers set_workers emit]. apply hashmap_size_update.
  - cbn [fst]. by rewrite worker_attach_event_size.
Qed.

Lemma event_run_capped v m ev : capped (arg_children_max m) m (event_run v m ev).
Proof.
  unfold event_run, capped.
  pose proof (event_run_workers_size v ev (workers m) m) as Hs.
  pose proof (event_run_workers_settings v ev (workers m) m) as (_ & _ & _ & Hc & _).
  destruct (event_run_workers v ev (workers m) m) as [m1 attached]. cbn [fst] in Hs, Hc.
  destruct attached; [lia|]. rewrite <- Hc.
  destruct (Z.geb_spec (hashmap_size (workers m1)) (arg_children_max m1)); [lia|].
  pose proof (worker_spawn_size v m1 (ev_addr ev)). lia.
Qed.

Lemma event_queue_start_loop_capped v todo m :
  capped (arg_children_max m) m (event_queue_start_loop v todo m).
Proof.
  revert m. induction todo as [|a todo IH]; intros m; cbn [event_queue_start_loop];
    [apply capped_same; lia|].
  destruct (find_event a (events m)) as [ev|]; [|apply IH].
  destruct (negb (event_state_eqb (ev_state ev) EVENT_QUEUED)); [apply IH|].
  cbn [is_devpath_busy]. set (m1 := set_events m _).
  destruct (fst (is_devpath_busy_loop (events m) ev)).
  - apply (IH m1).
  - eapply capped_trans; [apply (event_run_capped v m1 ev)|].
    pose proof (event_run_settings v m1 ev) as (_ & _ & _ & Hc & _).
    specialize (IH (event_run v m1 ev)). by rewrite Hc in IH.
Qed.

Lemma event_queue_start_capped v m : capped (arg_children_max m) m (event_queue_start v m).
Proof.
  unfold event_queue_start.
  destruct (LIST_IS_EMPTY (events m) || exit m || stop_exec_queue m);
    [apply capped_same; lia|].
  set (m1 := if (last_usec m =? 0) || _ then _ else m).
  assert (H1 : hashmap_size (workers m1) = hashmap_size (workers m) /\
               arg_children_max m1 = arg_children_max m).
  { unfold m1. destruct ((last_usec m =? 0) || _); [|done].
    destruct (env_config_changed v); [|done]. cbn [workers set_last_usec arg_children_max].
    split; [apply manager_reload_size | apply manager_reload_settings]. }
  destruct H1 as [Hs Hc]. set (m2 := set_kill_workers_event m1 None).
  assert (Hl : forall m3, workers m3 = workers m2 -> arg_children_max m3 = arg_children_max m2 ->
                 capped (arg_children_max m) m
                   (event_queue_start_loop v (List.map ev_addr (events m3)) m3)).
  { intros m3 Hw3 Hc3.
    pose proof (event_queue_start_loop_capped v (List.map ev_addr (events m3)) m3) as H.
    unfold capped in *. rewrite Hw3, Hc3 in H. cbn [m2 workers arg_children_max
      set_kill_workers_event] in H. by rewrite Hs, Hc in H. }
  destruct (rules m2); [by apply Hl|].
  destruct (env_rules_new v); [by apply Hl|]. apply capped_same.
  cbn [m2 workers set_kill_workers_event]. lia.
Qed.

Lemma on_ctrl_msg_rest_size v m msg :
  hashmap_size (workers (on_ctrl_msg_rest v m msg)) = hashmap_size (workers m).
Proof.
  unfold on_ctrl_msg_rest. destruct (ctrl_exit msg >? 0).
  - rewrite manager_exit_size. by destruct (ctrl_set_children_max msg >=? 0).
  - by destruct (ctrl_set_children_max msg >=? 0).
Qed.

Lemma on_ctrl_msg_capped v m msg : capped (arg_children_max m) m (on_ctrl_msg v m msg).
Proof.
  unfold on_ctrl_msg.
  set (m1 := if ctrl_set_log_level msg >=? 0 then manager_kill_workers m else m).
  assert (H1 : hashmap_size (workers m1) = hashmap_size (workers m) /\
               arg_children_max m1 = arg_children_max m).
  { unfold m1. destruct (ctrl_set_log_level msg >=? 0); [|done].
    split; [apply manager_kill_workers_size | apply manager_kill_workers_settings]. }
  set (m2 := if ctrl_stop_exec_queue msg >? 0 then set_stop_exec_queue m1 true else m1).
  assert (H2 : hashmap_size (workers m2) = hashmap_size (workers m) /\
               arg_children_max m2 = arg_children_max m)
    by (unfold m2; by destruct (ctrl_stop_exec_queue msg >? 0)).
  set (m3 := if ctrl_start_exec_queue msg >? 0
             then event_queue_start v (set_stop_exec_queue m2 false) else m2).
  assert (H3 : capped (arg_children_max m) m m3).
  { unfold m3. destruct (ctrl_start_exec_queue msg >? 0); [|apply capped_same; lia].
    pose proof (event_queue_start_capped v (set_stop_exec_queue m2 false)) as H.
    unfold capped in *. cbn [workers arg_children_max set_stop_exec_queue] in H.
    destruct H2 as [-> ->] in H. done. }
  set (m4 := if ctrl_reload msg >? 0 then manager_reload m3 else m3).
  assert (H4 : capped (arg_children_max m) m m4).
  { unfold m4. destruct (ctrl_reload msg >? 0); [|done].
    unfold capped in *. by rewrite manager_reload_size. }
  destruct (ctrl_set_env msg) as [str|].
  - destruct (strchr_eq str) as [[key eq]|]; [|done].
    unfold capped in *. rewrite on_ctrl_msg_rest_size, manager_kill_workers_size.
    by destruct (negb (isempty eq)).
  - unfold capped in *. by rewrite on_ctrl_msg_rest_size.
Qed.

(** X12: No callback lets the pool grow beyond children_max: after a callback the
    pool holds no more workers than before, or no more than children_max as
    it was when the callback began. *)
Theorem pool_never_grows_beyond_children_max v m i :
  hashmap_size (workers (dispatch v m i))
  <= Z.max (hashmap_size (workers m)) (arg_children_max m).
Proof.
  change (capped (arg_children_max m) m (dispatch v m i)).
  destruct i as [dev|pids failed|msg|children| | | |a|a| | |]; cbn [dispatch].
  - unfold on_uevent.
    pose proof (event_queue_start_capped v (event_queue_insert m dev)) as H.
    unfold capped in *. destruct (event_queue_insert_settings m dev) as (_ & _ & _ & Hc & _).
    rewrite Hc in H. etransitivity; [exact H|].
    assert (Hw : workers (event_queue_insert m dev) = workers m)
      by (unfold event_queue_insert; by destruct (LIST_IS_EMPTY _)).
    rewrite Hw. lia.
  - unfold on_worker.
    assert (H1 : hashmap_size (workers (fold_left on_worker_message pids m))
                 = hashmap_size (workers m) /\
                 arg_children_max (fold_left on_worker_message pids m) = arg_children_max m).
    { split; [|apply (same_settings_fold on_worker_message), on_worker_message_settings].
      revert m. induction pids as [|p pids IH]; intros m; cbn [fold_left]; [done|].
      by rewrite IH, on_worker_message_size. }
    destruct H1 as [Hs Hc]. destruct failed; [apply capped_same; lia|].
    pose proof (event_queue_start_capped v (fold_left on_worker_message pids m)) as H.
    unfold capped in *. by rewrite Hs, Hc in H.
  - apply on_ctrl_msg_capped.
  - unfold on_sigchld.
    assert (H1 : hashmap_size (workers (fold_left on_sigchld_child children m))
                 <= hashmap_size (workers m) /\
                 arg_children_max (fold_left on_sigchld_child children m) = arg_children_max m).
    { split; [|apply (same_settings_fold on_sigchld_child), on_sigchld_child_settings].
      revert m. induction children as [|c children IH]; intros m; cbn [fold_left]; [done|].
      etransitivity; [apply IH | apply on_sigchld_child_size]. }
    destruct H1 as [Hs Hc].
    pose proof (event_queue_start_capped v (fold_left on_sigchld_child children m)) as H.
    unfold capped in *. rewrite Hc in H.
    destruct (LIST_IS_EMPTY _); cbn [workers set_kill_workers_event]; lia.
  - apply capped_same. unfold on_sigterm. by rewrite manager_exit_size.
  - apply capped_same. unfold on_sighup. by rewrite manager_reload_size.
  - apply capped_same. cbn [on_inotify workers set_kill_workers_event]. lia.
  - apply capped_same. unfold on_event_timeout.
    destruct (find_event a (events m)) as [ev|]; [|lia].
    destruct (ev_worker ev); [|lia]. cbn [workers set_workers emit].
    rewrite hashmap_size_update. lia.
  - apply capped_same. unfold on_event_timeout_warning. lia.
  - apply capped_same. unfold on_kill_workers_event. by rewrite manager_kill_workers_size.
  - apply capped_same. cbn [on_exit_timeout workers set_exit_code]. lia.
  - apply capped_same. unfold on_post.
    destruct (negb (LIST_IS_EMPTY (events m))); [lia|].
    destruct (negb (LIST_IS_EMPTY (workers m))); [cbn [workers set_kill_workers_event]; lia|].
    destruct (exit m); [cbn [workers set_exit_code]; lia|].
    destruct (has_cgroup m); cbn [workers emit]; lia.
Qed.
(** ** After the shutdown has begun *)

Lemma Forall_killed_update pid f ws :
  (forall w, wk_state (f w) = wk_state w \/ wk_state (f w) = WORKER_KILLED) ->
  Forall killed ws -> Forall killed (update_worker pid f ws).
Proof.
  intros Hf Hk. rewrite List.Forall_forall in *. intros w' Hw'.
  apply in_update_worker in Hw' as (w & Hw & ->). specialize (Hk w Hw). unfold killed in *.
  destruct (wk_pid w =? pid); [|done]. destruct (Hf w) as [H|H]; congruence.
Qed.

Lemma event_free_shut_down m p : shut_down m -> shut_down (event_free m p).
Proof.
  intros [Hw He]. destruct p as [a|]; [|done]. split.
  - rewrite event_free_workers. destruct (find_event a (events m)) as [ev|]; [|done].
    destruct (ev_worker ev); [|done]. apply Forall_killed_update; [by left | done].
  - rewrite events_event_free. rewrite List.Forall_forall in *. intros e H.
    apply List.filter_In in H as [H _]. by apply He.
Qed.

Lemma on_worker_message_shut_down m pid : shut_down m -> shut_down (on_worker_message m pid).
Proof.
  intros Hs. unfold on_worker_message.
  destruct (hashmap_get (workers m) pid) as [w|] eqn:Hget; [|done].
  apply hashmap_get_Some in Hget as [Hin _]. apply event_free_shut_down.
  destruct Hs as [Hw He]. pose proof Hw as Hw'. rewrite List.Forall_forall in Hw'.
  specialize (Hw' w Hin). unfold killed in Hw'. by rewrite Hw'.
Qed.

Lemma worker_free_shut_down m w : shut_down m -> shut_down (worker_free m w).
Proof.
  intros [Hw He]. unfold worker_free. apply event_free_shut_down. split; [|done].
  cbn [workers set_workers]. rewrite List.Forall_forall in *. intros w' H.
  apply List.filter_In in H as [H _]. by apply Hw.
Qed.

Lemma on_sigchld_child_shut_down m child : shut_down m -> shut_down (on_sigchld_child m child).
Proof.
  intros Hs. destruct child as [pid status]. unfold on_sigchld_child.
  destruct (hashmap_get (workers m) pid) as [w|]; [|done].
  destruct (_ && _ && _); [done|]. apply worker_free_shut_down.
  destruct (_ || _); [|done]. destruct (wk_event w) as [a|]; [|done].
  by destruct (find_event a (events m)).
Qed.

Lemma manager_kill_workers_shut_down m :
  Forall (fun e => ev_state e = EVENT_RUNNING) (events m) -> shut_down (manager_kill_workers m).
Proof.
  intros He. pose proof (manager_kill_workers_loop (workers m) m) as H. cbv zeta in H.
  change (fold_left _ (workers m) m) with (manager_kill_workers m) in H.
  destruct H as (H1 & H2 & _). split; [|by rewrite H2].
  rewrite H1. apply List.Forall_forall. intros w' Hw'.
  apply List.in_map_iff in Hw' as (w & <- & Hw).
  destruct (existsb _ (workers m)) eqn:Hex; [done|].
  destruct (not_killed w) eqn:Hn.
  - assert (existsb (fun x => (wk_pid x =? wk_pid w) && not_killed x) (workers m) = true);
      [|congruence].
    apply List.existsb_exists. exists w. by rewrite Z.eqb_refl, Hn.
  - by apply negb_false_iff, worker_state_eqb_eq in Hn.
Qed.

Lemma fold_left_shut_down {A} (f : Manager -> A -> Manager) l m :
  (forall m x, shut_down m -> shut_down (f m x)) -> shut_down m -> shut_down (fold_left f l m).
Proof.
  intros Hf. revert m. induction l as [|x l IH]; intros m Hs; cbn [fold_left]; [done|].
  by apply IH, Hf.
Qed.

(** [manager_exit] leaves no queued event and no worker that is not killed. *)
Lemma manager_exit_shut_down v m :
  Forall (fun e => ev_state e <> EVENT_UNDEF) (events m) -> shut_down (manager_exit v m).
Proof.
  intros Hst. unfold manager_exit.
  assert (H : shut_down (manager_kill_workers
                           (event_queue_cleanup (set_monitor (set_exit m true) false)
                              EVENT_QUEUED)));
    [|done].
  apply manager_kill_workers_shut_down. unfold event_queue_cleanup.
  rewrite event_queue_cleanup_loop. cbn [events set_exit set_monitor].
  rewrite List.Forall_forall in *. intros e He. apply List.filter_In in He as [He Hno].
  apply negb_true_iff in Hno. specialize (Hst e He).
  destruct (ev_state e) eqn:Hs; [done | | done]. exfalso.
  assert (existsb (fun x => Nat.eqb (ev_addr e) (ev_addr x)
                            && negb (survives_cleanup EVENT_QUEUED x)) (events m) = true);
    [|congruence].
  apply List.existsb_exists. exists e. rewrite Nat.eqb_refl. unfold survives_cleanup.
  by rewrite Hs.
Qed.

Lemma event_wf_defined q :
  Forall event_wf q -> Forall (fun e => ev_state e <> EVENT_UNDEF) q.
Proof.
  apply List.Forall_impl. intros e [([H|H] & _) _]; by rewrite H.
Qed.

(** The part of [on_ctrl_msg] before the requests to set children_max and
    to exit. *)
Lemma on_ctrl_msg_split v m msg :
  manager_inv m -> ctrl_complete msg = true ->
  exists m', on_ctrl_msg v m msg = on_ctrl_msg_rest v m' msg /\
             manager_inv m' /\ mgr_step false m m'.
Proof.
  intros Hinv Hc. unfold on_ctrl_msg, ctrl_complete in *.
  set (m1 := if ctrl_set_log_level msg >=? 0 then manager_kill_workers m else m).
  assert (H1 : manager_inv m1 /\ mgr_step false m m1).
  { unfold m1. destruct (ctrl_set_log_level msg >=? 0); [|split; [done | apply ms_refl]].
    split; [by eapply advances_inv, manager_kill_workers_advances
           | by apply manager_kill_workers_steps]. }
  destruct H1 as [I1 S1].
  set (m2 := if ctrl_stop_exec_queue msg >? 0 then set_stop_exec_queue m1 true else m1).
  assert (H2 : manager_inv m2 /\ mgr_step false m1 m2).
  { unfold m2. destruct (ctrl_stop_exec_queue msg >? 0); [|split; [done | apply ms_refl]].
    split; [by eapply advances_inv, (advances_frame m1) | by apply ms_frame]. }
  destruct H2 as [I2 S2].
  set (m3 := if ctrl_start_exec_queue msg >? 0
             then event_queue_start v (set_stop_exec_queue m2 false) else m2).
  assert (H3 : manager_inv m3 /\ mgr_step false m2 m3).
  { unfold m3. destruct (ctrl_start_exec_queue msg >? 0); [|split; [done | apply ms_refl]].
    assert (I : manager_inv (set_stop_exec_queue m2 false))
      by (by eapply advances_inv, (advances_frame m2)).
    split; [by eapply advances_inv, event_queue_start_advances|].
    eapply ms_trans; [by apply (ms_frame false m2 (set_stop_exec_queue m2 false))|].
    by apply event_queue_start_steps. }
  destruct H3 as [I3 S3].
  set (m4 := if ctrl_reload msg >? 0 then manager_reload m3 else m3).
  assert (H4 : manager_inv m4 /\ mgr_step false m3 m4).
  { unfold m4. destruct (ctrl_reload msg >? 0); [|split; [done | apply ms_refl]].
    split; [by eapply advances_inv, manager_reload_advances | by apply manager_reload_steps]. }
  destruct H4 as [I4 S4].
  assert (S : mgr_step false m m4).
  { eapply ms_trans; [exact S1|]. eapply ms_trans; [exact S2|].
    eapply ms_trans; [exact S3 | exact S4]. }
  destruct (ctrl_set_env msg) as [str|]; [|by exists m4].
  destruct (strchr_eq str) as [[key eq]|]; [|done].
  set (m6 := if negb (isempty eq) then _ else _).
  assert (H6 : manager_inv m6 /\ mgr_step false m4 m6).
  { unfold m6. destruct (negb (isempty eq));
      (split; [by eapply advances_inv, (advances_frame m4) | by apply ms_frame]). }
  destruct H6 as [I6 S6]. exists (manager_kill_workers m6). split; [done|]. split.
  - by eapply advances_inv, manager_kill_workers_advances.
  - eapply ms_trans; [exact S|]. eapply ms_trans; [exact S6|].
    by apply manager_kill_workers_steps.
Qed.

Lemma event_queue_start_exit v m : exit m = true -> event_queue_start v m = m.
Proof. intros H. unfold event_queue_start. by rewrite H, orb_true_r. Qed.

Lemma dispatch_shut_down v m i :
  manager_inv m -> Forall event_wf (events m) -> input_ok m i ->
  (exit m = true -> shut_down m) ->
  exit (dispatch v m i) = true -> shut_down (dispatch v m i).
Proof.
  intros Hinv Hwf Hok Hshut Hexit.
  destruct i as [dev|pids failed|msg|children| | | |a|a| | |].
  - destruct Hok as [He _].
    destruct (dispatch_settings v m (InUevent dev) I) as (_ & _ & H & _). congruence.
  - destruct (dispatch_settings v m (InWorker pids failed) I) as (_ & _ & H & _).
    rewrite H in Hexit. specialize (Hshut Hexit). cbn [dispatch]. unfold on_worker.
    assert (Hf : shut_down (fold_left on_worker_message pids m))
      by (by apply (fold_left_shut_down on_worker_message), Hshut;
          intros; apply on_worker_message_shut_down).
    destruct failed; [done|]. rewrite event_queue_start_exit; [done|].
    destruct (same_settings_fold on_worker_message pids m on_worker_message_settings)
      as (_ & _ & -> & _). done.
  - cbn [input_ok] in Hok. cbn [dispatch] in *.
    destruct (on_ctrl_msg_settings v m msg) as (_ & _ & H & _).
    rewrite H, Hok in Hexit. cbn [orb] in Hexit. apply andb_true_iff in Hexit as [Hc He].
    destruct (on_ctrl_msg_split v m msg Hinv Hc) as (m' & -> & Hinv' & Hs).
    unfold on_ctrl_msg_rest. rewrite He. apply manager_exit_shut_down.
    apply event_wf_defined.
    assert (Hwf' : Forall event_wf (events m')) by (by eapply mgr_step_event_wf).
    by destruct (ctrl_set_children_max msg >=? 0).
  - destruct (dispatch_settings v m (InSigchld children) I) as (_ & _ & H & _).
    rewrite H in Hexit. specialize (Hshut Hexit). cbn [dispatch]. unfold on_sigchld.
    assert (Hf : shut_down (fold_left on_sigchld_child children m))
      by (by apply (fold_left_shut_down on_sigchld_child), Hshut;
          intros; apply on_sigchld_child_shut_down).
    rewrite event_queue_start_exit.
    + by destruct (LIST_IS_EMPTY _).
    + destruct (same_settings_fold on_sigchld_child children m on_sigchld_child_settings)
        as (_ & _ & -> & _). done.
  - cbn [dispatch on_sigterm]. by apply manager_exit_shut_down, event_wf_defined.
  - destruct (dispatch_settings v m InSighup I) as (_ & _ & H & _).
    rewrite H in Hexit. destruct (Hshut Hexit) as [Hw He]. cbn [dispatch on_sighup].
    unfold manager_reload. by apply (manager_kill_workers_shut_down m).
  - cbn [input_ok] in Hok. cbn [dispatch on_inotify exit set_kill_workers_event] in Hexit.
    congruence.
  - destruct (dispatch_settings v m (InEventTimeout a) I) as (_ & _ & H & _).
    rewrite H in Hexit. destruct (Hshut Hexit) as [Hw He]. cbn [dispatch].
    unfold on_event_timeout. destruct (find_event a (events m)) as [ev|]; [|done].
    destruct (ev_worker ev) as [pid|]; [|done]. split; [|done].
    cbn [workers set_workers emit]. apply Forall_killed_update; [by right | done].
  - by apply Hshut.
  - destruct (dispatch_settings v m InKillWorkers I) as (_ & _ & H & _).
    rewrite H in Hexit. destruct (Hshut Hexit) as [Hw He].
    by apply (manager_kill_workers_shut_down m).
  - by apply Hshut.
  - destruct (dispatch_settings v m InPost I) as (_ & _ & H & _).
    rewrite H in Hexit. specialize (Hshut Hexit). cbn [dispatch]. unfold on_post.
    destruct (negb (LIST_IS_EMPTY (events m))); [done|].
    destruct (negb (LIST_IS_EMPTY (workers m))); [done|].
    destruct (exit m); [done|]. by destruct (has_cgroup m).
Qed.

(** X13: In every state the manager can reach in which exit is set, every worker
    of the pool is KILLED and every event of the queue is RUNNING: once the
    shutdown has begun, the queued events are gone and no event is started and
    no worker is forked or reused any more. *)
Theorem nothing_starts_after_exit cgroup children_max event_timeout_usec m :
  reachable (manager_new cgroup children_max event_timeout_usec) m ->
  exit m = true ->
  Forall killed (workers m) /\ Forall (fun e => ev_state e = EVENT_RUNNING) (events m).
Proof.
  intros Hr. change (exit m = true -> shut_down m).
  induction Hr as [|m v i Hr IH Hok]; [done|].
  apply dispatch_shut_down; try done.
  - eapply reachable_inv; [apply manager_new_inv | done].
  - eapply reachable_event_wf; [apply manager_new_inv | constructor | done].
Qed.

Lemma nothing_starts_after_exit_witness :
  let m := dispatch calm eth0_with_queue InSigterm in
  exit m = true /\
  Forall killed (workers m) /\ Forall (fun e => ev_state e = EVENT_RUNNING) (events m).
Proof.
  cbv zeta. split; [reflexivity|].
  apply (nothing_starts_after_exit false 10 default_event_timeout_usec).
  - unfold eth0_with_queue. scenario_reachable.
  - reflexivity.
Defined.
(** ** Handing an event to a worker *)

Lemma event_run_workers_taker v ev ws m w :
  List.find (accepts v ev) ws = Some w ->
  (exists w0, In w0 (workers m) /\ wk_pid w0 = wk_pid w) ->
  let r := event_run_workers v ev ws m in
  snd r = true /\
  (forall pid, In (Fork pid) (trace (fst r)) -> In (Fork pid) (trace m)) /\
  In (MonitorSend (Some (wk_pid w)) (ev_dev ev)) (trace (fst r)) /\
  (forall e, In e (events (fst r)) -> ev_addr e = ev_addr ev ->
     ev_worker e = Some (wk_pid w) /\ ev_state e = EVENT_RUNNING) /\
  (exists w', In w' (workers (fst r)) /\ wk_pid w' = wk_pid w /\
              wk_state w' = WORKER_RUNNING /\ wk_event w' = Some (ev_addr ev)) /\
  List.map wk_pid (workers (fst r)) = List.map wk_pid (workers m).
Proof.
  cbv zeta. revert m. induction ws as [|x ws IH]; intros m Hfind Hin; [done|].
  cbn [List.find event_run_workers] in *. unfold accepts at 1 in Hfind.
  destruct (worker_state_eqb (wk_state x) WORKER_IDLE) eqn:Hidle; cbn [negb andb] in *;
    [|by apply IH].
  destruct (env_send v (wk_pid x) (ev_addr ev)) eqn:Hsend; cbn [negb] in *.
  - injection Hfind as <-. cbn [fst snd]. split; [done|].
    cbn [worker_attach_event trace events workers set_events set_workers emit].
    split; [by intros pid [|]|]. split; [by left|]. split; [|split].
    + intros e He Ha. apply in_update_event in He as (e0 & He0 & ->).
      destruct (Nat.eqb_spec (ev_addr e0) (ev_addr ev)) as [|Hne]; [done|].
      by destruct Hne.
    + destruct Hin as (w0 & Hw0 & Hp).
      exists (set_wk_event (Some (ev_addr ev)) (set_wk_state WORKER_RUNNING w0)).
      split; [|done]. apply in_update_worker. exists w0. split; [done|].
      by rewrite Hp, Z.eqb_refl.
    + by apply update_worker_pids.
  - set (m1 := set_workers _ _).
    destruct (IH m1 Hfind) as (H1 & H2 & H3 & H4 & H5 & H6).
    { destruct Hin as (w0 & Hw0 & Hp). cbn [m1 workers set_workers emit].
      exists (if wk_pid w0 =? wk_pid x then set_wk_state WORKER_KILLED w0 else w0).
      split; [apply in_update_worker; by exists w0|]. by destruct (wk_pid w0 =? wk_pid x). }
    split; [done|]. split; [|split; [done|]; split; [done|]; split; [done|]].
    + intros pid Hp. by destruct (H2 pid Hp) as [|].
    + rewrite H6. cbn [m1 workers set_workers emit]. by apply update_worker_pids.
Qed.

Lemma event_run_workers_no_taker v ev ws m :
  List.find (accepts v ev) ws = None ->
  let r := event_run_workers v ev ws m in
  snd r = false /\
  events (fst r) = events m /\
  List.map wk_pid (workers (fst r)) = List.map wk_pid (workers m) /\
  (forall x, In x (trace m) -> In x (trace (fst r))) /\
  (forall w, In w (workers m) -> wk_state w = WORKER_KILLED ->
     exists w', In w' (workers (fst r)) /\ wk_pid w' = wk_pid w /\ wk_state w' = WORKER_KILLED) /\
  (forall w, In w ws -> wk_state w = WORKER_IDLE ->
     In (Kill (wk_pid w) SIGKILL) (trace (fst r)) /\
     forall w0, In w0 (workers m) -> wk_pid w0 = wk_pid w ->
       exists w', In w' (workers (fst r)) /\ wk_pid w' = wk_pid w /\
                  wk_state w' = WORKER_KILLED).
Proof.
  cbv zeta. revert m. induction ws as [|x ws IH]; intros m Hfind.
  - cbn [event_run_workers fst snd]. repeat split; try done. intros w Hw Hk. by exists w.
  - cbn [List.find event_run_workers] in *. unfold accepts at 1 in Hfind.
    destruct (worker_state_eqb (wk_state x) WORKER_IDLE) eqn:Hidle; cbn [negb andb] in *.
    + destruct (env_send v (wk_pid x) (ev_addr ev)) eqn:Hsend; [done|]. cbn [negb].
      set (m1 := set_workers _ _).
      destruct (IH m1 Hfind) as (H1 & H2 & H3 & H4 & H5 & H6).
      assert (Hkill : forall w0, In w0 (workers m) -> wk_pid w0 = wk_pid x ->
                exists w', In w' (workers m1) /\ wk_pid w' = wk_pid x /\
                           wk_state w' = WORKER_KILLED).
      { intros w0 Hw0 Hp. exists (set_wk_state WORKER_KILLED w0).
        split; [|done]. cbn [m1 workers set_workers emit]. apply in_update_worker.
        exists w0. split; [done|]. by rewrite Hp, Z.eqb_refl. }
      assert (Hkeep : forall w, In w (workers m) -> wk_state w = WORKER_KILLED ->
                exists w', In w' (workers m1) /\ wk_pid w' = wk_pid w /\
                           wk_state w' = WORKER_KILLED).
      { intros w Hw Hk.
        exists (if wk_pid w =? wk_pid x then set_wk_state WORKER_KILLED w else w).
        split; [cbn [m1 workers set_workers emit]; apply in_update_worker; by exists w|].
        by destruct (wk_pid w =? wk_pid x). }
      split; [done|]. split; [done|]. split; [|split; [|split]].
      * rewrite H3. cbn [m1 workers set_workers emit]. by apply update_worker_pids.
      * intros y Hy. apply H4. cbn [m1 trace set_workers emit]. by right.
      * intros w Hw Hk. destruct (Hkeep w Hw Hk) as (w1 & Hw1 & Hp1 & Hk1).
        destruct (H5 w1 Hw1 Hk1) as (w2 & Hw2 & Hp2 & Hk2). exists w2.
        split; [done|]. split; [congruence | done].
      * intros w [<-|Hw] Hi.
        -- split; [apply H4; cbn [m1 trace set_workers emit]; by left|].
           intros w0 Hw0 Hp. destruct (Hkill w0 Hw0 Hp) as (w1 & Hw1 & Hp1 & Hk1).
           destruct (H5 w1 Hw1 Hk1) as (w2 & Hw2 & Hp2 & Hk2). exists w2.
           split; [done|]. split; [congruence | done].
        -- destruct (H6 w Hw Hi) as [K1 K2]. split; [done|]. intros w0 Hw0 Hp.
           apply (K2 (if wk_pid w0 =? wk_pid x then set_wk_state WORKER_KILLED w0 else w0)).
           ++ cbn [m1 workers set_workers emit]. apply in_update_worker. by exists w0.
           ++ by destruct (wk_pid w0 =? wk_pid x).
    + destruct (IH m Hfind) as (H1 & H2 & H3 & H4 & H5 & H6).
      split; [done|]. split; [done|]. split; [done|]. split; [done|]. split; [done|].
      intros w [<-|Hw] Hi; [by rewrite Hi in Hidle | by apply H6].
Qed.

(** X14: When the pool holds an idle worker that takes the device, [event_run]
    hands the event to the first such worker: the device is sent to it, the
    event of the queue points to it and is RUNNING, the worker is RUNNING
    with the event attached, and no worker is forked and the pool keeps its
    pids. *)
Theorem event_run_reuses_idle_worker v m ev w :
  List.find (accepts v ev) (workers m) = Some w ->
  (forall pid, In (Fork pid) (trace (event_run v m ev)) -> In (Fork pid) (trace m)) /\
  In (MonitorSend (Some (wk_pid w)) (ev_dev ev)) (trace (event_run v m ev)) /\
  (forall e, In e (events (event_run v m ev)) -> ev_addr e = ev_addr ev ->
     ev_worker e = Some (wk_pid w) /\ ev_state e = EVENT_RUNNING) /\
  (exists w', In w' (workers (event_run v m ev)) /\ wk_pid w' = wk_pid w /\
              wk_state w' = WORKER_RUNNING /\ wk_event w' = Some (ev_addr ev)) /\
  List.map wk_pid (workers (event_run v m ev)) = List.map wk_pid (workers m).
Proof.
  intros Hfind. unfold event_run.
  destruct (event_run_workers_taker v ev (workers m) m w Hfind) as (H1 & H2).
  { exists w. split; [|done]. by apply List.find_some in Hfind as [H _]. }
  destruct (event_run_workers v ev (workers m) m) as [m1 attached]. cbn [fst snd] in *.
  by rewrite H1.
Qed.

Lemma event_run_reuses_idle_worker_witness :
  let m := dispatch calm (dispatch calm manager0 (InUevent eth0_removed)) (InWorker [100] false) in
  let w := {| wk_pid := 100; wk_state := WORKER_IDLE; wk_event := None |} in
  let ev := {| ev_addr := 1; ev_dev := eth0_added; ev_dev_kernel := eth0_added;
               ev_worker := None; ev_state := EVENT_QUEUED; ev_delaying_seqnum := 0;
               ev_seqnum := 11; ev_devpath := eth0_path;
               ev_devpath_len := strlen eth0_path; ev_devpath_old := None;
               ev_devnum := 0; ev_ifindex := 3; ev_is_block := false;
               ev_timeout_warning := None; ev_timeout := None |} in
  let m' := event_run calm (event_queue_insert m eth0_added) ev in
  List.find (accepts calm ev) (workers (event_queue_insert m eth0_added)) = Some w /\
  (forall pid, In (Fork pid) (trace m') -> In (Fork pid) (trace (event_queue_insert m eth0_added))) /\
  In (MonitorSend (Some (wk_pid w)) (ev_dev ev)) (trace m') /\
  (forall e, In e (events m') -> ev_addr e = ev_addr ev ->
     ev_worker e = Some (wk_pid w) /\ ev_state e = EVENT_RUNNING) /\
  (exists w', In w' (workers m') /\ wk_pid w' = wk_pid w /\
              wk_state w' = WORKER_RUNNING /\ wk_event w' = Some (ev_addr ev)) /\
  List.map wk_pid (workers m') = List.map wk_pid (workers (event_queue_insert m eth0_added)).
Proof.
  cbv zeta. split; [reflexivity|].
  apply event_run_reuses_idle_worker. reflexivity.
Defined.

Lemma worker_spawn_keeps v m a :
  (forall x, In x (trace m) -> In x (trace (worker_spawn v m a))) /\
  (forall w, In w (workers m) -> wk_state w = WORKER_KILLED ->
     exists w', In w' (workers (worker_spawn v m a)) /\ wk_pid w' = wk_pid w /\
                wk_state w' = WORKER_KILLED).
Proof.
  unfold worker_spawn. destruct (env_spawn v a) as [| |pid].
  - split; [done|]. intros w Hw Hk. by exists w.
  - split; [done|]. intros w Hw Hk. by exists w.
  - destruct (hashmap_get (workers (emit m (Fork pid))) pid) as [w0|] eqn:Hget.
    + split; [intros x Hx; by right|]. intros w Hw Hk. by exists w.
    + cbn [workers emit] in Hget.
      cbn [worker_attach_event trace workers set_events set_workers emit].
      split; [intros x Hx; by right|]. intros w Hw Hk. exists w. split; [|done].
      apply in_update_worker. exists w. split; [apply List.in_app_iff; by left|].
      destruct (Z.eqb_spec (wk_pid w) pid) as [Hp|]; [|done].
      by destruct (hashmap_get_None _ _ w Hget Hw).
Qed.

(** X15: When no idle worker of the pool takes the device, every idle worker has
    refused it: [event_run] has sent SIGKILL to each of them and marked it
    KILLED, whether or not it goes on to fork a worker. *)
Theorem event_run_kills_idle_workers_that_refuse v m ev w :
  List.find (accepts v ev) (workers m) = None ->
  In w (workers m) -> wk_state w = WORKER_IDLE ->
  In (Kill (wk_pid w) SIGKILL) (trace (event_run v m ev)) /\
  exists w', In w' (workers (event_run v m ev)) /\ wk_pid w' = wk_pid w /\
             wk_state w' = WORKER_KILLED.
Proof.
  intros Hfind Hw Hidle. unfold event_run.
  destruct (event_run_workers_no_taker v ev (workers m) m Hfind) as (H1 & _ & _ & _ & _ & H6).
  destruct (H6 w Hw Hidle) as [K1 K2]. destruct (K2 w Hw eq_refl) as (w1 & Hw1 & Hp1 & Hk1).
  destruct (event_run_workers v ev (workers m) m) as [m1 attached]. cbn [fst snd] in *.
  rewrite H1. destruct (hashmap_size (workers m1) >=? arg_children_max m1).
  - split; [done|]. by exists w1.
  - destruct (worker_spawn_keeps v m1 (ev_addr ev)) as [S1 S2]. split; [by apply S1|].
    destruct (S2 w1 Hw1 Hk1) as (w2 & Hw2 & Hp2 & Hk2). exists w2.
    split; [done|]. split; [congruence | done].
Qed.

Lemma event_run_kills_idle_workers_that_refuse_witness :
  let m := dispatch calm (dispatch calm manager0 (InUevent eth0_removed)) (InWorker [100] false) in
  let w := {| wk_pid := 100; wk_state := WORKER_IDLE; wk_event := None |} in
  let ev := {| ev_addr := 1; ev_dev := eth0_added; ev_dev_kernel := eth0_added;
               ev_worker := None; ev_state := EVENT_QUEUED; ev_delaying_seqnum := 0;
               ev_seqnum := 11; ev_devpath := eth0_path;
               ev_devpath_len := strlen eth0_path; ev_devpath_old := None;
               ev_devnum := 0; ev_ifindex := 3; ev_is_block := false;
               ev_timeout_warning := None; ev_timeout := None |} in
  let m' := event_run stubborn (event_queue_insert m eth0_added) ev in
  In w (workers (event_queue_insert m eth0_added)) /\
  In (Kill (wk_pid w) SIGKILL) (trace m') /\
  exists w', In w' (workers m') /\ wk_pid w' = wk_pid w /\ wk_state w' = WORKER_KILLED.
Proof.
  cbv zeta. split; [left; reflexivity|].
  apply event_run_kills_idle_workers_that_refuse; [reflexivity | left; reflexivity | reflexivity].
Defined.
(** ** Children that have not ended *)

Lemma WTERMSIG_low_byte status : WTERMSIG status = Z.land (Z.land status 0xff) 0x7f.
Proof. unfold WTERMSIG. by rewrite <- Z.land_assoc. Qed.

Lemma stopped_not_ended status :
  WIFSTOPPED status = true \/ WIFCONTINUED status = true ->
  WIFEXITED status = false /\ WIFSIGNALED status = false.
Proof.
  assert (H : WTERMSIG status = 0x7f -> WIFEXITED status = false /\ WIFSIGNALED status = false).
  { unfold WIFEXITED, WIFSIGNALED. intros ->. done. }
  unfold WIFSTOPPED, WIFCONTINUED. intros [Hs|Hc]; apply H.
  - apply Z.eqb_eq in Hs. by rewrite WTERMSIG_low_byte, Hs.
  - apply Z.eqb_eq in Hc. by rewrite Hc.
Qed.

(** X16: A child that waitpid reports as stopped or continued has not ended:
    [on_sigchld] leaves its worker in the pool, with its state and its
    event, and does nothing else.  Any other status of a worker of the pool
    removes the worker from the pool. *)
Theorem stopped_child_is_not_reaped m pid status w :
  hashmap_get (workers m) pid = Some w ->
  (WIFSTOPPED status = true \/ WIFCONTINUED status = true ->
   on_sigchld_child m (pid, status) = m) /\
  (WIFSTOPPED status = false -> WIFCONTINUED status = false ->
   hashmap_get (workers (on_sigchld_child m (pid, status))) pid = None).
Proof.
  intros Hget. unfold on_sigchld_child. rewrite Hget. split.
  - intros H. destruct (stopped_not_ended status H) as [-> ->]. cbn [negb andb].
    destruct H as [->| ->]; [done | by rewrite orb_true_r].
  - intros -> ->. rewrite andb_false_r. apply hashmap_get_Some in Hget as [_ <-].
    set (m1 := if _ || _ then _ else m).
    assert (Hw : workers m1 = workers m).
    { unfold m1. destruct (_ || _); [|done]. destruct (wk_event w) as [a|]; [|done].
      by destruct (find_event a (events m)). }
    unfold worker_free.
    destruct (hashmap_get (workers (event_free _ (wk_event w))) (wk_pid w)) as [w'|] eqn:Hg;
      [|done].
    apply hashmap_get_Some in Hg as [Hin Hp]. exfalso.
    assert (Hin' : exists w0, In w0 (hashmap_remove (workers m1) (wk_pid w)) /\ wk_pid w0 = wk_pid w).
    { destruct (wk_event w) as [a|]; [|by exists w'].
      rewrite event_free_workers in Hin. cbn [events workers set_workers] in Hin.
      destruct (find_event a (events m1)) as [ev|]; [|by exists w'].
      destruct (ev_worker ev) as [p|]; [|by exists w'].
      apply in_update_worker in Hin as (w0 & Hw0 & ->). exists w0. split; [done|].
      by destruct (wk_pid w0 =? p). }
    destruct Hin' as (w0 & Hw0 & Hp0). apply List.filter_In in Hw0 as [_ Hne].
    by rewrite Hp0, Z.eqb_refl in Hne.
Qed.

Lemma stopped_child_is_not_reaped_witness :
  let w := {| wk_pid := 100; wk_state := WORKER_RUNNING; wk_event := Some O |} in
  let m := dispatch calm manager0 (InUevent eth0_removed) in
  hashmap_get (workers m) 100 = Some w /\
  (WIFSTOPPED 0x137f = true \/ WIFCONTINUED 0x137f = true ->
   on_sigchld_child m (100, 0x137f) = m) /\
  (WIFSTOPPED 0x137f = false -> WIFCONTINUED 0x137f = false ->
   hashmap_get (workers (on_sigchld_child m (100, 0x137f))) 100 = None).
Proof.
  cbv zeta. split; [reflexivity|].
  apply (stopped_child_is_not_reaped _ 100 0x137f
           {| wk_pid := 100; wk_state := WORKER_RUNNING; wk_event := Some O |}).
  reflexivity.
Defined.
(** ** The exit code *)

Lemma manager_exit_exit_code v m : exit_code (manager_exit v m) = exit_code m.
Proof.
  unfold manager_exit. cbn [exit_code set_exit_timeout].
  destruct (manager_kill_workers_settings (event_queue_cleanup (set_monitor (set_exit m true) false)
                EVENT_QUEUED))
    as (_ & _ & _ & _ & _ & _ & _ & ->).
  by destruct (event_queue_cleanup_settings (set_monitor (set_exit m true) false) EVENT_QUEUED)
    as (_ & _ & _ & _ & _ & _ & _ & ->).
Qed.

Lemma on_ctrl_msg_exit_code v m msg : exit_code (on_ctrl_msg v m msg) = exit_code m.
Proof.
  assert (Hrest : forall m', exit_code (on_ctrl_msg_rest v m' msg) = exit_code m').
  { intros m'. unfold on_ctrl_msg_rest. destruct (ctrl_exit msg >? 0).
    - rewrite manager_exit_exit_code. by destruct (ctrl_set_children_max msg >=? 0).
    - by destruct (ctrl_set_children_max msg >=? 0). }
  unfold on_ctrl_msg.
  set (m1 := if ctrl_set_log_level msg >=? 0 then manager_kill_workers m else m).
  assert (H1 : exit_code m1 = exit_code m).
  { unfold m1. destruct (ctrl_set_log_level msg >=? 0); [|done].
    apply manager_kill_workers_settings. }
  set (m2 := if ctrl_stop_exec_queue msg >? 0 then set_stop_exec_queue m1 true else m1).
  assert (H2 : exit_code m2 = exit_code m)
    by (unfold m2; by destruct (ctrl_stop_exec_queue msg >? 0)).
  set (m3 := if ctrl_start_exec_queue msg >? 0
             then event_queue_start v (set_stop_exec_queue m2 false) else m2).
  assert (H3 : exit_code m3 = exit_code m).
  { unfold m3. destruct (ctrl_start_exec_queue msg >? 0); [|done].
    destruct (event_queue_start_settings v (set_stop_exec_queue m2 false))
      as (_ & _ & _ & _ & _ & _ & _ & ->). done. }
  set (m4 := if ctrl_reload msg >? 0 then manager_reload m3 else m3).
  assert (H4 : exit_code m4 = exit_code m).
  { unfold m4. destruct (ctrl_reload msg >? 0); [|done].
    by destruct (manager_reload_settings m3) as (_ & _ & _ & _ & _ & _ & _ & ->). }
  destruct (ctrl_set_env msg) as [str|]; [|by rewrite Hrest].
  destruct (strchr_eq str) as [[key eq]|]; [|done].
  rewrite Hrest. set (m6 := if negb (isempty eq) then _ else _).
  destruct (manager_kill_workers_settings m6) as (_ & _ & _ & _ & _ & _ & _ & ->).
  unfold m6. by destruct (negb (isempty eq)).
Qed.

Lemma dispatch_exit_code v m i :
  match i with
  | InPost | InExitTimeout => True
  | _ => exit_code (dispatch v m i) = exit_code m
  end.
Proof.
  destruct i as [dev|pids failed|msg|children| | | |a|a| | |]; cbn [dispatch]; try done.
  - unfold on_uevent.
    destruct (event_queue_start_settings v (event_queue_insert m dev))
      as (_ & _ & _ & _ & _ & _ & _ & ->).
    apply event_queue_insert_settings.
  - unfold on_worker.
    assert (H : exit_code (fold_left on_worker_message pids m) = exit_code m)
      by apply (same_settings_fold on_worker_message), on_worker_message_settings.
    destruct failed; [done|].
    by destruct (event_queue_start_settings v (fold_left on_worker_message pids m))
      as (_ & _ & _ & _ & _ & _ & _ & ->).
  - apply on_ctrl_msg_exit_code.
  - unfold on_sigchld.
    assert (H : exit_code (fold_left on_sigchld_child children m) = exit_code m)
      by apply (same_settings_fold on_sigchld_child), on_sigchld_child_settings.
    destruct (event_queue_start_settings v (fold_left on_sigchld_child children m))
      as (_ & _ & _ & _ & _ & _ & _ & H').
    destruct (LIST_IS_EMPTY _); cbn [exit_code set_kill_workers_event]; congruence.
  - apply manager_exit_exit_code.
  - apply manager_reload_settings.
  - apply on_event_timeout_settings.
  - apply manager_kill_workers_settings.
Qed.

Lemma dispatch_drained v m i :
  drained m -> input_ok m i ->
  exit (dispatch v m i) = true /\ events (dispatch v m i) = [] /\ workers (dispatch v m i) = [].
Proof.
  intros (He & Hq & Hw) Hok.
  assert (Hstart : forall m', events m' = [] -> event_queue_start v m' = m').
  { intros m' H. unfold event_queue_start. by rewrite H. }
  destruct i as [dev|pids failed|msg|children| | | |a|a| | |]; cbn [dispatch input_ok] in *.
  - destruct Hok as [H _]. congruence.
  - unfold on_worker.
    assert (H : fold_left on_worker_message pids m = m).
    { induction pids as [|p pids IH]; cbn [fold_left]; [done|].
      unfold on_worker_message at 2. by rewrite Hw. }
    rewrite H. destruct failed; [done|]. by rewrite Hstart.
  - congruence.
  - unfold on_sigchld.
    assert (H : fold_left on_sigchld_child children m = m).
    { induction children as [|[p st] children IH]; cbn [fold_left]; [done|].
      unfold on_sigchld_child at 2. by rewrite Hw. }
    rewrite H, Hstart by done. by rewrite Hw.
  - unfold on_sigterm, manager_exit, event_queue_cleanup, manager_kill_workers.
    cbn [events workers set_exit set_monitor set_exit_timeout exit]. rewrite Hq.
    cbn [fold_left].
    cbn [events workers set_exit set_monitor set_exit_timeout exit]. rewrite Hw.
    cbn [fold_left].
    done.
  - unfold on_sighup, manager_reload, manager_kill_workers. rewrite Hw. done.
  - congruence.
  - destruct Hok as (ev & Hf & _). by rewrite Hq in Hf.
  - done.
  - unfold on_kill_workers_event, manager_kill_workers. rewrite Hw. done.
  - done.
  - unfold on_post. rewrite Hq, Hw, He. done.
Qed.

(** X17: In every state the manager can reach, the exit code 0 is set only
    after the shutdown has begun, the queue is empty and the last worker has
    been reaped. *)
Theorem clean_exit_only_when_drained cgroup children_max event_timeout_usec m :
  reachable (manager_new cgroup children_max event_timeout_usec) m ->
  exit_code m = Some 0 ->
  exit m = true /\ events m = [] /\ workers m = [].
Proof.
  intros Hr. change (exit_code m = Some 0 -> drained m).
  induction Hr as [|m v i Hr IH Hok]; [done|]. intros Hc.
  pose proof (dispatch_exit_code v m i) as He.
  destruct i as [dev|pids failed|msg|children| | | |a|a| | |];
    try (rewrite He in Hc; apply dispatch_drained; [by apply IH | done]).
  - by vm_compute in Hc.
  - cbn [dispatch] in *. unfold on_post in *.
    destruct (events m) as [|e q] eqn:Hq; cbn [LIST_IS_EMPTY negb] in *.
    2:{ destruct (IH Hc) as (_ & H & _). congruence. }
    destruct (workers m) as [|w ws] eqn:Hw; cbn [LIST_IS_EMPTY negb] in *.
    2:{ destruct (IH Hc) as (_ & _ & H). congruence. }
    destruct (exit m) eqn:Hx; [by repeat split|].
    assert (Hc' : exit_code m = Some 0) by (by destruct (has_cgroup m)).
    destruct (IH Hc') as (? & _). congruence.
Qed.

Lemma clean_exit_only_when_drained_witness :
  let m := dispatch calm (dispatch calm manager0 InSigterm) InPost in
  exit_code m = Some 0 /\ exit m = true /\ events m = [] /\ workers m = [].
Proof.
  cbv zeta. split; [reflexivity|].
  apply (clean_exit_only_when_drained false 10 default_event_timeout_usec).
  - scenario_reachable.
  - reflexivity.
Defined.
(** ** A worker reports back *)

Lemma hashmap_get_update ws pid f :
  (forall w, wk_pid (f w) = wk_pid w) ->
  hashmap_get (update_worker pid f ws) pid = option_map f (hashmap_get ws pid).
Proof.
  intros Hf. unfold hashmap_get, update_worker. induction ws as [|x ws IH]; [done|].
  cbn [List.map List.find]. destruct (Z.eqb_spec (wk_pid x) pid) as [Hp|Hp].
  - by rewrite Hf, Hp, Z.eqb_refl.
  - apply Z.eqb_neq in Hp. by rewrite Hp.
Qed.

(** X18: In every state the manager can reach, the message of a worker of the
    pool ends its event: the worker is IDLE afterwards (KILLED if it was
    killed before) with no event attached, the event it had is gone from the
    queue, the other events stay in their order and the other workers are
    left as they are. *)
Theorem worker_message_frees_event cgroup children_max event_timeout_usec m pid w :
  reachable (manager_new cgroup children_max event_timeout_usec) m ->
  hashmap_get (workers m) pid = Some w ->
  hashmap_get (workers (on_worker_message m pid)) pid =
    Some {| wk_pid := pid;
            wk_state := if worker_state_eqb (wk_state w) WORKER_KILLED
                        then WORKER_KILLED else WORKER_IDLE;
            wk_event := None |} /\
  events (on_worker_message m pid) =
    match wk_event w with
    | Some a => remove_event a (events m)
    | None => events m
    end /\
  (forall a, wk_event w = Some a -> find_event a (events (on_worker_message m pid)) = None) /\
  (forall w0, In w0 (workers m) -> wk_pid w0 <> pid -> In w0 (workers (on_worker_message m pid))).
Proof.
  intros Hr Hget.
  assert (Hinv : manager_inv m) by (eapply reachable_inv; [apply manager_new_inv | done]).
  destruct Hinv as [Hq [Hl Hok]]. pose proof Hl as (P1 & P3 & P4).
  rewrite List.Forall_forall in Hok.
  unfold on_worker_message. rewrite Hget. apply hashmap_get_Some in Hget as Hw.
  destruct Hw as [Hin Hp]. destruct (Hok w Hin) as (O1 & O2 & O3).
  set (m1 := if negb _ then _ else m).
  assert (He1 : events m1 = events m) by (unfold m1; by destruct (negb _)).
  assert (Hg1 : hashmap_get (workers m1) pid =
                Some {| wk_pid := pid;
                        wk_state := if worker_state_eqb (wk_state w) WORKER_KILLED
                                    then WORKER_KILLED else WORKER_IDLE;
                        wk_event := wk_event w |}).
  { unfold m1. destruct (worker_state_eqb (wk_state w) WORKER_KILLED) eqn:Hk; cbn [negb].
    - rewrite Hget. apply worker_state_eqb_eq in Hk. rewrite <- Hk, <- Hp. by destruct w.
    - cbn [workers set_workers]. rewrite hashmap_get_update by done. by rewrite Hget, <- Hp. }
  assert (Hw1 : forall w0, In w0 (workers m) -> wk_pid w0 <> pid -> In w0 (workers m1)).
  { intros w0 Hw0 Hne. unfold m1. destruct (negb _); [|done]. cbn [workers set_workers].
    apply in_update_worker. exists w0. split; [done|].
    by destruct (Z.eqb_spec (wk_pid w0) pid). }
  destruct (wk_event w) as [a|] eqn:Hev.
  - destruct (P3 w a Hin Hev) as (e & He & Ha & Hwk).
    assert (Hf : find_event a (events m1) = Some e).
    { rewrite He1, <- Ha. apply find_event_In; [apply Hq | done]. }
    rewrite event_free_workers, events_event_free, Hf, Hwk, Hp, He1.
    split; [|split; [done|]; split].
    + rewrite hashmap_get_update by done. by rewrite Hg1.
    + intros a' [= <-]. apply find_event_remove.
    + intros w0 Hw0 Hne. apply in_update_worker. exists w0. split; [by apply Hw1|].
      by destruct (Z.eqb_spec (wk_pid w0) pid).
  - cbn [event_free]. split; [done|]. split; [done|]. split; [done | exact Hw1].
Qed.

Lemma worker_message_frees_event_witness :
  let w := {| wk_pid := 100; wk_state := WORKER_RUNNING; wk_event := Some O |} in
  hashmap_get (workers eth0_with_queue) 100 = Some w /\
  hashmap_get (workers (on_worker_message eth0_with_queue 100)) 100 =
    Some {| wk_pid := 100;
            wk_state := if worker_state_eqb (wk_state w) WORKER_KILLED
                        then WORKER_KILLED else WORKER_IDLE;
            wk_event := None |} /\
  events (on_worker_message eth0_with_queue 100) =
    match wk_event w with
    | Some a => remove_event a (events eth0_with_queue)
    | None => events eth0_with_queue
    end /\
  (forall a, wk_event w = Some a ->
     find_event a (events (on_worker_message eth0_with_queue 100)) = None) /\
  (forall w0, In w0 (workers eth0_with_queue) -> wk_pid w0 <> 100 ->
     In w0 (workers (on_worker_message eth0_with_queue 100))).
Proof.
  cbv zeta. split; [reflexivity|].
  apply (worker_message_frees_event false 10 default_event_timeout_usec).
  - unfold eth0_with_queue. scenario_reachable.
  - reflexivity.
Defined.
(** ** The worker process *)



(** What one device leaves in the trace. *)
Lemma worker_handle_device_trace dev a :
  let effs := fst (worker_handle_device dev a) in
  count_effects is_message effs = 1%nat /\
  count_effects is_publish effs = count_effects is_exec_rules effs /\
  (count_effects is_exec_rules effs <= 1)%nat /\
  lock_released false effs = true /\
  snd (worker_handle_device dev a) = a_send a.
Proof.
  cbv zeta. unfold worker_handle_device. cbn [fst snd].
  destruct (negb (streq_ptr (wd_action dev) (Some "remove"%string)) && shall_lock_device dev).
  - destruct (if streq_ptr (Some "partition"%string) (wd_devtype dev)
              then wd_parent dev else Some (wd_devnode dev)) as [node|].
    + destruct (match node with Some _ => a_open a | None => -1 end >=? 0);
        [destruct (a_flock a <? 0)|]; destruct (a_inotify_watch a); vm_compute; repeat split; lia.
    + destruct (a_inotify_watch a); vm_compute; repeat split; lia.
  - destruct (a_inotify_watch a); vm_compute; repeat split; lia.
Qed.




(** The wake-ups [pre] neither fail nor bring SIGTERM: the worker goes
    through them and is left waiting. *)
Lemma worker_wait_calm world pre n r tr taken :
  (forall k, a_event_new (world k) = true) ->
  forallb calm_wakeup pre = true ->
  n = length taken -> (0 < n)%nat -> r = a_send (world (n - 1)%nat) ->
  exists n' r' tr' taken',
    (forall rest, worker_wait world n r tr taken (pre ++ rest)
                  = worker_wait world n' r' tr' taken' rest) /\
    n' = length taken' /\ (0 < n')%nat /\ r' = a_send (world (n' - 1)%nat).
Proof.
  intros Hnew. revert n r tr taken.
  induction pre as [|w pre IH]; intros n r tr taken Hcalm Hn Hpos Hr.
  - by exists n, r, tr, taken.
  - cbn [forallb] in Hcalm. apply andb_true_iff in Hcalm as [Hw Hcalm].
    destruct w as [errno|evs]; cbn [calm_wakeup] in Hw.
    + destruct (IH n r tr taken Hcalm Hn Hpos Hr) as (n' & r' & tr' & taken' & H & H').
      exists n', r', tr', taken'. split; [|done]. intros rest.
      cbn [app worker_wait]. by rewrite Hw.
    + destruct (scan_events evs) as [[dev|]| |] eqn:Hscan; [| |done|].
      * pose proof (worker_handle_device_trace dev (world n)) as (_ & _ & _ & _ & Hs).
        destruct (worker_handle_device dev (world n)) as [effs r1] eqn:Hh. cbn [snd] in Hs.
        destruct (IH (S n) r1 (tr ++ effs) (taken ++ [dev]) Hcalm)
          as (n' & r' & tr' & taken' & H & H').
        { rewrite List.length_app. cbn [length]. lia. }
        { lia. }
        { rewrite Hs. f_equal. f_equal. lia. }
        exists n', r', tr', taken'. split; [|done]. intros rest.
        cbn [app worker_wait]. by rewrite Hscan, Hnew, Hh.
      * destruct (IH n r tr taken Hcalm Hn Hpos Hr) as (n' & r' & tr' & taken' & H & H').
        exists n', r', tr', taken'. split; [|done]. intros rest.
        cbn [app worker_wait]. by rewrite Hscan.
      * destruct (IH n r tr taken Hcalm Hn Hpos Hr) as (n' & r' & tr' & taken' & H & H').
        exists n', r', tr', taken'. split; [|done]. intros rest.
        cbn [app worker_wait]. by rewrite Hscan.
Qed.

(** X20: A worker whose descriptors could be set up and whose events could be
    allocated does not exit of its own: through wake-ups that bring devices,
    other signals, events without EPOLLIN or EINTR it keeps waiting.  When
    SIGTERM is read it has done all it will do: it exits without another
    effect, with a failure exactly when the message for the last device it
    handled could not be sent. *)
Theorem worker_runs_until_sigterm world s dev pre :
  setup_ok s = true -> (forall n, a_event_new (world n) = true) ->
  forallb calm_wakeup pre = true ->
  w_exit (worker_main world s dev pre) = WBlocked /\
  forall evs post, scan_events evs = ScanTerm ->
    let run := worker_main world s dev (pre ++ EpollReady evs :: post) in
    w_trace run = w_trace (worker_main world s dev pre) /\
    w_taken run = w_taken (worker_main world s dev pre) /\
    w_exit run = WExit (if a_send (world (length (w_taken run) - 1)%nat) <? 0
                        then EXIT_FAILURE else EXIT_SUCCESS).
Proof.
  intros Hs Hnew Hcalm. unfold setup_ok in Hs.
  apply andb_true_iff in Hs as [Hs H4]. apply andb_true_iff in Hs as [Hs H3].
  apply andb_true_iff in Hs as [H1 H2]. apply negb_true_iff in H1, H2, H3, H4.
  unfold worker_main. rewrite H1, H2, H3, H4, Hnew. cbn [orb].
  pose proof (worker_handle_device_trace dev (world O)) as (_ & _ & _ & _ & Hr).
  destruct (worker_handle_device dev (world O)) as [effs r]. cbn [snd] in Hr.
  destruct (worker_wait_calm world pre 1 r effs [dev] Hnew Hcalm eq_refl)
    as (n' & r' & tr' & taken' & H & Hn & Hpos & Hr'); [lia | done|].
  pose proof (H []) as H0. rewrite List.app_nil_r in H0. rewrite H0.
  split; [done|]. intros evs post Hscan. cbv zeta. rewrite H.
  cbn [worker_wait]. rewrite Hscan. cbn [worker_exit w_trace w_taken w_exit].
  split; [done|]. split; [done|]. by rewrite Hr', Hn.
Qed.

Lemma worker_runs_until_sigterm_witness :
  let world := fun _ : nat =>
    {| a_event_new := true; a_open := 5; a_flock := -1; a_inotify_watch := false;
       a_send := 0 |} in
  let s := {| s_signalfd := 3; s_epoll_create := 4; s_epoll_ctl_signal := 0;
              s_epoll_ctl_monitor := 0; s_errno := 0 |} in
  let dev := {| wd_action := Some "add"%string; wd_subsystem := Some "block"%string;
                wd_sysname := "sda1"; wd_devtype := Some "partition"%string;
                wd_devnode := Some "/dev/sda1"%string;
                wd_parent := Some (Some "/dev/sda"%string) |} in
  let pre := [EpollReady [{| ee_fd := FdMonitor; ee_in := true; ee_dev := Some dev;
                             ee_size_ok := false; ee_signo := 0 |}];
              EpollFailed EINTR] in
  w_exit (worker_main world s dev pre) = WBlocked /\
  forall evs post, scan_events evs = ScanTerm ->
    let run := worker_main world s dev (pre ++ EpollReady evs :: post) in
    w_trace run = w_trace (worker_main world s dev pre) /\
    w_taken run = w_taken (worker_main world s dev pre) /\
    w_exit run = WExit (if a_send (world (length (w_taken run) - 1)%nat) <? 0
                        then EXIT_FAILURE else EXIT_SUCCESS).
Proof.
  cbv zeta. apply worker_runs_until_sigterm; [reflexivity | reflexivity | reflexivity].
Defined.
(** ** Synthesized change events *)

Lemma has_partitions_loop_existsb ds : has_partitions_loop ds = existsb is_partition ds.
Proof.
  induction ds as [|d ds IH]; [done|]. cbn [has_partitions_loop existsb].
  by destruct (is_partition d).
Qed.

Lemma partition_writes_files ds :
  files_written (partition_writes ds) = List.map uevent_file (named_partitions ds) /\
  Forall writes_change (partition_writes ds).
Proof.
  induction ds as [|d ds [IH1 IH2]]; [by split|].
  cbn [partition_writes named_partitions flat_map].
  destruct (is_partition d); cbn [negb app]; [|done].
  destruct (sd_devname d); [done|]. destruct (sd_syspath d); [done|].
  cbn [app List.map files_written flat_map]. split; [by f_equal|]. by constructor.
Qed.

Lemma files_written_app a b : files_written (a ++ b) = files_written a ++ files_written b.
Proof. unfold files_written. by rewrite List.flat_map_app. Qed.

(** X21: For a device with all five properties [synthesize_change] writes
    "change" and nothing else.  For a whole disk that is not a dm device:
    when one of the four calls that set up the enumerator returns a negative
    value, it returns that value and writes nothing; otherwise it returns
    0, and when the partition table could be re-read (open, exclusive lock
    and BLKRRPART all succeeded) and the disk has a partition among its
    children it writes nothing, else it writes to the uevent file of the disk
    and then to those of its partitions that have a name and a syspath, in
    their order, and to no other child.  For any other device it returns 0
    and writes to the uevent file of the device alone. *)
Theorem synthesize_change_writes dev o subsystem sysname devname syspath devtype :
  sd_subsystem dev = Got subsystem -> sd_sysname dev = Got sysname ->
  sd_devname dev = Got devname -> sd_syspath dev = Got syspath ->
  sd_devtype dev = Got devtype ->
  Forall writes_change (snd (synthesize_change dev o)) /\
  if streq "block" subsystem && streq "disk" devtype && negb (startswith sysname "dm-")
  then
    match enumerator_error o with
    | Some r =>
      r < 0 /\ fst (synthesize_change dev o) = r /\
      files_written (snd (synthesize_change dev o)) = []
    | None =>
      fst (synthesize_change dev o) = 0 /\
      files_written (snd (synthesize_change dev o)) =
        if (da_open o >=? 0) && (da_flock o >=? 0) && (da_ioctl o >=? 0)
           && existsb is_partition (da_children o)
        then []
        else uevent_file syspath :: List.map uevent_file (named_partitions (da_children o))
    end
  else
    fst (synthesize_change dev o) = 0 /\
    files_written (snd (synthesize_change dev o)) = [uevent_file syspath].
Proof.
  intros H1 H2 H3 H4 H5. unfold synthesize_change, enumerator_error.
  rewrite H1, H2, H3, H4, H5.
  destruct (streq "block" subsystem && streq "disk" devtype && negb (startswith sysname "dm-")).
  2:{ cbn [fst snd]. split; [by repeat constructor | done]. }
  destruct (partition_writes_files (da_children o)) as [P1 P2].
  rewrite has_partitions_loop_existsb.
  assert (Hw : forall pre, files_written pre = [] -> Forall writes_change pre ->
    Forall writes_change
      (pre ++ [SWrite (uevent_file syspath) "change"] ++ partition_writes (da_children o)) /\
    files_written
      (pre ++ [SWrite (uevent_file syspath) "change"] ++ partition_writes (da_children o))
    = uevent_file syspath :: List.map uevent_file (named_partitions (da_children o))).
  { intros pre Hpre Hf. split.
    - apply List.Forall_app. split; [done|]. by constructor.
    - rewrite files_written_app, Hpre. cbn [app files_written flat_map].
      fold (files_written (partition_writes (da_children o))). by rewrite P1. }
  set (first := if da_open o >=? 0 then _ else _).
  assert (Hfirst : exists pre,
            first = ((da_open o >=? 0) && (da_flock o >=? 0) && (da_ioctl o >=? 0), pre) /\
            files_written pre = [] /\ Forall writes_change pre).
  { unfold first. destruct (da_open o >=? 0); cbn [andb].
    - destruct (da_flock o >=? 0) eqn:Hfl; cbn [andb].
      + eexists. split; [done|]. split; [done | by repeat constructor].
      + rewrite Hfl. eexists. split; [done|]. split; [done | by repeat constructor].
    - eexists. split; [done|]. split; [done | by repeat constructor]. }
  destruct Hfirst as (pre & -> & Hpre & Hf).
  destruct (Z.ltb_spec (da_enumerator_new o) 0); [done|].
  destruct (Z.ltb_spec (da_allow_uninitialized o) 0); [done|].
  destruct (Z.ltb_spec (da_add_match_parent o) 0); [done|].
  destruct (Z.ltb_spec (da_add_match_subsystem o) 0); [done|].
  destruct ((da_open o >=? 0) && (da_flock o >=? 0) && (da_ioctl o >=? 0)); cbn [andb].
  - destruct (existsb is_partition (da_children o)); cbn [fst snd]; [done|].
    destruct (Hw pre Hpre Hf). done.
  - cbn [fst snd]. destruct (Hw pre Hpre Hf). done.
Qed.

Lemma synthesize_change_writes_witness :
  let part n := {| sd_subsystem := Got "block"%string; sd_sysname := Got n;
                   sd_devname := Got ("/dev/" ++ n)%string;
                   sd_syspath := Got ("/sys/block/sda/" ++ n)%string;
                   sd_devtype := Got "partition"%string |} in
  let dev := {| sd_subsystem := Got "block"%string; sd_sysname := Got "sda"%string;
                sd_devname := Got "/dev/sda"%string;
                sd_syspath := Got "/sys/block/sda"%string;
                sd_devtype := Got "disk"%string |} in
  let o := {| da_open := 7; da_flock := -1; da_ioctl := 0; da_enumerator_new := 0;
              da_allow_uninitialized := 0; da_add_match_parent := 0;
              da_add_match_subsystem := 0;
              da_children := [part "sda1"%string; part "sda2"%string] |} in
  Forall writes_change (snd (synthesize_change dev o)) /\
  if streq "block" "block" && streq "disk" "disk" && negb (startswith "sda" "dm-")
  then
    match enumerator_error o with
    | Some r =>
      r < 0 /\ fst (synthesize_change dev o) = r /\
      files_written (snd (synthesize_change dev o)) = []
    | None =>
      fst (synthesize_change dev o) = 0 /\
      files_written (snd (synthesize_change dev o)) =
        if (da_open o >=? 0) && (da_flock o >=? 0) && (da_ioctl o >=? 0)
           && existsb is_partition (da_children o)
        then []
        else uevent_file "/sys/block/sda"
             :: List.map uevent_file (named_partitions (da_children o))
    end
  else
    fst (synthesize_change dev o) = 0 /\
    files_written (snd (synthesize_change dev o)) = [uevent_file "/sys/block/sda"].
Proof.
  cbv zeta.
  apply (synthesize_change_writes _ _ "block" "sda" "/dev/sda" "/sys/block/sda" "disk");
    reflexivity.
Defined.

(** X22: [synthesize_change] does nothing at all for a device that lacks one of
    the five properties it asks for: a device without a devtype gets no
    change event, and the value returned is the error of the getter. *)
Theorem no_change_without_all_properties dev o r :
  sd_subsystem dev = Failed r \/ sd_sysname dev = Failed r \/ sd_devname dev = Failed r \/
  sd_syspath dev = Failed r \/ sd_devtype dev = Failed r ->
  snd (synthesize_change dev o) = [] /\
  exists r', fst (synthesize_change dev o) = r' /\
    (sd_subsystem dev = Failed r' \/ sd_sysname dev = Failed r' \/
     sd_devname dev = Failed r' \/ sd_syspath dev = Failed r' \/ sd_devtype dev = Failed r').
Proof.
  intros H. unfold synthesize_change.
  destruct (sd_subsystem dev) as [r1|x1];
    [split; [done|]; exists r1; split; [done | by left]|].
  destruct (sd_sysname dev) as [r2|x2];
    [split; [done|]; exists r2; split; [done | by right; left]|].
  destruct (sd_devname dev) as [r3|x3];
    [split; [done|]; exists r3; split; [done | by right; right; left]|].
  destruct (sd_syspath dev) as [r4|x4];
    [split; [done|]; exists r4; split; [done | by right; right; right; left]|].
  destruct (sd_devtype dev) as [r5|x5];
    [split; [done|]; exists r5; split; [done | by right; right; right; right]|].
  by destruct H as [|[|[|[|]]]].
Qed.

Lemma no_change_without_all_properties_witness :
  let dev := {| sd_subsystem := Got "mem"%string; sd_sysname := Got "null"%string;
                sd_devname := Got "/dev/null"%string;
                sd_syspath := Got "/sys/devices/virtual/mem/null"%string;
                sd_devtype := Failed (-2) |} in
  let o := {| da_open := 7; da_flock := 0; da_ioctl := 0; da_enumerator_new := 0;
              da_allow_uninitialized := 0; da_add_match_parent := 0;
              da_add_match_subsystem := 0; da_children := [] |} in
  snd (synthesize_change dev o) = [] /\
  exists r', fst (synthesize_change dev o) = r' /\
    (sd_subsystem dev = Failed r' \/ sd_sysname dev = Failed r' \/
     sd_devname dev = Failed r' \/ sd_syspath dev = Failed r' \/ sd_devtype dev = Failed r').
Proof.
  cbv zeta. apply (no_change_without_all_properties _ _ (-2)). right; right; right; right. reflexivity.
Defined.
(** ** The lock on the device node *)

(** X23: What the worker does for one device.  When it has opened the node and
    the shared lock is refused, it closes the node and neither runs the rules
    nor publishes the device; in every other case, also when the node cannot
    be opened, it runs the rules and publishes the device.  It opens nothing
    for a remove event or for a device that [shall_lock_device] excludes.
    The last thing it does is to send the message to the manager. *)
Theorem locked_device_is_skipped_but_reported dev a :
  let effs := fst (worker_handle_device dev a) in
  (if existsb (fun x => match x with WFlock => true | _ => false end) effs
      && (a_flock a <? 0)
   then count_effects is_exec_rules effs = O /\ count_effects is_publish effs = O /\
        exists node, effs = [WOpen node; WFlock; WCloseLock; WMessage]
   else count_effects is_exec_rules effs = 1%nat /\ count_effects is_publish effs = 1%nat) /\
  (if streq_ptr (wd_action dev) (Some "remove"%string) || negb (shall_lock_device dev)
   then existsb (fun x => match x with WOpen _ => true | _ => false end) effs = false
   else True) /\
  last effs = Some WMessage.
Proof.
  cbv zeta. unfold worker_handle_device. cbn [fst].
  destruct (streq_ptr (wd_action dev) (Some "remove"%string)); cbn [negb andb orb].
  { destruct (a_inotify_watch a); by vm_compute. }
  destruct (shall_lock_device dev); cbn [negb].
  2:{ destruct (a_inotify_watch a); by vm_compute. }
  destruct (if streq_ptr (Some "partition"%string) (wd_devtype dev)
            then wd_parent dev else Some (wd_devnode dev)) as [node|].
  2:{ destruct (a_inotify_watch a); by vm_compute. }
  destruct (match node with Some _ => a_open a | None => -1 end >=? 0).
  - destruct (a_flock a <? 0) eqn:Hfl.
    + cbn [existsb app orb andb]. split; [|done]. split; [done|]. split; [done|].
      by exists node.
    + destruct (a_inotify_watch a); cbn [existsb app orb andb]; by vm_compute.
  - destruct (a_inotify_watch a); by vm_compute.
Qed.

(** ** The default of children_max *)

(** X24: Whatever the affinity mask and the amount of memory, the default of
    children_max is at least 10 and fits the [unsigned] it is stored in; it
    is 10 when [sched_getaffinity] fails. *)
Theorem default_children_max_at_least_ten affinity physical_memory :
  10 <= default_children_max affinity physical_memory < 2 ^ 32 /\
  default_children_max None physical_memory = 10.
Proof.
  assert (H : forall c, 0 <= c < 2 ^ 32 ->
            10 <= wrap32 (Z.max 10 (Z.min c (physical_memory / (128 * 1024 * 1024)))) < 2 ^ 32 /\
            (c < 10 -> wrap32 (Z.max 10 (Z.min c (physical_memory / (128 * 1024 * 1024)))) = 10)).
  { intros c Hc. unfold wrap32.
    set (x := Z.max 10 (Z.min c (physical_memory / (128 * 1024 * 1024)))).
    assert (Hx : 10 <= x < 2 ^ 32) by (unfold x; lia).
    rewrite Z.mod_small by lia. split; [done|]. intros Hlt. unfold x. lia. }
  split.
  - unfold default_children_max. destruct affinity as [cpu_count|]; cbv zeta.
    + apply H. unfold wrap32. apply Z.mod_pos_bound. lia.
    + apply H. lia.
  - unfold default_children_max. cbv zeta. apply H; lia.
Qed.
(** ** Freeing the manager *)

Lemma event_queue_cleanup_marker m t : marker_ok m -> marker_ok (event_queue_cleanup m t).
Proof.
  unfold event_queue_cleanup. generalize (events m) at 1. intros evs. revert m.
  induction evs as [|ev evs IH]; intros m Hm; cbn [fold_left]; [done|].
  apply IH. destruct (_ && _); [done | by apply event_free_marker].
Qed.

Lemma manager_workers_free_marker m : marker_ok m -> marker_ok (manager_workers_free m).
Proof.
  unfold manager_workers_free. generalize (List.map wk_pid (workers m)). intros pids.
  revert m. induction pids as [|pid pids IH]; intros m Hm; cbn [fold_left]; [done|].
  apply IH. destruct (hashmap_get (workers m) pid) as [w|]; [|done].
  unfold worker_free. by apply event_free_marker.
Qed.

Lemma event_queue_cleanup_undef m : events (event_queue_cleanup m EVENT_UNDEF) = [].
Proof.
  unfold event_queue_cleanup. rewrite event_queue_cleanup_loop.
  assert (H : forall q, (forall e, In e q -> In e (events m)) ->
            List.filter
              (fun e => negb (existsb (fun x => Nat.eqb (ev_addr e) (ev_addr x)
                                                && negb (survives_cleanup EVENT_UNDEF x))
                                (events m))) q = []).
  { induction q as [|e q IH]; intros Hq; [done|]. cbn [List.filter].
    assert (Hex : existsb (fun x => Nat.eqb (ev_addr e) (ev_addr x)
                                    && negb (survives_cleanup EVENT_UNDEF x)) (events m) = true).
    { apply List.existsb_exists. exists e. split; [apply Hq; by left|].
      by rewrite Nat.eqb_refl. }
    rewrite Hex. cbn [negb]. apply IH. intros x Hx. apply Hq. by right. }
  by apply H.
Qed.

(** X25: In every state the manager can reach, [manager_free] leaves no worker in
    the pool and no event in the queue, and the last thing done to
    /run/udev/queue, if anything was ever done to it, is an unlink: the
    manager leaves no marker file behind (as far as unlink succeeds). *)
Theorem manager_free_leaves_nothing cgroup children_max event_timeout_usec m :
  reachable (manager_new cgroup children_max event_timeout_usec) m ->
  workers (manager_free m) = [] /\ events (manager_free m) = [] /\
  marker_exists (trace (manager_free m)) = false.
Proof.
  intros Hr.
  assert (Hm : marker_ok m).
  { by apply (reachable_marker (manager_new cgroup children_max event_timeout_usec) m);
      [apply manager_new_inv | |]. }
  assert (He : events (manager_free m) = []) by apply event_queue_cleanup_undef.
  split; [|split; [done|]].
  - unfold manager_free.
    assert (H : hashmap_size (workers (event_queue_cleanup (manager_workers_free m) EVENT_UNDEF))
                = 0) by (by rewrite event_queue_cleanup_size).
    unfold hashmap_size in H.
    by destruct (workers (event_queue_cleanup (manager_workers_free m) EVENT_UNDEF)).
  - pose proof (event_queue_cleanup_marker _ EVENT_UNDEF (manager_workers_free_marker m Hm)) as H.
    unfold marker_ok in H. fold (manager_free m) in H. by rewrite H, He.
Qed.

Lemma manager_free_leaves_nothing_witness :
  workers (manager_free eth0_with_queue) = [] /\ events (manager_free eth0_with_queue) = [] /\
  marker_exists (trace (manager_free eth0_with_queue)) = false.
Proof.
  apply (manager_free_leaves_nothing false 10 default_event_timeout_usec).
  unfold eth0_with_queue. scenario_reachable.
Defined.
